(** * ZenSVI street-view ingestion pipeline: a shallow embedding

    The development follows the Python sources
    - [zensvi/download/streetview_downloader.py]
      ([BaseDownloader], [GSVDownloader], [MLYDownloader]),
    - [zensvi/download/mapillary/models/geojson.py] ([Feature], [GeoJSON]),
    - [streetscope/download/streetview_downloader.py]
      ([standardize_column_names], [StreetViewDownloader]).

    Conventions of the embedding.
    - A data frame is the list of its rows in positional order, a row a
      finite map from column names to cells; a frame with an index pairs
      every row with its label.  A cell holds the value pandas read from
      the file.  Writing a frame to CSV and reading it back gives the same
      rows.
    - A Python dictionary is a finite map with string keys, without an
      order of the keys; [d.update(e)] is the union that prefers [e].
    - An exception is a value of [exn] carried by [result]; a function that
      raises returns [Raise e].  The functions that can also end with an
      [UnboundLocalError] or a [FileNotFoundError] return an [outcome],
      which carries an [error].
    - A directory of checkpoint shards is a finite map from the number in
      the file name to the rows of the file.
    - The remote endpoints and the directory listing are parameters of the
      functions that call them.  The tasks of a batch are reduced in the
      order they were submitted.
    - Strings are sequences of code points below 256. *)

From Stdlib Require Import ZArith Ascii String List Bool Lia Permutation.
From stdpp Require Import base decidable option list strings gmap.

Local Open Scope string_scope.
Local Open Scope Z_scope.
Local Open Scope list_scope.

(** ** Python values and exceptions *)

Module Py.

(** The cell values the pipeline stores in rows: integers, strings and the
    missing value ([None] / [NaN]).  An integer never equals a string. *)
Inductive pyval : Type :=
  | PInt (n : Z)
  | PStr (s : string)
  | PNone.

#[global] Instance pyval_eq_dec : EqDecision pyval.
Proof. solve_decision. Defined.

(** The exceptions raised by the modelled functions. *)
Inductive exn : Type :=
  | ValueError (msg : string)
  | OutOfBoundsDatetime
  | KeyError (key : string)
  | AttributeError (attr : string)
  | IndexError
  | ZeroDivisionError
  | TypeError (msg : string).

#[global] Instance exn_eq_dec : EqDecision exn.
Proof. solve_decision. Defined.

(** [OutOfBoundsDatetime] derives from [ValueError] in pandas. *)
Definition is_ValueError (e : exn) : bool :=
  match e with
  | ValueError _ | OutOfBoundsDatetime => true
  | _ => false
  end.

Inductive result (A : Type) : Type :=
  | Ok (a : A)
  | Raise (e : exn).
Arguments Ok {A} a.
Arguments Raise {A} e.

Definition bind {A B} (r : result A) (k : A -> result B) : result B :=
  match r with
  | Ok a => k a
  | Raise e => Raise e
  end.

#[global] Instance result_ret : MRet result := @Ok.
#[global] Instance result_bind : MBind result := fun A B k r => bind r k.

Definition raises_ValueError {A} (r : result A) : Prop :=
  match r with
  | Ok _ => False
  | Raise e => is_ValueError e = true
  end.

(** [str.isidentifier] on code points below 256: a letter or an underscore
    first, letters, digits, underscores and the middle dot after. *)
Definition id_start (c : ascii) : bool :=
  let n := N_of_ascii c in
  ((65 <=? n) && (n <=? 90) || (n =? 95) || (97 <=? n) && (n <=? 122)
   || (n =? 170) || (n =? 181) || (n =? 186)
   || (192 <=? n) && (n <=? 214) || (216 <=? n) && (n <=? 246) || (248 <=? n))%N.

Definition id_continue (c : ascii) : bool :=
  let n := N_of_ascii c in
  (id_start c || (48 <=? n) && (n <=? 57) || (n =? 183))%N.

Definition isidentifier (s : string) : bool :=
  match s with
  | EmptyString => false
  | String c s' => id_start c && forallb id_continue (list_ascii_of_string s')
  end.

(** [keyword.kwlist] *)
Definition kwlist : list string :=
  ["False"; "None"; "True"; "and"; "as"; "assert"; "async"; "await"; "break"; "class";
   "continue"; "def"; "del"; "elif"; "else"; "except"; "finally"; "for"; "from"; "global";
   "if"; "import"; "in"; "is"; "lambda"; "nonlocal"; "not"; "or"; "pass"; "raise";
   "return"; "try"; "while"; "with"; "yield"].

Definition iskeyword (s : string) : bool := bool_decide (s ∈ kwlist).

(** [s.startswith("_")] *)
Definition startswith_underscore (s : string) : bool :=
  match s with
  | String "_" _ => true
  | _ => false
  end.

(** A row of a data frame: column name to cell. *)
Abbreviation row := (gmap string pyval).

(** [row[col]] for a column that may be absent reads as a missing value in
    the comparisons below. *)
Definition cell (r : row) (col : string) : pyval := default PNone (r !! col).

End Py.

(** ** Column-name standardisation
    [standardize_column_names], streetscope/download/streetview_downloader.py:150-161 *)

Module Columns.

Definition longitude_variants : list string := ["longitude"; "long"; "lon"; "lng"; "x"].
Definition latitude_variants : list string := ["latitude"; "lat"; "lt"; "y"].

(** [str.lower] on one character.  The capital letters below 256 are [A]
    to [Z] and U+00C0 to U+00DE without the multiplication sign U+00D7;
    each has its small letter 32 places further. *)
Definition lower_ascii (c : ascii) : ascii :=
  let n := N_of_ascii c in
  if ((65 <=? n) && (n <=? 90) || (192 <=? n) && (n <=? 222) && negb (n =? 215))%N
  then ascii_of_N (n + 32) else c.

Fixpoint lower (s : string) : string :=
  match s with
  | EmptyString => EmptyString
  | String c s' => String (lower_ascii c) (lower s')
  end.

(** [df.rename(columns={old: new}, inplace=True)]: every column labelled
    [old] is relabelled. *)
Definition rename (old new : string) (columns : list string) : list string :=
  map (fun c => if decide (c = old) then new else c) columns.

(** One iteration of the loop body, for the loop variable [col]. *)
Definition rename_step (columns : list string) (col : string) : list string :=
  if bool_decide (col ∈ longitude_variants) then rename col "longitude" columns
  else if bool_decide (col ∈ latitude_variants) then rename col "latitude" columns
  else columns.

(** The data frame is represented by its column labels, in order.  The
    loop runs over the labels as they are after lower-casing (the [Index]
    object read once by [for col in df.columns]) while the frame is renamed
    in place. *)
Definition standardize_column_names (columns : list string) : list string :=
  let lowered := map lower columns in
  fold_left rename_step lowered lowered.

(** The name a single label ends up with. *)
Definition canonical (c : string) : string :=
  if bool_decide (c ∈ longitude_variants) then "longitude"
  else if bool_decide (c ∈ latitude_variants) then "latitude"
  else c.

(** The label a single column carries after the renames for the loop
    variables [cols], in order. *)
Definition chase (cols : list string) (c : string) : string :=
  fold_left (fun v col => if decide (v = col) then canonical col else v) cols c.

End Columns.

(** ** Data frames *)

Module Frame.
Import Py.

(** A frame is the list of its rows, in positional order.  The columns a
    stage needs are taken to exist; a cell a row does not carry is the
    missing value. *)
Abbreviation frame := (list row).


(** The columns [df.itertuples()] keeps under their own name.  The rows
    are named tuples made with [rename=True]: a column whose name is not an
    identifier, is a keyword or starts with an underscore gets a positional
    name [_N] in its place. *)
Definition field_name (name : string) : bool :=
  isidentifier name && negb (iskeyword name) && negb (startswith_underscore name).

(** [getattr(row, name)] on a row tuple of [df.itertuples()], for the name
    of a column: the cell when the column is a field under that name, an
    [AttributeError] when it is not or when the frame has no such column.
    The names of [own_attribute] are not asked for as columns. *)
Definition getattr (r : row) (name : string) : result pyval :=
  if field_name name then
    match r !! name with
    | Some v => Ok v
    | None => Raise (AttributeError name)
    end
  else Raise (AttributeError name).

(** [df.drop(columns=c)] *)
Definition drop_column (c : string) (df : frame) : frame := map (delete c) df.

(** The cells of a row on the columns of [subset]. *)
Definition subset_key (subset : list string) (r : row) : list pyval :=
  map (cell r) subset.

(** [df.drop_duplicates(subset=subset)], with the default [keep='first']:
    a row is dropped when an earlier row has the same cells on [subset]. *)
Fixpoint drop_duplicates_from (seen : list (list pyval)) (subset : list string)
    (df : frame) : frame :=
  match df with
  | [] => []
  | r :: df' =>
      let k := subset_key subset r in
      if bool_decide (k ∈ seen) then drop_duplicates_from seen subset df'
      else r :: drop_duplicates_from (k :: seen) subset df'
  end.

Definition drop_duplicates (subset : list string) (df : frame) : frame :=
  drop_duplicates_from [] subset df.

(** The tail of [_get_pids_from_df] (lines 373-377 and 785-788):
    [results_df.drop(columns='lat_lon_id')], then
    [drop_duplicates(subset=[pk] + id_columns)]; the result is what
    [to_csv(self.cache_pids_raw)] writes.  A subset column that the frame
    no longer has is a [KeyError]. *)
Definition write_pids_raw (pk : string) (id_columns : list string)
    (results_df : frame) : result frame :=
  let results_df := drop_column "lat_lon_id" results_df in
  if bool_decide ("lat_lon_id" ∈ pk :: id_columns) then Raise (KeyError "lat_lon_id")
  else Ok (drop_duplicates (pk :: id_columns) results_df).

(** First row of a frame whose cells on [subset] are [k]. *)
Definition first_with_key (subset : list string) (k : list pyval) (df : frame) : option row :=
  find (fun r => bool_decide (subset_key subset r = k)) df.

(** [series.isin(values)] for a set of strings: a cell is in the set when
    it equals one of its members. *)
Definition isin (v : pyval) (values : list string) : bool :=
  bool_decide (v ∈ (PStr <$> values)).

(** [df.dropna(subset=['id'])] *)
Definition dropna_id (df : frame) : frame :=
  List.filter (fun r : row => negb (bool_decide (cell r "id" = PNone))) df.

(** The 64-bit two's complement integer with the low 64 bits of [n]. *)
Definition int64 (n : Z) : Z := (n + 2 ^ 63) mod 2 ^ 64 - 2 ^ 63.

(** [df["id"] = df["id"].astype('int64')].  A cell holds the number
    pandas read: the column is [int64], [uint64], or [float64] with whole
    numbers (as soon as a cell is missing; an id of more than 53 bits is
    rounded when the file is read, before any function here sees it).  The
    conversion keeps the low 64 bits. *)
Definition astype_int64 (df : frame) : result frame :=
  mapM (fun r : row =>
          match cell r "id" with
          | PInt n => Ok (<["id" := PInt (int64 n)]> r)
          | _ => Raise (ValueError "cannot convert to int64")
          end) df.

(** [urls_df.merge(pid_df, on='id', how='left')] *)
Definition merge_left (urls_df pid_df : frame) : frame :=
  flat_map
    (fun u : row =>
       match List.filter (fun p : row => bool_decide (cell p "id" = cell u "id")) pid_df with
       | [] => [u]
       | matches => map (fun p : row => u ∪ p) matches
       end)
    urls_df.

(** [l[a:b]], also [df.iloc[a:b]]. *)
Definition py_slice {A} (a b : Z) (l : list A) : list A :=
  let n := Z.of_nat (length l) in
  let clamp := fun i : Z => if i <? 0 then Z.max 0 (i + n) else Z.min i n in
  take (Z.to_nat (clamp b - clamp a)) (drop (Z.to_nat (clamp a)) l).

(** [range(start, start + n)] *)
Definition py_range (start n : Z) : list Z :=
  map (fun k : nat => start + Z.of_nat k) (seq 0 (Z.to_nat n)).

(** A data frame with its index: every row carries its label. *)
Abbreviation indexed := (list (Z * row)).

(** [pd.read_csv(path)]: the rows are labelled [0, 1, 2, ...]. *)
Definition read_csv (rows : frame) : indexed :=
  zip (map Z.of_nat (seq 0 (length rows))) rows.

End Frame.

(** ** Dates: [datetime.strptime(s, "%Y-%m-%d")] and the date filters *)

Module Dates.
Import Py Frame.

(** A character is a code point below 256; the decimal digits among
    them are ["0"] to ["9"]. *)
Definition digit (c : ascii) : option Z :=
  let n := Z.of_N (N_of_ascii c) in
  if (48 <=? n) && (n <=? 57) then Some (n - 48) else None.

(** First alternative that lets the rest of the pattern match. *)
Definition orelse {A} (x y : option A) : option A :=
  match x with
  | Some a => Some a
  | None => y
  end.

Section Regex.
Context {A : Type}.

(** A literal character of the format. *)
Definition match_lit (ch : ascii) (s : list ascii) (k : list ascii -> option A) : option A :=
  match s with
  | c :: rest => if decide (c = ch) then k rest else None
  | [] => None
  end.

(** [%Y] is [(?P<Y>\d\d\d\d)]. *)
Definition match_Y (s : list ascii) (k : Z -> list ascii -> option A) : option A :=
  match s with
  | a :: b :: c :: d :: rest =>
      match digit a, digit b, digit c, digit d with
      | Some a, Some b, Some c, Some d => k (1000 * a + 100 * b + 10 * c + d) rest
      | _, _, _, _ => None
      end
  | _ => None
  end.

(** Two characters [x y] with [x] a digit in [lo1..hi1] and [y] a digit in
    [lo2..hi2]. *)
Definition two_digits (lo1 hi1 lo2 hi2 : Z) (s : list ascii)
    (k : Z -> list ascii -> option A) : option A :=
  match s with
  | x :: y :: rest =>
      match digit x, digit y with
      | Some a, Some b =>
          if (lo1 <=? a) && (a <=? hi1) && (lo2 <=? b) && (b <=? hi2)
          then k (10 * a + b) rest else None
      | _, _ => None
      end
  | _ => None
  end.

(** One character, a digit in [1..9]. *)
Definition one_digit (s : list ascii) (k : Z -> list ascii -> option A) : option A :=
  match s with
  | x :: rest =>
      match digit x with
      | Some a => if 1 <=? a then k a rest else None
      | None => None
      end
  | _ => None
  end.

(** [%m] is [(?P<m>1[0-2]|0[1-9]|[1-9])]. *)
Definition match_m (s : list ascii) (k : Z -> list ascii -> option A) : option A :=
  orelse (two_digits 1 1 0 2 s k)
    (orelse (two_digits 0 0 1 9 s k) (one_digit s k)).

(** [%d] is [(?P<d>3[0-1]|[1-2]\d|0[1-9]|[1-9]| [1-9])]. *)
Definition match_d (s : list ascii) (k : Z -> list ascii -> option A) : option A :=
  orelse (two_digits 3 3 0 1 s k)
    (orelse (two_digits 1 2 0 9 s k)
       (orelse (two_digits 0 0 1 9 s k)
          (orelse (one_digit s k)
             (match_lit " " s (fun rest => one_digit rest k))))).
End Regex.

(** [format_regex.match(data_string)] for the format ["%Y-%m-%d"]: the
    groups and what is left of the string after the match. *)
Definition regex_ymd (s : list ascii) : option (Z * Z * Z * list ascii) :=
  match_Y s (fun y s =>
  match_lit "-" s (fun s =>
  match_m s (fun m s =>
  match_lit "-" s (fun s =>
  match_d s (fun d rest => Some (y, m, d, rest)))))).

Definition is_leap (y : Z) : bool :=
  (y mod 4 =? 0) && (negb (y mod 100 =? 0) || (y mod 400 =? 0)).

Definition days_in_month (y m : Z) : Z :=
  if m =? 2 then (if is_leap y then 29 else 28)
  else if (m =? 4) || (m =? 6) || (m =? 9) || (m =? 11) then 30
  else 31.

(** What [datetime.date(y, m, d)] accepts. *)
Definition valid_date (y m d : Z) : bool :=
  (1 <=? y) && (y <=? 9999) && (1 <=? m) && (m <=? 12)
  && (1 <=? d) && (d <=? days_in_month y m).

(** [datetime.datetime.strptime(s, "%Y-%m-%d")]: the date of the midnight
    it returns.  Every failure is a [ValueError]. *)
Definition strptime (s : string) : result (Z * Z * Z) :=
  match regex_ymd (list_ascii_of_string s) with
  | None => Raise (ValueError "time data does not match format")
  | Some (y, m, d, rest) =>
      match rest with
      | _ :: _ => Raise (ValueError "unconverted data remains")
      | [] =>
          if valid_date y m d then Ok (y, m, d)
          else Raise (ValueError "day is out of range for month")
      end
  end.

(** Days from 1970-01-01 to the civil date, proleptic Gregorian calendar. *)
Definition days_from_civil (y m d : Z) : Z :=
  let y' := if m <=? 2 then y - 1 else y in
  let era := y' / 400 in
  let yoe := y' - era * 400 in
  let mp := (m + 9) mod 12 in
  let doy := (153 * mp + 2) / 5 + d - 1 in
  let doe := yoe * 365 + yoe / 4 - yoe / 100 + doy in
  era * 146097 + doe - 719468.

(** Milliseconds from the epoch to midnight of the date. *)
Definition midnight_ms (date : Z * Z * Z) : Z :=
  let '(y, m, d) := date in days_from_civil y m d * 86400000.

(** The instants a [datetime64[ns]] column can hold, in milliseconds. *)
Definition in_ns_bounds (ms : Z) : bool :=
  (-9223372036854 <=? ms) && (ms <=? 9223372036854).

(** The [try: strptime / except ValueError: raise ValueError(...)] block
    (lines 527-536 and 913-922); [None] is left alone. *)
Definition parse_bound (which : string) (date : option string) : result (option Z) :=
  match date with
  | None => Ok None
  | Some s =>
      match strptime s with
      | Ok d => Ok (Some (midnight_ms d))
      | Raise e =>
          if is_ValueError e
          then Raise (ValueError ("Incorrect " ++ which ++ " format, should be YYYY-MM-DD")%string)
          else Raise e
      end
  end.

(** [date >= start_date] and [date <= end_date] on one cell of the
    temporary column; a missing instant ([NaT]) compares false. *)
Definition ge_bound (t : option Z) (bound : Z) : bool :=
  match t with
  | Some v => bound <=? v
  | None => false
  end.

Definition le_bound (t : option Z) (bound : Z) : bool :=
  match t with
  | Some v => v <=? bound
  | None => false
  end.

(** The common tail of both filters: parse the bounds, filter on the
    temporary [date] column, drop it. *)
Definition filter_dated (dated : list (row * option Z))
    (start_date end_date : option string) : result frame :=
  start ← parse_bound "start_date" start_date;
  end_ ← parse_bound "end_date" end_date;
  let dated :=
    match start with
    | Some s => List.filter (fun rt : row * option Z => ge_bound (snd rt) s) dated
    | None => dated
    end in
  let dated :=
    match end_ with
    | Some e => List.filter (fun rt : row * option Z => le_bound (snd rt) e) dated
    | None => dated
    end in
  Ok (map (fun rt : row * option Z => delete "date" (fst rt)) dated).

(** [pd.to_datetime(captured_at, unit='ms')] on one cell. *)
Definition to_datetime_ms (v : pyval) : result (option Z) :=
  match v with
  | PInt n => if in_ns_bounds n then Ok (Some n) else Raise OutOfBoundsDatetime
  | PNone => Ok None
  | PStr _ => Raise (ValueError "non convertible value with the unit 'ms'")
  end.

(** [pd.to_datetime(str(year) + "-" + str(month), format="%Y-%m")] on one
    row: integers print as a four-digit year and a month the format
    accepts, anything else does not match. *)
Definition to_datetime_ym (year month : pyval) : result (option Z) :=
  match year, month with
  | PInt y, PInt m =>
      if (1000 <=? y) && (y <=? 9999) && (1 <=? m) && (m <=? 12) then
        let t := midnight_ms (y, m, 1) in
        if in_ns_bounds t then Ok (Some t) else Raise OutOfBoundsDatetime
      else Raise (ValueError "time data does not match format")
  | _, _ => Raise (ValueError "time data does not match format")
  end.

(** Rows whose instant lies in the closed interval [[lo, hi]]. *)
Definition in_closed_interval (lo hi : Z) (t : option Z) : bool :=
  ge_bound t lo && le_bound t hi.

(** *** The date forms of the specification *)


(** A number written with one digit, or with two. *)
Definition one_or_two_digits (s : list ascii) (n : Z) : Prop :=
  (exists x, s = [x] /\ digit x = Some n)
  \/ (exists x y a b, s = [x; y] /\ digit x = Some a /\ digit y = Some b /\ n = 10 * a + b).

(** The strings [strptime] takes for a date: a four-digit year, the month
    and the day in one or two digits (a one-digit day may follow a
    space), a date of the calendar. *)
Definition lenient_ymd (s : string) (y m d : Z) : Prop :=
  exists y1 y2 y3 y4 a b c e ms ds,
    list_ascii_of_string s = [y1; y2; y3; y4; "-"%char] ++ ms ++ ["-"%char] ++ ds
    /\ digit y1 = Some a /\ digit y2 = Some b /\ digit y3 = Some c /\ digit y4 = Some e
    /\ y = 1000 * a + 100 * b + 10 * c + e
    /\ one_or_two_digits ms m
    /\ (one_or_two_digits ds d \/ exists x, ds = [" "%char; x] /\ digit x = Some d)
    /\ valid_date y m d = true.

End Dates.

(** ** [BaseDownloader]: the output tree and the files of a run *)

Module BaseDownloader.
Import Py Frame.

(** The output image tree as the pipeline lays it out: the [batch_{N}]
    directories under [panorama_output], each with the names of its files. *)
Abbreviation out_tree := (list (Z * list string)).

Definition file_names (tree : out_tree) : list string :=
  flat_map (fun d : Z * list string => snd d) tree.

(** [name.split(".")[0]] *)
Fixpoint before_first_dot (s : list ascii) : list ascii :=
  match s with
  | [] => []
  | c :: s' => if decide (c = "."%char) then [] else c :: before_first_dot s'
  end.

Definition split_dot_0 (name : string) : string :=
  string_of_list_ascii (before_first_dot (list_ascii_of_string name)).

(** [BaseDownloader._check_already], lines 114-123; the set difference is
    listed in the order of [all_panoids]. *)
Definition _check_already (tree : out_tree) (all_panoids : list pyval) : list pyval :=
  let name_r := map split_dot_0 (file_names tree) in
  List.filter (fun p : pyval => negb (isin p name_r)) (remove_dups all_panoids).

(** The CSV files under the output directory: path to table. *)
Abbreviation files := (gmap string frame).

Record pids_stage : Type := {
  st_files : files;              (* the files after the stage *)
  st_discovery : bool;           (* [_get_pids] was entered *)
  st_path_pid : option string    (* [path_pid] handed to the image fetch *)
}.

Definition path_exists (fs : files) (p : string) : bool := bool_decide (is_Some (fs !! p)).

Definition joinpath (dir name : string) : string := (dir ++ "/" ++ name)%string.

(** The table [pd.read_csv(path_pid)] gives the image fetch. *)
Definition pids_read (st : pids_stage) : option frame :=
  p ← st_path_pid st; st_files st !! p.

(** The pid file of a run: [path_pid] when the caller names one, else the
    provider's file under the output directory. *)
Definition pid_file (default_name dir_output : string) (path_pid : option string) : string :=
  default (joinpath dir_output default_name) path_pid.

End BaseDownloader.

(** ** [GSVDownloader] *)

Module GSVDownloader.
Import Py Frame Dates BaseDownloader.

(** *** [_get_pids_from_df]: the per-point task, the reduction loop and
    the final table *)

Module get_pids_from_df.
Section Discovery.
(** [panoids(lat, lon, proxies)]: the remote answer for a point, or the
    exception the task ends with. *)
Variable panoids : pyval -> pyval -> result (list row).
Variable id_columns : list string.

Definition get_street_view_info (longitude latitude : pyval) : result (list row) :=
  panoids latitude longitude.

(** [{column: getattr(row, column) for column in id_columns}] *)
Definition id_dict_of (r : row) : result row :=
  vs ← mapM (getattr r) id_columns; Ok (list_to_map (zip id_columns vs)).

(** [worker(row)], lines 305-310. *)
Definition worker (r : row)
    : result (pyval * (pyval * pyval) * list row * row) :=
  input_longitude ← getattr r "longitude";
  input_latitude ← getattr r "latitude";
  lat_lon_id ← getattr r "lat_lon_id";
  id_dict ← id_dict_of r;
  row_results ← get_street_view_info input_longitude input_latitude;
  Ok (lat_lon_id, (input_longitude, input_latitude), row_results, id_dict).

(** Lines 330-336: the tuple of a finished task is unpacked and every
    record of the point is extended in place. *)
Definition attach (out : pyval * (pyval * pyval) * list row * row) : list row :=
  let '(lat_lon_id, (input_longitude, input_latitude), row_results, id_dict) := out in
  map (fun result : row =>
         id_dict ∪ <["lat_lon_id" := lat_lon_id]>
                     (<["input_longitude" := input_longitude]>
                        (<["input_latitude" := input_latitude]> result)))
      row_results.

(** The reduction of one batch (lines 326-339), tasks taken in submission
    order: the records of a finished task are appended to [results], the
    row of a failed task to [failed_rows]. *)
Definition reduce_batch (batch : list row) (acc : list row * list row)
    : list row * list row :=
  fold_left
    (fun (acc : list row * list row) r =>
       let '(results, failed_rows) := acc in
       match worker r with
       | Ok out => (results ++ attach out, failed_rows)
       | Raise _ => (results, failed_rows ++ [r])
       end)
    batch acc.

(** The records emitted for one point. *)
Definition emitted (r : row) : list row := fst (reduce_batch [r] ([], [])).

(** Lines 373-377. *)
Definition pids_raw (results_df : frame) : result frame :=
  write_pids_raw "panoid" id_columns results_df.
End Discovery.
End get_pids_from_df.

(** [GSVDownloader._filter_pids_date], lines 521-543. *)
Definition _filter_pids_date (pid_df : frame) (start_date end_date : option string)
    : result frame :=
  dated ← mapM (fun r : row => t ← to_datetime_ym (cell r "year") (cell r "month"); Ok (r, t)) pid_df;
  filter_dated dated start_date end_date.

(** The capture instant the filter compares, for a row the conversion
    accepts: midnight of the first day of the row's year and month. *)
Definition capture_instant (r : row) : option Z :=
  match cell r "year", cell r "month" with
  | PInt y, PInt m => Some (midnight_ms (y, m, 1))
  | _, _ => None
  end.

(** *** [_augment_metadata], lines 193-272: shards and resumption *)

Module augment_metadata.
Definition batch_size : Z := 1000.

Section Run.
(** [get_year_month(pid, proxies)]: the year and the month the metadata
    endpoint gives for a pano id, missing values when the status is not
    [OK]. *)
Variable get_year_month : pyval -> pyval * pyval.
(** [glob.glob(dir / '*.csv')]: the order in which the files of the shard
    directory are listed. *)
Variable glob : list frame -> list frame.

(** Lines 204-212: the shards are concatenated with [ignore_index=True];
    the labels of that frame, [0 .. len-1], are the completed indices, and
    the rows of [df] carrying one of them are left out. *)
Definition remaining (df : indexed) (checkpoints : list frame) : indexed :=
  let checkpoint_start_index := length checkpoints in
  if (0 <? checkpoint_start_index)%nat then
    let completed_rows := concat (glob checkpoints) in
    let completed_indices := map Z.of_nat (seq 0 (length completed_rows)) in
    List.filter (fun lr : Z * row => negb (bool_decide (fst lr ∈ completed_indices))) df
  else df.

(** [worker(row, proxies)], lines 238-241. *)
Definition worker (lr : Z * row) : Z * (pyval * pyval) :=
  (fst lr, get_year_month (cell (snd lr) "panoid")).

(** Lines 252-253: [batch_df.at[row_index, 'year'] = ...] and the same
    for ['month'], on the rows labelled [row_index]. *)
Definition set_at (batch_df : indexed) (fut : Z * (pyval * pyval)) : indexed :=
  map (fun lr : Z * row =>
         if decide (fst lr = fst fut)
         then (fst lr, <["month" := snd (snd fut)]> (<["year" := fst (snd fut)]> (snd lr)))
         else lr)
      batch_df.

(** One batch (lines 247-256), futures taken in submission order; the
    shard is written with [index=False]. *)
Definition augment_batch (batch_df : indexed) : frame :=
  map snd (fold_left set_at (map worker batch_df) batch_df).

(** The shards the loop of lines 246-256 writes, in order. *)
Definition new_shards (df : indexed) : list frame :=
  let num_batches := (Z.of_nat (length df) + batch_size - 1) / batch_size in
  map (fun i : Z => augment_batch (py_slice (i * batch_size) ((i + 1) * batch_size) df))
      (py_range 0 num_batches).

(** The pano ids a metadata request is issued for. *)
Definition requests (df : indexed) : list pyval :=
  map (fun lr : Z * row => cell (snd lr) "panoid") df.

(** A run interrupted after [n] of its batches: the shard directory it
    leaves behind. *)
Definition interrupted (n : nat) (df : indexed) (checkpoints : list frame) : list frame :=
  checkpoints ++ take n (new_shards (remaining df checkpoints)).

(** A row with its metadata. *)
Definition augmented (r : row) : row :=
  let ym := get_year_month (cell r "panoid") in
  <["month" := snd ym]> (<["year" := fst ym]> r).

(** The shard directories a restart can find for the table [rows]: a first
    run over the table under any index without repeated labels, then runs
    over the table as read back from [pids_raw.csv], each interrupted after
    some number of batches. *)
Inductive resumable (rows : frame) : list frame -> Prop :=
  | resumable_first (n : nat) (df : indexed) :
      map snd df = rows -> NoDup (map fst df) ->
      resumable rows (interrupted n df [])
  | resumable_again (n : nat) (checkpoints : list frame) :
      resumable rows checkpoints ->
      resumable rows (interrupted n (read_csv rows) checkpoints).
End Run.

(** What the writes of a batch do to one labelled row. *)
Definition set_row (lr : Z * row) (fut : Z * (pyval * pyval)) : Z * row :=
  if decide (fst lr = fst fut)
  then (fst lr, <["month" := snd (snd fut)]> (<["year" := fst (snd fut)]> (snd lr)))
  else lr.

(** The number of shards a run over [df] writes. *)
Definition shard_count (df : indexed) : nat :=
  Z.to_nat ((Z.of_nat (length df) + batch_size - 1) / batch_size).
End augment_metadata.

Section Augment.
Import augment_metadata.
Variable get_year_month : pyval -> pyval * pyval.
Variable glob : list frame -> list frame.

(** A run that reaches its end: the metadata requests it issues and the
    table it returns.  With [pids_augemented.csv] in the cache the table is
    read from it (lines 194-197); otherwise the rows left are augmented
    batch by batch and the table, written to [pids_augemented.csv], is the
    concatenation of all shards as listed (line 259). *)
Definition _augment_metadata (cache_pids_augmented : option frame)
    (df : indexed) (checkpoints : list frame) : list pyval * result frame :=
  match cache_pids_augmented with
  | Some cached => ([], Ok cached)
  | None =>
      let df := remaining glob df checkpoints in
      let shards := checkpoints ++ new_shards get_year_month df in
      (requests df,
       match glob shards with
       | [] => Raise (ValueError "No objects to concatenate")
       | listed => Ok (concat listed)
       end)
  end.
End Augment.

Section Download.
(** [_get_pids(path_pid, ...)]: the discovery stage, by its effect on the
    files. *)
Variable _get_pids : files -> string -> files.

(** [GSVDownloader.download_svi], lines 578-595. *)
Definition download_svi (fs : files) (dir_output : string) (path_pid : option string)
    (update_pids : bool) : pids_stage :=
  let cache_pids_augmented := joinpath dir_output "cache_zensvi/pids_augemented.csv" in
  if bool_decide (path_pid = None) && negb (path_exists fs cache_pids_augmented) then
    let path_pid := joinpath dir_output "gsv_pids.csv" in
    if path_exists fs path_pid && negb update_pids then
      {| st_files := fs; st_discovery := false; st_path_pid := Some path_pid |}
    else
      {| st_files := _get_pids fs path_pid; st_discovery := true; st_path_pid := Some path_pid |}
  else
    match fs !! cache_pids_augmented with
    | Some cached =>
        let path_pid := joinpath dir_output "gsv_pids.csv" in
        {| st_files := <[path_pid := cached]> fs; st_discovery := false;
           st_path_pid := Some path_pid |}
    | None => {| st_files := fs; st_discovery := false; st_path_pid := path_pid |}
    end.
End Download.

End GSVDownloader.

(** ** [MLYDownloader] *)

Module MLYDownloader.
Import Py Frame Dates BaseDownloader.

(** A GeoJSON feature as [to_dict()["features"]] lists them: the point
    geometry [(x, y)] and the properties dictionary. *)
Record feature : Type := {
  geometry : pyval * pyval;
  properties : row
}.

(** *** [_get_pids_from_df] *)

Module get_pids_from_df.
Section Discovery.
(** [mly.get_image_close_to(latitude=..., longitude=...)]: the features
    near a point, or the exception the task ends with. *)
Variable get_image_close_to : pyval -> pyval -> result (list feature).
Variable id_columns : list string.

Definition get_street_view_info (latitude longitude : pyval) : result (list feature) :=
  get_image_close_to latitude longitude.

Definition id_dict_of (r : row) : result row :=
  vs ← mapM (getattr r) id_columns; Ok (list_to_map (zip id_columns vs)).

(** [worker(row, **kwargs)], lines 699-704: the pair is
    [(input_latitude, input_longitude)]. *)
Definition worker (r : row)
    : result (pyval * (pyval * pyval) * list feature * row) :=
  input_latitude ← getattr r "latitude";
  input_longitude ← getattr r "longitude";
  lat_lon_id ← getattr r "lat_lon_id";
  id_dict ← id_dict_of r;
  row_results ← get_street_view_info input_latitude input_longitude;
  Ok (lat_lon_id, (input_latitude, input_longitude), row_results, id_dict).

(** Lines 724-730: the pair of the finished task is unpacked as
    [(input_longitude, input_latitude)]. *)
Definition attach (out : pyval * (pyval * pyval) * list feature * row) : list feature :=
  let '(lat_lon_id, (input_longitude, input_latitude), row_results, id_dict) := out in
  map (fun result : feature =>
         {| geometry := geometry result;
            properties :=
              id_dict ∪ <["lat_lon_id" := lat_lon_id]>
                          (<["input_longitude" := input_longitude]>
                             (<["input_latitude" := input_latitude]> (properties result))) |})
      row_results.

Definition reduce_batch (batch : list row) (acc : list feature * list row)
    : list feature * list row :=
  fold_left
    (fun (acc : list feature * list row) r =>
       let '(results, failed_rows) := acc in
       match worker r with
       | Ok out => (results ++ attach out, failed_rows)
       | Raise _ => (results, failed_rows ++ [r])
       end)
    batch acc.

(** Lines 738-742: [GeoDataFrame.from_features], the [lon] and [lat]
    columns read off the geometry, the geometry column dropped. *)
Definition from_features (results : list feature) : frame :=
  map (fun f => <["lat" := snd (geometry f)]>
                  (<["lon" := fst (geometry f)]> (delete "geometry" (properties f))))
      results.

(** The rows of the checkpoint shard written for one point. *)
Definition emitted (r : row) : frame := from_features (fst (reduce_batch [r] ([], []))).

(** Lines 785-788. *)
Definition pids_raw (results_df : frame) : result frame :=
  write_pids_raw "id" id_columns results_df.
End Discovery.
End get_pids_from_df.

(** [MLYDownloader._filter_pids_date], lines 909-929. *)
Definition _filter_pids_date (pid_df : frame) (start_date end_date : option string)
    : result frame :=
  dated ← mapM (fun r : row => t ← to_datetime_ms (cell r "captured_at"); Ok (r, t)) pid_df;
  filter_dated dated start_date end_date.

(** The capture instant the filter compares, for a row the conversion
    accepts: [captured_at], in milliseconds. *)
Definition capture_instant (r : row) : option Z :=
  match cell r "captured_at" with
  | PInt n => Some n
  | _ => None
  end.

(** *** [_download_images_mly], lines 1033-1094: the completion index and
    the batches *)

Module download_images_mly.
(** [name.rfind('.')] *)
Fixpoint rfind_dot (s : list ascii) : option nat :=
  match s with
  | [] => None
  | c :: s' =>
      match rfind_dot s' with
      | Some i => Some (S i)
      | None => if decide (c = "."%char) then Some 0%nat else None
      end
  end.

(** [Path(name).stem]: the name without its last suffix. *)
Definition stem (name : string) : string :=
  let cs := list_ascii_of_string name in
  match rfind_dot cs with
  | Some i =>
      if ((0 <? i) && (i <? length cs - 1))%nat
      then string_of_list_ascii (take i cs) else name
  | None => name
  end.

Fixpoint ends_with (suffix s : list ascii) : bool :=
  bool_decide (s = suffix) ||
  match s with
  | [] => false
  | _ :: s' => ends_with suffix s'
  end.

(** The names [glob('**/*.png', recursive=True)] matches: a [.png] suffix
    and no leading dot. *)
Definition is_png (name : string) : bool :=
  let cs := list_ascii_of_string name in
  ends_with (list_ascii_of_string ".png") cs
  && negb (bool_decide (head cs = Some "."%char)).

(** Line 1037: [set([Path(file_path).stem for file_path in checkpoints])],
    a set of strings. *)
Definition downloaded_ids (tree : out_tree) : list string :=
  map stem (List.filter is_png (file_names tree)).

(** Lines 1034-1049: the rows left to fetch. *)
Definition work_set (tree : out_tree) (pid_df urls_df : frame)
    (start_date end_date : option string) : result frame :=
  let downloaded_ids := downloaded_ids tree in
  pid_df ← astype_int64 (dropna_id pid_df);
  urls_df ← astype_int64 urls_df;
  let urls_df := merge_left urls_df pid_df in
  urls_df ← _filter_pids_date urls_df start_date end_date;
  Ok (List.filter (fun r : row => negb (isin (cell r "id") downloaded_ids)) urls_df).

(** [max(existing_batch_numbers, default=0)] *)
Definition start_batch_number (tree : out_tree) : Z :=
  match map fst tree with
  | [] => 0
  | n :: ns => fold_left Z.max ns n
  end.

(** Lines 1076-1089: for every [i] of the loop, the number of the
    directory [batch_{i+1}] it creates and the rows it submits to the
    workers, [urls_df.iloc[i*batch_size : (i+1)*batch_size]]. *)
Definition batches (tree : out_tree) (urls_df : frame) (batch_size : Z)
    : result (list (Z * frame)) :=
  if batch_size =? 0 then Raise ZeroDivisionError else
  let num_batches := (Z.of_nat (length urls_df) + batch_size - 1) / batch_size in
  let start_batch_number := start_batch_number tree in
  Ok (map (fun i : Z => (i + 1, py_slice (i * batch_size) ((i + 1) * batch_size) urls_df))
          (py_range start_batch_number num_batches)).

(** The pano ids a run requests. *)
Definition fetched_ids (plan : list (Z * frame)) : list pyval :=
  flat_map (fun b : Z * frame => map (fun r : row => cell r "id") (snd b)) plan.
End download_images_mly.

(** [_download_images_mly]: the batch directories and the rows fetched
    into each; every row submitted is one request to the image URL. *)
Definition _download_images_mly (tree : out_tree) (pid_df urls_df : frame)
    (batch_size : Z) (start_date end_date : option string) : result (list (Z * frame)) :=
  urls_df ← download_images_mly.work_set tree pid_df urls_df start_date end_date;
  download_images_mly.batches tree urls_df batch_size.

Section Download.
(** [_get_pids(path_pid, ...)]: the discovery stage, by its effect on the
    files. *)
Variable _get_pids : files -> string -> files.

(** [MLYDownloader.download_svi], lines 1100-1120. *)
Definition download_svi (fs : files) (dir_output : string) (path_pid : option string)
    (update_pids : bool) : pids_stage :=
  match path_pid with
  | None =>
      let path_pid := joinpath dir_output "mly_pids.csv" in
      if path_exists fs path_pid && negb update_pids then
        {| st_files := fs; st_discovery := false; st_path_pid := Some path_pid |}
      else
        {| st_files := _get_pids fs path_pid; st_discovery := true; st_path_pid := Some path_pid |}
  | Some path_pid =>
      if path_exists fs path_pid then
        {| st_files := fs; st_discovery := false; st_path_pid := Some path_pid |}
      else
        {| st_files := _get_pids fs path_pid; st_discovery := true; st_path_pid := Some path_pid |}
  end.
End Download.

End MLYDownloader.

(** ** GeoJSON feature collections
    zensvi/download/mapillary/models/geojson.py *)

Module GeoJSON.
Import Py.

Section Model.
(** Coordinates are numbers compared with [==]; [NaN] is not among them. *)
Context {coord : Type} `{EqDecision coord}.

Record Coordinates : Type := { longitude : coord; latitude : coord }.

Record Geometry : Type := { geometry_type : string; coordinates : Coordinates }.

Record Feature : Type := {
  type : string;
  geometry : Geometry;
  properties : gmap string pyval
}.

(** The dictionary a feature is built from:
    [{"geometry": {"type": t, "coordinates": [...]}, "properties": {...}}]. *)
Record feature_dict : Type := {
  fd_geometry_type : string;
  fd_coordinates : list coord;
  fd_properties : gmap string pyval
}.

(** [Properties.__init__], lines 66-68: [setattr(self, key, item[key])] for
    every key of the dictionary.  With a number, a string or [None] for
    value an instance refuses three names: [__class__] and [__dict__] with
    a [TypeError], [__weakref__] with an [AttributeError].  Python raises
    at the first such key of the dictionary; a finite map has no order of
    keys, and for a dictionary with refused names of both kinds the
    [TypeError] is reported. *)
Definition Properties_init (properties : gmap string pyval) : result (gmap string pyval) :=
  if bool_decide (is_Some (properties !! "__class__"))
  then Raise (TypeError "__class__ must be set to a class")
  else if bool_decide (is_Some (properties !! "__dict__"))
  then Raise (TypeError "__dict__ must be set to a dictionary")
  else if bool_decide (is_Some (properties !! "__weakref__"))
  then Raise (AttributeError "__weakref__")
  else Ok properties.

(** [Feature.__init__], lines 253-279, with [Geometry.__init__] and
    [Coordinates.__init__]: the geometry is built first, then the
    properties. *)
Definition Feature_init (feature : feature_dict) : result Feature :=
  match fd_coordinates feature with
  | lon :: lat :: _ =>
      properties ← Properties_init (fd_properties feature);
      Ok {| type := "Feature";
            geometry := {| geometry_type := fd_geometry_type feature;
                           coordinates := {| longitude := lon; latitude := lat |} |};
            properties := properties |}
  | _ => Raise IndexError
  end.

(** [self.properties.captured_at] *)
Definition captured_at (f : Feature) : result pyval :=
  match properties f !! "captured_at" with
  | Some v => Ok v
  | None => Raise (AttributeError "captured_at")
  end.

(** [Feature.__hash__], lines 302-313: the tuple that is hashed. *)
Definition hash_key (f : Feature) : result (string * (coord * coord) * pyval) :=
  c ← captured_at f;
  Ok (type f, (latitude (coordinates (geometry f)), longitude (coordinates (geometry f))), c).

(** [Feature.__eq__], lines 315-328; [and] evaluates its right operand
    only when the left one holds. *)
Definition Feature_eq (self other : Feature) : result bool :=
  if bool_decide (type self = type other)
     && bool_decide ((latitude (coordinates (geometry self)),
                      longitude (coordinates (geometry self)))
                     = (latitude (coordinates (geometry other)),
                        longitude (coordinates (geometry other))))
  then a ← captured_at self; b ← captured_at other; Ok (bool_decide (a = b))
  else Ok false.

(** A GeoJSON object: the list of features and the set kept beside it
    for lookup.  The set holds its members by their hashed tuple. *)
Record GeoJSON : Type := {
  gj_type : string;
  features : list Feature;
  features_set : list (string * (coord * coord) * pyval)
}.

(** [GeoJSON.__init__], lines 378-433. *)
Definition GeoJSON_init (gj_type : string) (feature_dicts : list feature_dict) : result GeoJSON :=
  fs ← mapM Feature_init feature_dicts;
  keys ← mapM hash_key fs;
  Ok {| gj_type := gj_type; features := fs; features_set := keys |}.

(** [GeoJSON.append_feature], lines 455-474. *)
Definition append_feature (g : GeoJSON) (feature_inputs : feature_dict) : result GeoJSON :=
  feature ← Feature_init feature_inputs;
  k ← hash_key feature;
  if negb (bool_decide (k ∈ features_set g)) then
    Ok {| gj_type := gj_type g;
          features := features g ++ [feature];
          features_set := k :: features_set g |}
  else Ok g.

(** The objects the class produces: built by the constructor, extended
    by [append_feature]. *)
Inductive reachable : GeoJSON -> Prop :=
  | reachable_init t fds g : GeoJSON_init t fds = Ok g -> reachable g
  | reachable_append g fd g' : reachable g -> append_feature g fd = Ok g' -> reachable g'.

(** No two positions of the list hold equal features. *)
Definition no_duplicates (fs : list Feature) : Prop :=
  forall i j f1 f2,
    fs !! i = Some f1 -> fs !! j = Some f2 -> Feature_eq f1 f2 = Ok true -> i = j.

(** Some feature of the list equals [f]. *)
Definition has_equal (fs : list Feature) (f : Feature) : Prop :=
  exists f', f' ∈ fs /\ Feature_eq f' f = Ok true.
(** The set mirrors the list: its members are the hashed tuples of the
    listed features, and every listed feature has one. *)
Definition mirrors (g : GeoJSON) : Prop :=
  (forall k, k ∈ features_set g <-> exists f, f ∈ features g /\ hash_key f = Ok k)
  /\ (forall f, f ∈ features g -> exists k, hash_key f = Ok k).
End Model.

End GeoJSON.

(** ** Sample inputs *)

Module Samples.
Import Py Frame GeoJSON.

(** A frame of three records found from two points: the pano [a] is
    reported twice for the same site. *)
Definition sample_results : frame :=
  [ <["lat_lon_id" := PInt 1]> (<["site" := PStr "s1"]> {["panoid" := PStr "a"]});
    <["lat_lon_id" := PInt 1]> (<["site" := PStr "s1"]> {["panoid" := PStr "b"]});
    <["lat_lon_id" := PInt 2]> (<["site" := PStr "s1"]> {["panoid" := PStr "a"]}) ].

(** A point at latitude 1, longitude 103, the one feature Mapillary finds
    near it and the one record GSV finds near it. *)
Definition sample_point : row :=
  <["lat_lon_id" := PInt 1]> (<["longitude" := PInt 103]> {["latitude" := PInt 1]}).

Definition sample_feature : MLYDownloader.feature :=
  {| MLYDownloader.geometry := (PInt 103, PInt 1); MLYDownloader.properties := {["id" := PInt 77]} |}.

Definition sample_record : row := {["panoid" := PStr "p77"]}.

(** Three Mapillary panos: captured at midnight of 2020-01-01, in the
    morning of 2020-12-31, and with no capture time. *)
Definition sample_mly_pids : frame :=
  [ <["captured_at" := PInt 1577836800000]> {["id" := PInt 1]};
    <["captured_at" := PInt 1609400000000]> {["id" := PInt 2]};
    {["id" := PInt 3]} ].

(** Two panos and their resolved URLs. *)
Definition sample_pid_df : frame :=
  [ <["captured_at" := PInt 1600000000000]> {["id" := PInt 1]};
    <["captured_at" := PInt 1600000000001]> {["id" := PInt 2]} ].

Definition sample_urls_df : frame :=
  [ <["url" := PStr "https://img/1"]> {["id" := PInt 1]};
    <["url" := PStr "https://img/2"]> {["id" := PInt 2]} ].

(** A table of 1001 panos; the metadata endpoint answers 2020-05 for each;
    the shard directory lists its files last written first. *)
Definition sample_panos : frame :=
  map (fun i : nat => {["panoid" := PInt (Z.of_nat i)]}) (seq 0 1001).

Definition sample_metadata (pid : pyval) : pyval * pyval := (PInt 2020, PInt 5).

(** Two panos, [a] outside and [b] inside the input polygons. *)
Definition sample_pano_a : row := {["panoid" := PStr "a"]}.

Definition sample_pano_b : row := {["panoid" := PStr "b"]}.

(** A point feature dictionary with integer coordinates. *)
Definition sample_fd (lon lat captured : Z) : @feature_dict Z :=
  {| fd_geometry_type := "Point"; fd_coordinates := [lon; lat];
     fd_properties := {["captured_at" := PInt captured]} |}.

Definition sample_Feature (lon lat captured : Z) : @Feature Z :=
  {| type := "Feature";
     geometry := {| geometry_type := "Point";
                    coordinates := {| longitude := lon; latitude := lat |} |};
     properties := {["captured_at" := PInt captured]} |}.

(** The object built from one feature, and the same after a second
    feature is appended. *)
Definition sample_geojson : @GeoJSON Z :=
  {| gj_type := "FeatureCollection";
     features := [sample_Feature 103 1 5];
     features_set := [("Feature", (1, 103), PInt 5)] |}.

Definition sample_geojson' : @GeoJSON Z :=
  {| gj_type := "FeatureCollection";
     features := [sample_Feature 103 1 5; sample_Feature 104 2 6];
     features_set := [("Feature", (2, 104), PInt 6); ("Feature", (1, 103), PInt 5)] |}.

End Samples.

(** ** Series *)

Module Series.
Import Py.

(** [series.unique().tolist()]: the values in the order of their first
    occurrence. *)
Fixpoint unique_from (seen : list pyval) (values : list pyval) : list pyval :=
  match values with
  | [] => []
  | v :: values' =>
      if bool_decide (v ∈ seen) then unique_from seen values'
      else v :: unique_from (v :: seen) values'
  end.

Definition unique (values : list pyval) : list pyval := unique_from [] values.

End Series.

(** ** [StreetViewDownloader]
    streetscope/download/streetview_downloader.py *)

Module StreetViewDownloader.
Import Py Frame BaseDownloader Series.

(** [_read_pids], lines 77-81, on the first column of the pid file. *)
Definition _read_pids (first_column : list pyval) : list pyval := unique first_column.

(** [_check_already], lines 83-91; [listdir] is [os.listdir(self.dir_output)]. *)
Definition _check_already (listdir : list string) (all_panoids : list pyval) : list pyval :=
  let name_r := map split_dot_0 listdir in
  List.filter (fun pid : pyval => negb (isin pid name_r)) all_panoids.

Section Batches.
Context {A : Type}.

(** The loop of [_get_nthreads_pid], lines 96-101, from position [i] on. *)
Fixpoint nthreads_loop (nthreads i : Z) (panoids : list A)
    (all_pid : list (list A)) (panos : list A) : result (list (list A)) :=
  match panoids with
  | [] => Ok all_pid
  | p :: rest =>
      if nthreads =? 0 then Raise ZeroDivisionError
      else if negb (i mod nthreads =? 0) || (i =? 0)
      then nthreads_loop nthreads (i + 1) rest all_pid (panos ++ [p])
      else nthreads_loop nthreads (i + 1) rest (all_pid ++ [panos]) []
  end.

(** [_get_nthreads_pid], lines 93-102. *)
Definition _get_nthreads_pid (nthreads : Z) (panoids : list A) : result (list (list A)) :=
  nthreads_loop nthreads 0 panoids [] [].

(** The loop of [download_gsv], lines 219-237: [calls] are the lists handed
    to [tool.dwl_multiple], one per call, whether the call ends or raises.
    [random.sample(self.user_agent, self.nthreads)], outside the [try],
    raises when asked for more user agents than there are. *)
Fixpoint task_loop (user_agent : list string) (nthreads i : Z) (panoids_rest : list A)
    (calls : list (list A)) (task_pids : list A) : result (list (list A)) :=
  match panoids_rest with
  | [] => Ok calls
  | p :: rest =>
      if nthreads =? 0 then Raise ZeroDivisionError
      else if negb (i mod nthreads =? 0) || (i =? 0)
      then task_loop user_agent nthreads (i + 1) rest calls (task_pids ++ [p])
      else if (nthreads <? 0) || (Z.of_nat (length user_agent) <? nthreads)
      then Raise (ValueError "Sample larger than population or is negative")
      else task_loop user_agent nthreads (i + 1) rest (calls ++ [task_pids]) []
  end.
End Batches.

(** An entry of the output directory: a file, or a folder with the names
    of its files. *)
Inductive entry : Type :=
  | File (name : string)
  | Dir (name : string) (content : list string).

Definition entry_name (e : entry) : string :=
  match e with
  | File name => name
  | Dir name _ => name
  end.

(** [os.listdir(path)]: the names directly under the directory. *)
Definition listdir (dir : list entry) : list string := map entry_name dir.

(** [download_gsv], lines 215-237, for a downloader that has its pid file
    and the user agents [user_agent]: the lists of pano ids handed to
    [tool.dwl_multiple], which saves under [dir_output/panorama]. *)
Definition download_gsv (user_agent : list string) (nthreads : Z) (dir_output : list entry)
    (first_column : list pyval) : result (list (list pyval)) :=
  let panoids := _read_pids first_column in
  let panoids_rest := _check_already (listdir dir_output) panoids in
  task_loop user_agent nthreads 0 panoids_rest [] [].

(** [_augment_metadata], lines 109-137: a metadata request per row, the
    answers written with [df.at[row_index, ...]], futures taken in
    submission order; the frame is returned with its index. *)
Definition _augment_metadata (get_year_month : pyval -> pyval * pyval) (df : indexed) : indexed :=
  fold_left GSVDownloader.augment_metadata.set_at
    (map (GSVDownloader.augment_metadata.worker get_year_month) df) df.

End StreetViewDownloader.

(** ** Exceptions beyond [exn] *)

Module PyMore.
Import Py.

(** The exceptions of [exn], and the built-in ones raised by the code
    modelled below. *)
Inductive error : Type :=
  | Exn (e : exn)
  | UnboundLocalError (name : string)
  | FileNotFoundError (path : string).

(** A [TypeError] as an [error]. *)
Abbreviation TypeError msg := (Exn (Py.TypeError msg)).

#[global] Instance error_eq_dec : EqDecision error.
Proof. solve_decision. Defined.

Inductive outcome (A : Type) : Type :=
  | Done (a : A)
  | Fail (e : error).
Arguments Done {A} a.
Arguments Fail {A} e.

#[global] Instance outcome_ret : MRet outcome := @Done.
#[global] Instance outcome_bind : MBind outcome :=
  fun A B k r => match r with Done a => k a | Fail e => Fail e end.

Definition lift {A} (r : result A) : outcome A :=
  match r with
  | Ok a => Done a
  | Raise e => Fail (Exn e)
  end.

End PyMore.

(** ** GeoJSON: dictionaries and lists of features
    zensvi/download/mapillary/models/geojson.py *)

Module GeoJSONDict.
Import Py PyMore GeoJSON.

Section Dicts.
Context {coord : Type} `{EqDecision coord}.

(** The property names [setattr] refuses on an instance, and the
    dictionaries of properties without such a name. *)
Definition refused : list string := ["__class__"; "__dict__"; "__weakref__"].

Definition settable (properties : gmap string pyval) : Prop :=
  forall key, key ∈ refused -> properties !! key = None.

(** The feature dictionaries the constructor of [Feature] takes: two
    coordinates at least, properties that can be set. *)
Definition buildable (fd : @feature_dict coord) : Prop :=
  (2 <= length (fd_coordinates fd))%nat /\ settable (fd_properties fd).

(** [Coordinates.to_list], lines 153-156. *)
Definition Coordinates_to_list (c : @Coordinates coord) : list coord :=
  [longitude c; latitude c].

(** [key.startswith("__")] *)
Definition startswith_dunder (key : string) : bool :=
  match key with
  | String "_" (String "_" _) => true
  | _ => false
  end.

(** [Properties.to_dict], lines 72-77: the attributes of the object whose
    name does not start with [__] and is not [to_dict]. *)
Definition Properties_to_dict (properties : gmap string pyval) : gmap string pyval :=
  filter (fun kv : string * pyval => startswith_dunder kv.1 = false /\ kv.1 <> "to_dict")
    properties.

(** [Feature.to_dict], lines 281-288, with [Geometry.to_dict]: the type
    and the dictionary of geometry and properties.  A property named
    [to_dict] hides the method, and the call of line 287 calls the
    property's value. *)
Definition Feature_to_dict (f : @Feature coord) : outcome (string * @feature_dict coord) :=
  if bool_decide (is_Some (properties f !! "to_dict"))
  then Fail (TypeError "object is not callable")
  else Done (type f,
             {| fd_geometry_type := geometry_type (geometry f);
                fd_coordinates := Coordinates_to_list (coordinates (geometry f));
                fd_properties := Properties_to_dict (properties f) |}).

(** [GeoJSON.to_dict], lines 488-494. *)
Definition GeoJSON_to_dict (g : @GeoJSON coord)
    : outcome (string * list (string * @feature_dict coord)) :=
  fs ← mapM Feature_to_dict (features g); Done (gj_type g, fs).

(** [GeoJSON(geojson)] on the dictionary [to_dict] gives: the constructor
    reads its [type] and, of every feature, [geometry] and [properties]. *)
Definition GeoJSON_of_dict (d : string * list (string * @feature_dict coord))
    : result (@GeoJSON coord) :=
  GeoJSON_init (fst d) (map snd (snd d)).

(** [GeoJSON.append_features], lines 435-453: the object after the loop,
    and the exception that ended it, if any. *)
Fixpoint append_features (g : @GeoJSON coord) (features : list (@feature_dict coord))
    : @GeoJSON coord * option exn :=
  match features with
  | [] => (g, None)
  | feature :: rest =>
      match append_feature g feature with
      | Ok g' => append_features g' rest
      | Raise e => (g, Some e)
      end
  end.
End Dicts.

End GeoJSONDict.

(** ** [BaseDownloader._log_write] and the image fetch of [GSVDownloader]
    zensvi/download/streetview_downloader.py *)

Module GSVFetch.
Import Py PyMore Frame Dates BaseDownloader Series.

(** The line feed. *)
Definition newline : string := String (ascii_of_nat 10) EmptyString.

(** What [_log_write] is called with: a list of pano ids, or one pano id. *)
Inductive log_arg : Type :=
  | PidList (pids : list pyval)
  | Pid (pid : pyval).

(** [for pid in pids: fw.write(pid + '\n')] on the content of the log
    file; [pid + '\n'] is defined for strings only. *)
Fixpoint write_lines (pids : list pyval) (log : string) : string * option error :=
  match pids with
  | [] => (log, None)
  | PStr s :: rest => write_lines rest (log ++ s ++ newline)%string
  | _ :: _ => (log, Some (TypeError "unsupported operand type(s) for +"))
  end.

(** The items of [for pid in pids] when [pids] is one string: its
    characters. *)
Definition characters (s : string) : list pyval :=
  map (fun c : ascii => PStr (String c EmptyString)) (list_ascii_of_string s).

(** [BaseDownloader._log_write], lines 107-112: the content of the log file
    after the call and the exception raised, if any. *)
Definition _log_write (log_path : option string) (log : string) (pids : log_arg)
    : string * option error :=
  match log_path with
  | None => (log, None)
  | Some _ =>
      match pids with
      | PidList pids => write_lines pids log
      | Pid (PStr s) => write_lines (characters s) log
      | Pid _ => (log, Some (TypeError "object is not iterable"))
      end
  end.

(** The instants between two optional bounds, both included; a missing
    instant is between no bounds, except when there is none. *)
Definition within (lo hi : option Z) (t : option Z) : bool :=
  match lo with Some l => ge_bound t l | None => true end
  && match hi with Some h => le_bound t h | None => true end.

(** A string without a dot. *)
Definition dot_free (s : string) : Prop := "."%char ∉ list_ascii_of_string s.

(** [BaseDownloader._read_pids], lines 125-131, with the date filter of
    GSV; [columns] is the header of the pid file, whose first column is
    read after the filter has dropped [date]. *)
Definition _read_pids (columns : list string) (pid_df : frame)
    (start_date end_date : option string) : result (list pyval) :=
  pid_df ← GSVDownloader._filter_pids_date pid_df start_date end_date;
  match List.filter (fun c : string => negb (bool_decide (c = "date"))) columns with
  | [] => Raise IndexError
  | c :: _ => Ok (unique (map (fun r : row => cell r c) pid_df))
  end.

(** The end of a run: the pano ids handed to [ImageTool.dwl_multiple]
    (none when it is not called) and whether the cache directory was
    removed. *)
Record fetch : Type := {
  requested : list pyval;
  cache_deleted : bool
}.

(** [GSVDownloader.download_svi], lines 607-624; [random.choices] needs a
    user agent to choose from. *)
Definition fetch_images (user_agents : list string) (tree : out_tree) (columns : list string)
    (pid_df : frame) (start_date end_date : option string) : result fetch :=
  panoids ← _read_pids columns pid_df start_date end_date;
  if bool_decide (panoids = []) then Ok {| requested := []; cache_deleted := false |}
  else
    let panoids_rest := _check_already tree panoids in
    if bool_decide (panoids_rest = []) then Ok {| requested := []; cache_deleted := true |}
    else if bool_decide (user_agents = []) then Raise IndexError
    else Ok {| requested := panoids_rest; cache_deleted := true |}.

(** The lines [_log_write] adds for a list of strings. *)
Definition lines (ids : list string) : string :=
  fold_right (fun s acc => (s ++ newline ++ acc)%string) EmptyString ids.

End GSVFetch.

(** ** Shard directories *)

Module Shards.
Import Py Frame.

(** A directory of shards: the number [N] of [checkpoint_batch_{N}.csv] to
    the rows of the file. *)
Abbreviation shard_dir := (gmap Z frame).

(** The contents of the files of the directory. *)
Definition files (dir : shard_dir) : list frame := map snd (map_to_list dir).

(** [len(checkpoints)], the number of files found when a run starts. *)
Definition checkpoint_start_index (dir : shard_dir) : Z := Z.of_nat (size dir).

(** [to_csv(f'{dir}/checkpoint_batch_{checkpoint_start_index+i+1}.csv')]
    in batch [i] of a run; a file of that name is replaced. *)
Definition write_shard (start i : Z) (results : frame) (dir : shard_dir) : shard_dir :=
  <[start + i + 1 := results]> dir.

(** The files are numbered [1 .. len]. *)
Definition contiguous (dir : shard_dir) : Prop :=
  forall n, is_Some (dir !! n) <-> 1 <= n <= Z.of_nat (size dir).

End Shards.

(** ** [MLYDownloader]: pano ids and image URLs
    zensvi/download/streetview_downloader.py *)

Module MLYUrls.
Import Py PyMore Frame BaseDownloader Series GSVFetch Shards.

(** [MLYDownloader._read_pids], lines 648-654. *)
Definition _read_pids (pid_df : frame) : result (list pyval) :=
  pid_df ← astype_int64 (dropna_id pid_df);
  Ok (unique (map (fun r : row => cell r "id") pid_df)).

Definition batch_size : Z := 1000.

Section Urls.
(** [mly.image_thumbnail(panoid, resolution)]: the URL, or the exception
    the task ends with. *)
Variable image_thumbnail : pyval -> result pyval.
(** [glob.glob(dir_cache_urls / '*.csv')]: the order in which the shard
    files are listed. *)
Variable glob : list frame -> list frame.
Variable log_path : option string.

(** Lines 984-991: the ids recorded in the shards. *)
Definition completed_panoids (dir : shard_dir) : list pyval :=
  flat_map (map (fun r : row => cell r "id")) (glob (files dir)).

(** Line 994, [list(panoids - completed_panoids)]; the difference is listed
    in the order of [panoids]. *)
Definition remaining (panoids : list pyval) (dir : shard_dir) : list pyval :=
  List.filter (fun p : pyval => negb (bool_decide (p ∈ completed_panoids dir))) panoids.

(** [worker(panoid, resolution)], lines 999-1001. *)
Definition worker (panoid : pyval) : result (pyval * pyval) :=
  url ← image_thumbnail panoid; Ok (panoid, url).

(** One batch (lines 1008-1019), futures taken in submission order: the
    rows of [results], or the exception that leaves the loop; a failed
    lookup is handed to [_log_write]. *)
Fixpoint url_batch (batch : list pyval) (results : frame) : outcome frame :=
  match batch with
  | [] => Done results
  | current_panoid :: rest =>
      match worker current_panoid with
      | Ok (panoid, url) => url_batch rest (results ++ [<["url" := url]> {["id" := panoid]}])
      | Raise _ =>
          match snd (_log_write log_path EmptyString (Pid current_panoid)) with
          | Some e => Fail e
          | None => url_batch rest results
          end
      end
  end.

(** The rows of the lookups of a batch that succeed. *)
Definition url_rows (batch : list pyval) : frame :=
  flat_map
    (fun p : pyval =>
       match image_thumbnail p with
       | Ok url => [<["url" := url]> {["id" := p]}]
       | Raise _ => []
       end)
    batch.

(** The loop of lines 1007-1023, from batch [i] on: the ids submitted and
    the shard directory; a shard is written for a batch with at least one
    URL. *)
Fixpoint url_batches (start i : Z) (batches : list (list pyval)) (dir : shard_dir)
    (submitted : list pyval) : list pyval * outcome shard_dir :=
  match batches with
  | [] => (submitted, Done dir)
  | batch :: rest =>
      match url_batch batch [] with
      | Done [] => url_batches start (i + 1) rest dir (submitted ++ batch)
      | Done results =>
          url_batches start (i + 1) rest (write_shard start i results dir) (submitted ++ batch)
      | Fail e => (submitted ++ batch, Fail e)
      end
  end.

(** [_get_urls_mly], lines 966-1030: the ids a URL is requested for, and
    the table written to [pids_urls.csv] ([None] when the function returns
    without writing it). *)
Definition _get_urls_mly (pids_url : option frame) (dir : shard_dir) (pid_df : frame)
    : list pyval * outcome (option frame) :=
  match pids_url with
  | Some _ => ([], Done None)
  | None =>
      match _read_pids pid_df with
      | Raise e => ([], Fail (Exn e))
      | Ok panoids =>
          if bool_decide (panoids = []) then ([], Done None)
          else
            let panoids := remaining panoids dir in
            if bool_decide (panoids = []) then ([], Done None)
            else
              let num_batches := (Z.of_nat (length panoids) + batch_size - 1) / batch_size in
              let batches :=
                map (fun i : Z => py_slice (i * batch_size) ((i + 1) * batch_size) panoids)
                    (py_range 0 num_batches) in
              let '(submitted, dir) :=
                url_batches (checkpoint_start_index dir) 0 batches dir [] in
              (submitted,
               dir ← dir;
               match glob (files dir) with
               | [] => Fail (Exn (ValueError "No objects to concatenate"))
               | listed => Done (Some (concat listed))
               end)
      end
  end.

(** [MLYDownloader.download_svi], lines 1126-1130, for a run whose pid
    file exists: the ids a URL is requested for, and the batches of the
    image fetch.  [_download_images_mly] reads the pid file, then
    [pids_urls.csv]. *)
Definition fetch_images (pids_url : option frame) (dir : shard_dir) (tree : out_tree)
    (pid_df : frame) (batch_size : Z) (start_date end_date : option string)
    : list pyval * outcome (list (Z * frame)) :=
  let '(requests, written) := _get_urls_mly pids_url dir pid_df in
  (requests,
   written ← written;
   match (match written with Some table => Some table | None => pids_url end) with
   | Some urls_df =>
       lift (MLYDownloader._download_images_mly tree pid_df urls_df batch_size
               start_date end_date)
   | None =>
       match astype_int64 (dropna_id pid_df) with
       | Ok _ => Fail (FileNotFoundError "pids_urls.csv")
       | Raise e => Fail (Exn e)
       end
   end).
End Urls.

End MLYUrls.

(** ** [GSVDownloader._get_pids_from_df]: a run of the discovery
    zensvi/download/streetview_downloader.py, lines 274-382 *)

Module GSVDiscovery.
Import Py PyMore Frame BaseDownloader Series Shards.

(** The order in which a merge sorts its keys: numbers by value, before
    strings in lexicographic order, before missing values. *)
Definition key_le (a b : pyval) : bool :=
  match a, b with
  | PInt x, PInt y => x <=? y
  | PInt _, _ => true
  | PStr _, PInt _ => false
  | PStr x, PStr y => String.leb x y
  | PStr _, PNone => true
  | PNone, PNone => true
  | PNone, _ => false
  end.

Fixpoint insert_sorted (r : row) (sorted : frame) : frame :=
  match sorted with
  | [] => [r]
  | r' :: rest =>
      if key_le (cell r "lat_lon_id") (cell r' "lat_lon_id") then r :: r' :: rest
      else r' :: insert_sorted r rest
  end.

(** The rows grouped by [lat_lon_id] in key order, rows of one key in
    their order. *)
Definition sort_lat_lon_id (df : frame) : frame := fold_right insert_sorted [] df.

(** Lines 296-299: [df.merge(completed_ids, on='lat_lon_id', how='outer',
    indicator=True)], of which the rows marked [left_only] are kept. *)
Definition left_only (df : frame) (completed_ids : list pyval) : frame :=
  List.filter (fun r : row => negb (bool_decide (cell r "lat_lon_id" ∈ completed_ids)))
    (sort_lat_lon_id df).

(** Line 314: [df['lat_lon_id'] = np.arange(1, len(df) + 1)]. *)
Definition assign_lat_lon_id (df : frame) : frame :=
  imap (fun (k : nat) (r : row) => <["lat_lon_id" := PInt (Z.of_nat k + 1)]> r) df.

Definition batch_size : Z := 1000.

(** What the function returns: the table written to [pids_raw.csv], or,
    at line 322, the series of the completed ids. *)
Inductive discovered : Type :=
  | PidsRaw (table : frame)
  | CompletedIds (ids : list pyval).

Section Run.
(** [panoids(lat, lon, proxies)] as it answers in the batch loop and as it
    answers when the failed rows are retried. *)
Variable panoids panoids_retry : pyval -> pyval -> result (list row).
Variable id_columns : list string.
(** [glob.glob(dir_cache_pids / '*.csv')]: the order in which the shard
    files are listed. *)
Variable glob : list frame -> list frame.

(** Lines 283-293: [completed_rows['lat_lon_id'].drop_duplicates()], on
    shards that have the column [lat_lon_id], as those the loop writes. *)
Definition completed_ids (dir : shard_dir) : list pyval :=
  unique (map (fun r : row => cell r "lat_lon_id") (concat (glob (files dir)))).

(** The loop of lines 325-344, from batch [i] on: the shard directory and
    the failed rows.  [results] is emptied after every batch; a shard is
    written for a batch with at least one record. *)
Fixpoint batch_loop (start i : Z) (batches : list (list row)) (dir : shard_dir)
    (failed_rows : list row) : shard_dir * list row :=
  match batches with
  | [] => (dir, failed_rows)
  | batch :: rest =>
      let '(results, failed_rows) :=
        GSVDownloader.get_pids_from_df.reduce_batch panoids id_columns batch ([], failed_rows) in
      batch_loop start (i + 1) rest
        (match results with
         | [] => dir
         | _ => write_shard start i results dir
         end)
        failed_rows
  end.

(** Lines 325-382, for a table [df] that has points: the batch loop over
    [df], the concatenation of the shards, the retry of the failed rows and
    the table written to [pids_raw.csv].  The result lists the rows
    submitted to the workers in the batch loop, the rows retried, and what
    is returned or raised. *)
Definition discover (df : frame) (dir : shard_dir) : list row * list row * outcome discovered :=
  let num_batches := (Z.of_nat (length df) + batch_size - 1) / batch_size in
  let batches :=
    map (fun i : Z => py_slice (i * batch_size) ((i + 1) * batch_size) df)
        (py_range 0 num_batches) in
  let '(dir, failed_rows) := batch_loop (checkpoint_start_index dir) 0 batches dir [] in
  match glob (files dir) with
  | [] => (df, [], Fail (Exn (ValueError "No objects to concatenate")))
  | listed =>
      let results_df := concat listed in
      let results :=
        fst (GSVDownloader.get_pids_from_df.reduce_batch panoids_retry id_columns
               failed_rows ([], [])) in
      let results_df := results_df ++ results in
      (df, failed_rows,
       table ← lift (GSVDownloader.get_pids_from_df.pids_raw id_columns results_df);
       Done (PidsRaw table))
  end.

(** Lines 282-314: the points left to process.  On a directory that holds
    shards the completed ids are subtracted; a table without the column
    [lat_lon_id] gets it. *)
Definition points (columns : list string) (df : frame) (dir : shard_dir) : frame :=
  let df := if 0 <? checkpoint_start_index dir then left_only df (completed_ids dir) else df in
  if bool_decide ("lat_lon_id" ∈ columns) then df else assign_lat_lon_id df.

(** [_get_pids_from_df(df, id_columns)] for a table with the header
    [columns], started on the shard directory [dir]. *)
Definition _get_pids_from_df (columns : list string) (df : frame) (dir : shard_dir)
    : list row * list row * outcome discovered :=
  let resumed := 0 <? checkpoint_start_index dir in
  if resumed && negb (bool_decide ("lat_lon_id" ∈ columns))
  then ([], [], Fail (Exn (KeyError "lat_lon_id")))
  else
    let df := points columns df dir in
    if bool_decide (df = []) then
      ([], [],
       if resumed then Done (CompletedIds (completed_ids dir))
       else Fail (UnboundLocalError "completed_ids"))
    else discover df dir.
End Run.

End GSVDiscovery.

(** ** [MLYDownloader._get_pids_from_df]: a run of the discovery
    zensvi/download/streetview_downloader.py, lines 668-793 *)

Module MLYDiscovery.
Import Py PyMore Frame BaseDownloader Series Shards.
Import MLYDownloader.

(** What the function returns: the table written to [pids_raw.csv], the
    series of the completed ids (line 716), or [None] (line 783). *)
Inductive discovered : Type :=
  | PidsRaw (table : frame)
  | CompletedIds (ids : list pyval)
  | NoPids.

Section Run.
(** [mly.get_image_close_to] as it answers in the batch loop and as it
    answers when the failed rows are retried. *)
Variable get_image_close_to get_image_close_to_retry : pyval -> pyval -> result (list feature).
Variable id_columns : list string.
Variable glob : list frame -> list frame.
(** The text [to_csv] writes for the geometry and for the properties
    dictionary of a feature. *)
Variable repr_geometry repr_properties : feature -> string.

(** Lines 776-778: the retry shard is written from [results], the list of
    feature dictionaries, and read back: one row per feature, with the
    columns [type], [geometry] and [properties]. *)
Definition raw_row (f : feature) : row :=
  <["properties" := PStr (repr_properties f)]>
    (<["geometry" := PStr (repr_geometry f)]> {["type" := PStr "Feature"]}).

(** The loop of lines 719-744, from batch [i] on. *)
Fixpoint batch_loop (start i : Z) (batches : list (list row)) (dir : shard_dir)
    (failed_rows : list row) : shard_dir * list row :=
  match batches with
  | [] => (dir, failed_rows)
  | batch :: rest =>
      let '(results, failed_rows) :=
        get_pids_from_df.reduce_batch get_image_close_to id_columns batch ([], failed_rows) in
      batch_loop start (i + 1) rest
        (match results with
         | [] => dir
         | _ => write_shard start i (get_pids_from_df.from_features results) dir
         end)
        failed_rows
  end.

(** Lines 719-793, for a table [df] that has points: the rows submitted in
    the batch loop, the rows retried, and what is returned or raised. *)
Definition discover (df : frame) (dir : shard_dir) : list row * list row * outcome discovered :=
  let num_batches :=
    (Z.of_nat (length df) + GSVDiscovery.batch_size - 1) / GSVDiscovery.batch_size in
  let batches :=
    map (fun i : Z =>
           py_slice (i * GSVDiscovery.batch_size) ((i + 1) * GSVDiscovery.batch_size) df)
        (py_range 0 num_batches) in
  let '(dir, failed_rows) := batch_loop (checkpoint_start_index dir) 0 batches dir [] in
  let results :=
    fst (get_pids_from_df.reduce_batch get_image_close_to_retry id_columns failed_rows ([], [])) in
  match glob (files dir) with
  | [] =>
      match failed_rows with
      | [] => (df, [], Done NoPids)
      | _ => (df, failed_rows, Fail (UnboundLocalError "results_df"))
      end
  | listed =>
      let results_df := concat listed ++ map raw_row results in
      (df, failed_rows,
       table ← lift (get_pids_from_df.pids_raw id_columns results_df);
       Done (PidsRaw table))
  end.

(** [_get_pids_from_df(df, id_columns)] for a table with the header
    [columns], started on the shard directory [dir]; lines 673-716 are
    those of the GSV function. *)
Definition _get_pids_from_df (columns : list string) (df : frame) (dir : shard_dir)
    : list row * list row * outcome discovered :=
  let resumed := 0 <? checkpoint_start_index dir in
  if resumed && negb (bool_decide ("lat_lon_id" ∈ columns))
  then ([], [], Fail (Exn (KeyError "lat_lon_id")))
  else
    let df := GSVDiscovery.points glob columns df dir in
    if bool_decide (df = []) then
      ([], [],
       if resumed then Done (CompletedIds (GSVDiscovery.completed_ids glob dir))
       else Fail (UnboundLocalError "completed_ids"))
    else discover df dir.
End Run.

End MLYDiscovery.

(** ** More sample inputs *)

Module MoreSamples.
Import Py Frame BaseDownloader.

(** A GSV pid file of two panos taken in May 2020 and one in 2021. *)
Definition sample_gsv_pids : frame :=
  [ <["month" := PInt 5]> (<["year" := PInt 2020]> {["panoid" := PStr "a"]});
    <["month" := PInt 5]> (<["year" := PInt 2020]> {["panoid" := PStr "b"]});
    <["month" := PInt 1]> (<["year" := PInt 2021]> {["panoid" := PStr "c"]}) ].

(** An output tree in which the image of pano [a] is saved. *)
Definition sample_tree : out_tree := [(1, ["a.jpg"])].

(** Two points with their ids, and a shard directory whose one file
    records a pano found for the first. *)
Definition sample_points : frame :=
  [ <["lat_lon_id" := PInt 1]> (<["longitude" := PInt 103]> {["latitude" := PInt 1]});
    <["lat_lon_id" := PInt 2]> (<["longitude" := PInt 104]> {["latitude" := PInt 2]}) ].

Definition sample_shards : gmap Z frame :=
  {[ 1 := [ <["lat_lon_id" := PInt 1]> {["panoid" := PStr "p1"]} ] ]}.

(** The remote answers one pano for every point, or none. *)
Definition sample_panoids (lat lon : pyval) : result (list row) :=
  Ok [ {["panoid" := PStr "p77"]} ].

Definition sample_no_panoids (lat lon : pyval) : result (list row) := Ok [].

(** Mapillary answers one feature for every point, or is down. *)
Definition sample_close_to (lat lon : pyval) : result (list MLYDownloader.feature) :=
  Ok [ {| MLYDownloader.geometry := (PInt 103, PInt 1);
          MLYDownloader.properties := {["id" := PInt 77]} |} ].


End MoreSamples.

(** * Properties *)

(** ** Column names *)

Section ColumnFacts.
Import Columns.

Lemma lower_ascii_idem (c : ascii) : lower_ascii (lower_ascii c) = lower_ascii c.
Proof. destruct c as [[] [] [] [] [] [] [] []]; reflexivity. Qed.

Lemma lower_idem (s : string) : lower (lower s) = lower s.
Proof. induction s as [|c s IH]; simpl; [done|]. by rewrite lower_ascii_idem, IH. Qed.

Lemma canonical_idem (c : string) : canonical (canonical c) = canonical c.
Proof.
  unfold canonical.
  destruct (bool_decide (c ∈ longitude_variants)) eqn:Hlon; [reflexivity|].
  destruct (bool_decide (c ∈ latitude_variants)) eqn:Hlat; [reflexivity|].
  by rewrite Hlon, Hlat.
Qed.

Lemma canonical_lower (c : string) : lower c = c -> lower (canonical c) = canonical c.
Proof.
  intros Hc. unfold canonical.
  repeat case_bool_decide; try reflexivity. exact Hc.
Qed.

Lemma rename_step_rename (columns : list string) (col : string) :
  rename_step columns col = rename col (canonical col) columns.
Proof.
  unfold rename_step, canonical.
  repeat case_bool_decide; try reflexivity.
  unfold rename. induction columns as [|c cs IH]; simpl; [done|].
  rewrite <- IH. by case_decide; subst.
Qed.

Lemma fold_rename_chase (cols columns : list string) :
  fold_left rename_step cols columns = map (chase cols) columns.
Proof.
  revert columns. induction cols as [|col cols IH]; intros columns; simpl.
  - by rewrite map_id.
  - rewrite IH, rename_step_rename. unfold rename. rewrite map_map.
    apply map_ext. intros c. unfold chase. simpl. reflexivity.
Qed.

Lemma chase_spec (cols : list string) (c : string) :
  chase cols c = if decide (c ∈ cols) then canonical c else c.
Proof.
  revert c. induction cols as [|col cols IH]; intros c.
  - unfold chase. cbn [fold_left].
    destruct (decide (c ∈ [])) as [Hin|]; [by apply elem_of_nil in Hin|done].
  - unfold chase. cbn [fold_left].
    fold (chase cols (if decide (c = col) then canonical col else c)).
    rewrite IH. destruct (decide (c = col)) as [->|Hne].
    + rewrite canonical_idem.
      rewrite (decide_True (P := col ∈ col :: cols)) by left.
      by case_decide.
    + destruct (decide (c ∈ cols)) as [Hin|Hnin].
      * by rewrite (decide_True (P := c ∈ col :: cols)) by (by right).
      * rewrite (decide_False (P := c ∈ col :: cols)); [done|].
        intros [?|?]%elem_of_cons; done.
Qed.

Lemma standardize_elementwise (columns : list string) :
  standardize_column_names columns = map (fun c => canonical (lower c)) columns.
Proof.
  unfold standardize_column_names. rewrite fold_rename_chase, map_map.
  apply map_ext_in. intros c Hc. rewrite chase_spec.
  rewrite decide_True; [done|].
  apply list_elem_of_In, in_map, Hc.
Qed.

(** C9. [standardize_column_names] renames column by column: a column whose
    lower-cased name is one of longitude, long, lon, lng, x becomes
    [longitude], one whose lower-cased name is one of latitude, lat, lt, y
    becomes [latitude], any other keeps its lower-cased name.  The result
    depends on the names only up to case (LAT, lat, lt and y all become
    latitude), and standardising twice is standardising once.  Lower-casing
    is [str.lower]: it moves the capitals [A] to [Z] and U+00C0 to U+00DE
    (save the sign U+00D7) 32 places up and leaves every other character
    below 256 alone, as on the names [LoNg] and [ECOLE] with a capital E
    acute, and on the characters at the ends of the two ranges. *)
Theorem C9_standardize_column_names_idempotent_case_insensitive :
  forall columns : list string,
    standardize_column_names columns
    = map (fun c =>
             if decide (lower c ∈ ["longitude"; "long"; "lon"; "lng"; "x"]) then "longitude"
             else if decide (lower c ∈ ["latitude"; "lat"; "lt"; "y"]) then "latitude"
             else lower c) columns
    /\ standardize_column_names (standardize_column_names columns)
       = standardize_column_names columns
    /\ (forall columns' : list string,
          map lower columns' = map lower columns ->
          standardize_column_names columns' = standardize_column_names columns)
    /\ standardize_column_names ["LAT"; "lat"; "lt"; "y"]
       = ["latitude"; "latitude"; "latitude"; "latitude"]
    /\ standardize_column_names ["LoNg"; String "201" "COLE"; "Site ID"]
       = ["longitude"; String "233" "cole"; "site id"]
    /\ (forall c : ascii,
          let n := N_of_ascii c in
          N_of_ascii (lower_ascii c)
          = if ((65 <=? n) && (n <=? 90) || (192 <=? n) && (n <=? 214)
                || (216 <=? n) && (n <=? 222))%N
            then (n + 32)%N else n)
    /\ map (fun s => map N_of_ascii (list_ascii_of_string s))
          (standardize_column_names
             [string_of_list_ascii
                (map ascii_of_N [64; 65; 90; 91; 191; 192; 214; 215; 216; 222; 223; 255]%N)])
       = [[64; 97; 122; 91; 191; 224; 246; 215; 248; 254; 223; 255]%N].
Proof.
  intros columns. repeat split.
  - rewrite standardize_elementwise. apply map_ext. intros c.
    unfold canonical, longitude_variants, latitude_variants.
    repeat case_bool_decide; repeat case_decide; done.
  - rewrite !standardize_elementwise, map_map. apply map_ext. intros c.
    assert (Hl : lower (canonical (lower c)) = canonical (lower c))
      by apply canonical_lower, lower_idem.
    by rewrite Hl, canonical_idem.
  - intros columns' Heq. rewrite !standardize_elementwise.
    rewrite <- !(map_map lower canonical). by rewrite Heq.
  - intros c. destruct c as [[] [] [] [] [] [] [] []]; reflexivity.
Qed.
End ColumnFacts.

(** ** Deduplication of the raw pid table *)

Section DedupFacts.
Import Py Frame.

Lemma drop_duplicates_from_keys (subset : list string) (df : frame) :
  forall seen,
    NoDup (map (subset_key subset) (drop_duplicates_from seen subset df))
    /\ forall r, r ∈ drop_duplicates_from seen subset df -> subset_key subset r ∉ seen.
Proof.
  induction df as [|r df IH]; intros seen; simpl.
  - split; [constructor|]. intros r Hr. by apply elem_of_nil in Hr.
  - case_bool_decide as Hseen.
    + apply IH.
    + destruct (IH (subset_key subset r :: seen)) as [Hnd Hout]. split.
      * simpl. apply NoDup_cons. split; [|exact Hnd].
        intros (r' & Hk & Hr')%list_elem_of_fmap.
        apply Hout in Hr'. apply Hr'. rewrite Hk. left.
      * intros r' [->|Hr']%elem_of_cons; [done|].
        apply Hout in Hr'. intros Hin. apply Hr'. by right.
Qed.

Lemma drop_duplicates_from_sublist (subset : list string) (df : frame) :
  forall seen, drop_duplicates_from seen subset df `sublist_of` df.
Proof.
  induction df as [|r df IH]; intros seen; simpl; [done|].
  case_bool_decide; [by apply sublist_cons|by apply sublist_skip].
Qed.

Lemma drop_duplicates_from_first (subset : list string) (k : list pyval) (df : frame) :
  forall seen,
    first_with_key subset k (drop_duplicates_from seen subset df)
    = if decide (k ∈ seen) then None else first_with_key subset k df.
Proof.
  unfold first_with_key.
  induction df as [|r df IH]; intros seen; simpl.
  - by case_decide.
  - case_bool_decide as Hseen.
    + rewrite IH. case_decide as Hk; [done|].
      case_bool_decide as Hrk; [|done]. by subst.
    + simpl. case_bool_decide as Hrk.
      * subst. by rewrite decide_False.
      * rewrite IH. destruct (decide (k ∈ seen)) as [Hin|Hnin].
        -- rewrite decide_True; [done|by right].
        -- rewrite decide_False; [done|].
           intros [?|?]%elem_of_cons; [by subst|done].
Qed.
End DedupFacts.

Section PidsRawFacts.
Import Py Frame Samples.

Lemma write_pids_raw_spec (pk : string) (id_columns : list string) (results_df : frame) :
  "lat_lon_id" ∉ pk :: id_columns ->
  exists pids_raw,
    write_pids_raw pk id_columns results_df = Ok pids_raw
    /\ NoDup (map (subset_key (pk :: id_columns)) pids_raw)
    /\ pids_raw `sublist_of` drop_column "lat_lon_id" results_df
    /\ forall k, first_with_key (pk :: id_columns) k pids_raw
                 = first_with_key (pk :: id_columns) k (drop_column "lat_lon_id" results_df).
Proof.
  intros Hcol. unfold write_pids_raw. rewrite bool_decide_eq_false_2 by exact Hcol.
  eexists. split; [reflexivity|]. unfold drop_duplicates. repeat split.
  - apply drop_duplicates_from_keys.
  - apply drop_duplicates_from_sublist.
  - intros k. rewrite drop_duplicates_from_first. rewrite decide_False; [done|].
    intros Hin. by apply elem_of_nil in Hin.
Qed.

(** C1. When discovery finalises, the table written to [pids_raw.csv] (the
    concatenated shards without [lat_lon_id], deduplicated on the pano id
    and the user id columns) has no two rows with the same key, keeps the
    rows in their order, and for every key holds the first row of the
    concatenation with that key.  Both providers; the user id columns do
    not include [lat_lon_id], which the code drops before deduplicating. *)
Theorem C1_pids_raw_unique_keys_first_kept (id_columns : list string) (results_df : frame) :
  "lat_lon_id" ∉ id_columns ->
  let concatenated := drop_column "lat_lon_id" results_df in
  (exists pids_raw,
     GSVDownloader.get_pids_from_df.pids_raw id_columns results_df = Ok pids_raw
     /\ NoDup (map (subset_key ("panoid" :: id_columns)) pids_raw)
     /\ pids_raw `sublist_of` concatenated
     /\ forall k, first_with_key ("panoid" :: id_columns) k pids_raw
                  = first_with_key ("panoid" :: id_columns) k concatenated)
  /\ (exists pids_raw,
        MLYDownloader.get_pids_from_df.pids_raw id_columns results_df = Ok pids_raw
        /\ NoDup (map (subset_key ("id" :: id_columns)) pids_raw)
        /\ pids_raw `sublist_of` concatenated
        /\ forall k, first_with_key ("id" :: id_columns) k pids_raw
                     = first_with_key ("id" :: id_columns) k concatenated).
Proof.
  intros Hcol concatenated. split; apply write_pids_raw_spec.
  - intros [?|?]%elem_of_cons; [discriminate|done].
  - intros [?|?]%elem_of_cons; [discriminate|done].
Qed.

Lemma C1_pids_raw_witness :
  ("lat_lon_id" ∉ ["site"])
  /\ (exists pids_raw,
        GSVDownloader.get_pids_from_df.pids_raw ["site"] sample_results = Ok pids_raw
        /\ NoDup (map (subset_key ("panoid" :: ["site"])) pids_raw)
        /\ pids_raw `sublist_of` drop_column "lat_lon_id" sample_results
        /\ forall k, first_with_key ("panoid" :: ["site"]) k pids_raw
                     = first_with_key ("panoid" :: ["site"]) k
                         (drop_column "lat_lon_id" sample_results)).
Proof.
  assert (H : "lat_lon_id" ∉ ["site"]).
  { intros [?|?%elem_of_nil]%elem_of_cons; [discriminate|done]. }
  split; [exact H|].
  exact (proj1 (C1_pids_raw_unique_keys_first_kept ["site"] sample_results H)).
Defined.
End PidsRawFacts.

(** ** Back-references attached by discovery *)

Section DiscoveryFacts.
Import Py Frame Samples.

Lemma getattr_Ok (r : row) (name : string) (v : pyval) :
  getattr r name = Ok v -> r !! name = Some v.
Proof.
  unfold getattr. destruct (field_name name); [|discriminate].
  destruct (r !! name); [|discriminate]. by intros [= ->].
Qed.

Lemma mapM_getattr (r : row) (cols : list string) (vs : list pyval) :
  mapM (getattr r) cols = Ok vs ->
  forall c, (list_to_map (zip cols vs) : row) !! c = if decide (c ∈ cols) then r !! c else None.
Proof.
  revert vs. induction cols as [|col cols IH]; intros vs Hm c.
  - destruct (decide (c ∈ [])) as [H|_]; [by apply elem_of_nil in H|].
    injection Hm as <-. apply lookup_empty.
  - cbn [mapM] in Hm. unfold mbind, result_bind, bind in Hm.
    destruct (getattr r col) as [v|] eqn:Hv; [|discriminate]. apply getattr_Ok in Hv.
    destruct (mapM (getattr r) cols) as [vs'|] eqn:Hvs; [|discriminate].
    injection Hm as <-. cbn [zip zip_with list_to_map foldr uncurry fst snd].
    specialize (IH vs' eq_refl c).
    destruct (decide (c ∈ col :: cols)) as [Hin|Hnin].
    + destruct (decide (c = col)) as [->|Hne].
      * by rewrite lookup_insert_eq.
      * rewrite lookup_insert_ne by done. rewrite IH.
        apply elem_of_cons in Hin as [?|Hin]; [done|]. by rewrite decide_True.
    + rewrite lookup_insert_ne by (intros ->; apply Hnin; left).
      rewrite IH. rewrite decide_False; [done|]. intros ?. apply Hnin. by right.
Qed.

Lemma mapM_getattr_Some (r : row) (cols : list string) (vs : list pyval) :
  mapM (getattr r) cols = Ok vs -> forall c, c ∈ cols -> is_Some (r !! c).
Proof.
  revert vs. induction cols as [|col cols IH]; intros vs Hm c Hc.
  - by apply elem_of_nil in Hc.
  - cbn [mapM] in Hm. unfold mbind, result_bind, bind in Hm.
    destruct (getattr r col) as [v|] eqn:Hv; [|discriminate]. apply getattr_Ok in Hv.
    destruct (mapM (getattr r) cols) as [vs'|] eqn:Hvs; [|discriminate].
    apply elem_of_cons in Hc as [->|Hc]; [by rewrite Hv|]. by eapply IH.
Qed.

(** What a record holds once the back-references [a], [b], [c] and the
    id dictionary of the point are written into it. *)
Lemma attached_lookup (point res : row) (id_columns : list string) (vs : list pyval)
    (a b c : pyval) :
  mapM (getattr point) id_columns = Ok vs ->
  let rec : row :=
    list_to_map (zip id_columns vs)
    ∪ <["lat_lon_id" := a]> (<["input_longitude" := b]> (<["input_latitude" := c]> res)) in
  (forall col, col ∈ id_columns -> rec !! col = point !! col)
  /\ ("lat_lon_id" ∉ id_columns -> rec !! "lat_lon_id" = Some a)
  /\ ("input_longitude" ∉ id_columns -> rec !! "input_longitude" = Some b)
  /\ ("input_latitude" ∉ id_columns -> rec !! "input_latitude" = Some c).
Proof.
  intros Hvs rec. subst rec.
  pose proof (mapM_getattr point id_columns vs Hvs) as Hd.
  repeat split.
  - intros col Hcol.
    destruct (mapM_getattr_Some point id_columns vs Hvs col Hcol) as [v Hv].
    rewrite Hv. apply lookup_union_Some_l. by rewrite Hd, decide_True.
  - intros Hn. rewrite lookup_union_r by (by rewrite Hd, decide_False).
    by rewrite lookup_insert_eq.
  - intros Hn. rewrite lookup_union_r by (by rewrite Hd, decide_False).
    rewrite lookup_insert_ne by done. by rewrite lookup_insert_eq.
  - intros Hn. rewrite lookup_union_r by (by rewrite Hd, decide_False).
    rewrite lookup_insert_ne by done. rewrite lookup_insert_ne by done.
    by rewrite lookup_insert_eq.
Qed.

(** GSV attaches the point's own coordinates, id and user id columns. *)
Lemma gsv_emitted_back_references
    (panoids : pyval -> pyval -> result frame) (id_columns : list string)
    (point rec : row) :
  rec ∈ GSVDownloader.get_pids_from_df.emitted panoids id_columns point ->
  (forall c, c ∈ id_columns -> rec !! c = point !! c)
  /\ ("lat_lon_id" ∉ id_columns -> rec !! "lat_lon_id" = point !! "lat_lon_id")
  /\ ("input_longitude" ∉ id_columns -> rec !! "input_longitude" = point !! "longitude")
  /\ ("input_latitude" ∉ id_columns -> rec !! "input_latitude" = point !! "latitude").
Proof.
  unfold GSVDownloader.get_pids_from_df.emitted, GSVDownloader.get_pids_from_df.reduce_batch. simpl.
  unfold GSVDownloader.get_pids_from_df.worker, GSVDownloader.get_pids_from_df.id_dict_of, mbind, result_bind, bind.
  destruct (getattr point "longitude") as [lon|] eqn:Hlon; [|by intros ?%elem_of_nil].
  destruct (getattr point "latitude") as [lat|] eqn:Hlat; [|by intros ?%elem_of_nil].
  destruct (getattr point "lat_lon_id") as [pid|] eqn:Hid; [|by intros ?%elem_of_nil].
  apply getattr_Ok in Hlon, Hlat, Hid. rewrite Hlon, Hlat, Hid.
  destruct (mapM (getattr point) id_columns) as [vs|] eqn:Hvs; [|by intros ?%elem_of_nil].
  destruct (GSVDownloader.get_pids_from_df.get_street_view_info panoids lon lat) as [rs|]; [|by intros ?%elem_of_nil].
  simpl. intros (res & -> & _)%list_elem_of_fmap.
  apply (attached_lookup point res id_columns vs pid lon lat Hvs).
Qed.

(** Mapillary attaches the id and the user id columns, and the point's
    coordinates under each other's name. *)
Lemma mly_emitted_back_references
    (get_image_close_to : pyval -> pyval -> result (list MLYDownloader.feature))
    (id_columns : list string) (point rec : row) :
  rec ∈ MLYDownloader.get_pids_from_df.emitted get_image_close_to id_columns point ->
  (forall c, c ∈ id_columns -> c <> "lat" -> c <> "lon" -> c <> "geometry" ->
             rec !! c = point !! c)
  /\ ("lat_lon_id" ∉ id_columns -> rec !! "lat_lon_id" = point !! "lat_lon_id")
  /\ ("input_longitude" ∉ id_columns -> rec !! "input_longitude" = point !! "latitude")
  /\ ("input_latitude" ∉ id_columns -> rec !! "input_latitude" = point !! "longitude").
Proof.
  unfold MLYDownloader.get_pids_from_df.emitted, MLYDownloader.get_pids_from_df.reduce_batch, MLYDownloader.get_pids_from_df.from_features. simpl.
  unfold MLYDownloader.get_pids_from_df.worker, MLYDownloader.get_pids_from_df.id_dict_of, mbind, result_bind, bind.
  destruct (getattr point "latitude") as [lat|] eqn:Hlat; [|by intros ?%elem_of_nil].
  destruct (getattr point "longitude") as [lon|] eqn:Hlon; [|by intros ?%elem_of_nil].
  destruct (getattr point "lat_lon_id") as [pid|] eqn:Hid; [|by intros ?%elem_of_nil].
  apply getattr_Ok in Hlon, Hlat, Hid. rewrite Hlon, Hlat, Hid.
  destruct (mapM (getattr point) id_columns) as [vs|] eqn:Hvs; [|by intros ?%elem_of_nil].
  destruct (MLYDownloader.get_pids_from_df.get_street_view_info get_image_close_to lat lon) as [rs|];
    [|by intros ?%elem_of_nil].
  simpl. intros (f & -> & (res & -> & _)%list_elem_of_fmap)%list_elem_of_fmap. simpl.
  destruct (attached_lookup point (MLYDownloader.properties res) id_columns vs pid lat lon Hvs)
    as (Hcols & Hpid & Hlo & Hla).
  repeat split.
  - intros c Hc H1 H2 H3.
    rewrite lookup_insert_ne by done. rewrite lookup_insert_ne by done.
    rewrite lookup_delete_ne by done. by apply Hcols.
  - intros Hn. rewrite lookup_insert_ne by done. rewrite lookup_insert_ne by done.
    rewrite lookup_delete_ne by done. by apply Hpid.
  - intros Hn. rewrite lookup_insert_ne by done. rewrite lookup_insert_ne by done.
    rewrite lookup_delete_ne by done. by apply Hlo.
  - intros Hn. rewrite lookup_insert_ne by done. rewrite lookup_insert_ne by done.
    rewrite lookup_delete_ne by done. by apply Hla.
Qed.
(** C4, at the point of latitude 1 and longitude 103.  The Mapillary
    reduction unpacks the task's pair [(input_latitude, input_longitude)]
    as [(input_longitude, input_latitude)]: the record it emits carries
    [input_latitude = 103] and [input_longitude = 1].  The GSV reduction,
    which packs and unpacks in the same order, emits [input_latitude = 1]
    and [input_longitude = 103]; both attach the point's [lat_lon_id]. *)
Theorem C4_mly_emits_swapped_input_coordinates :
  (exists rec,
     MLYDownloader.get_pids_from_df.emitted (fun _ _ => Ok [sample_feature]) [] sample_point = [rec]
     /\ rec !! "input_latitude" = Some (PInt 103)
     /\ rec !! "input_longitude" = Some (PInt 1)
     /\ rec !! "lat_lon_id" = Some (PInt 1))
  /\ (exists rec,
        GSVDownloader.get_pids_from_df.emitted (fun _ _ => Ok [sample_record]) [] sample_point = [rec]
        /\ rec !! "input_latitude" = Some (PInt 1)
        /\ rec !! "input_longitude" = Some (PInt 103)
        /\ rec !! "lat_lon_id" = Some (PInt 1)).
Proof.
  split; eexists; (split; [reflexivity|]); repeat split; vm_compute; reflexivity.
Qed.
End DiscoveryFacts.

(** ** Dates *)

Section DateFacts.
Import Py Frame Dates.

Lemma digit_range (c : ascii) (a : Z) : digit c = Some a -> 0 <= a <= 9.
Proof.
  unfold digit. intros H.
  destruct ((48 <=? Z.of_N (N_of_ascii c)) && (Z.of_N (N_of_ascii c) <=? 57)) eqn:Hb;
    [|discriminate].
  injection H as <-. apply andb_true_iff in Hb as [H1 H2]. lia.
Qed.

Lemma two_digits_sound {A} lo1 hi1 lo2 hi2 (s : list ascii)
    (k : Z -> list ascii -> option A) (v : A) :
  two_digits lo1 hi1 lo2 hi2 s k = Some v ->
  exists x y a b rest,
    s = x :: y :: rest /\ digit x = Some a /\ digit y = Some b
    /\ lo1 <= a <= hi1 /\ lo2 <= b <= hi2 /\ k (10 * a + b) rest = Some v.
Proof.
  unfold two_digits. destruct s as [|x [|y rest]]; try discriminate.
  destruct (digit x) as [a|] eqn:Hx; [|discriminate].
  destruct (digit y) as [b|] eqn:Hy; [|discriminate].
  destruct ((lo1 <=? a) && (a <=? hi1) && (lo2 <=? b) && (b <=? hi2)) eqn:Hb; [|discriminate].
  intros Hk. exists x, y, a, b, rest.
  repeat (apply andb_true_iff in Hb as [Hb ?]). repeat split; try done; lia.
Qed.

Lemma one_digit_sound {A} (s : list ascii) (k : Z -> list ascii -> option A) (v : A) :
  one_digit s k = Some v ->
  exists x a rest, s = x :: rest /\ digit x = Some a /\ 1 <= a /\ k a rest = Some v.
Proof.
  unfold one_digit. destruct s as [|x rest]; try discriminate.
  destruct (digit x) as [a|] eqn:Hx; [|discriminate].
  destruct (1 <=? a) eqn:Hb; [|discriminate].
  intros Hk. exists x, a, rest. repeat split; try done; lia.
Qed.

Lemma orelse_Some {A} (x y : option A) (v : A) :
  orelse x y = Some v -> x = Some v \/ y = Some v.
Proof. destruct x; simpl; intros H; [left|right]; done. Qed.

Lemma match_m_sound {A} (s : list ascii) (k : Z -> list ascii -> option A) (v : A) :
  match_m s k = Some v ->
  exists ms m rest, s = ms ++ rest /\ one_or_two_digits ms m /\ k m rest = Some v.
Proof.
  unfold match_m.
  intros [H|[H|H]%orelse_Some]%orelse_Some.
  - apply two_digits_sound in H as (x & y & a & b & rest & -> & Hx & Hy & _ & _ & Hk).
    exists [x; y], (10 * a + b), rest. split; [done|]. split; [|done].
    right. by exists x, y, a, b.
  - apply two_digits_sound in H as (x & y & a & b & rest & -> & Hx & Hy & _ & _ & Hk).
    exists [x; y], (10 * a + b), rest. split; [done|]. split; [|done].
    right. by exists x, y, a, b.
  - apply one_digit_sound in H as (x & a & rest & -> & Hx & _ & Hk).
    exists [x], a, rest. split; [done|]. split; [|done]. left. by exists x.
Qed.

Lemma match_d_sound {A} (s : list ascii) (k : Z -> list ascii -> option A) (v : A) :
  match_d s k = Some v ->
  exists ds d rest,
    s = ds ++ rest
    /\ (one_or_two_digits ds d \/ exists x, ds = [" "%char; x] /\ digit x = Some d)
    /\ k d rest = Some v.
Proof.
  unfold match_d.
  intros [H|[H|[H|[H|H]%orelse_Some]%orelse_Some]%orelse_Some]%orelse_Some.
  1-3: apply two_digits_sound in H as (x & y & a & b & rest & -> & Hx & Hy & _ & _ & Hk);
       exists [x; y], (10 * a + b), rest; (split; [done|]); (split; [|done]);
       left; right; by exists x, y, a, b.
  - apply one_digit_sound in H as (x & a & rest & -> & Hx & _ & Hk).
    exists [x], a, rest. split; [done|]. split; [|done]. left. left. by exists x.
  - unfold match_lit in H. destruct s as [|c s]; [discriminate|].
    destruct (decide (c = " "%char)) as [->|]; [|discriminate].
    apply one_digit_sound in H as (x & a & rest & -> & Hx & _ & Hk).
    exists [" "%char; x], a, rest. split; [done|]. split; [|done]. right. by exists x.
Qed.

Lemma strptime_sound (s : string) (y m d : Z) :
  strptime s = Ok (y, m, d) -> lenient_ymd s y m d.
Proof.
  unfold strptime, regex_ymd, lenient_ymd.
  generalize (list_ascii_of_string s). intros l.
  destruct (match_Y _ _) as [[[[y' m'] d'] rest]|] eqn:Hre; [|discriminate].
  destruct rest; [|discriminate].
  destruct (valid_date y' m' d') eqn:Hv; [|discriminate].
  intros [= -> -> ->].
  unfold match_Y in Hre.
  destruct l as [|y1 [|y2 [|y3 [|y4 r]]]]; try discriminate.
  destruct (digit y1) as [a|] eqn:H1; [|discriminate].
  destruct (digit y2) as [b|] eqn:H2; [|discriminate].
  destruct (digit y3) as [c|] eqn:H3; [|discriminate].
  destruct (digit y4) as [e|] eqn:H4; [|discriminate].
  unfold match_lit at 1 in Hre. destruct r as [|c1 r]; [discriminate|].
  destruct (decide (c1 = "-"%char)) as [->|]; [|discriminate].
  apply match_m_sound in Hre as (ms & m0 & r1 & -> & Hms & Hre).
  unfold match_lit in Hre. destruct r1 as [|c2 r2]; [discriminate|].
  destruct (decide (c2 = "-"%char)) as [->|]; [|discriminate].
  apply match_d_sound in Hre as (ds & d0 & r3 & -> & Hds & Hre).
  injection Hre as <- <- <- ->.
  exists y1, y2, y3, y4, a, b, c, e, ms, ds.
  rewrite app_nil_r. repeat split; done.
Qed.

Local Arguments digit : simpl never.

Lemma digit_dash : digit "-" = None.
Proof. reflexivity. Qed.

Lemma digit_space : digit " " = None.
Proof. reflexivity. Qed.

Lemma match_m_complete {A} (ms tl : list ascii) (m : Z)
    (k : Z -> list ascii -> option A) :
  one_or_two_digits ms m -> 1 <= m <= 12 -> is_Some (k m ("-"%char :: tl)) ->
  match_m (ms ++ "-"%char :: tl) k = k m ("-"%char :: tl).
Proof.
  intros [(x & -> & Hx)|(x & y & a & b & -> & Hx & Hy & ->)] Hm [v Hv]; unfold match_m.
  - simpl. unfold two_digits, one_digit. rewrite ?Hx, ?digit_dash. simpl.
    destruct (1 <=? m) eqn:H1; [done|lia].
  - pose proof (digit_range _ _ Hx). pose proof (digit_range _ _ Hy).
    simpl. unfold two_digits, one_digit. rewrite Hx, Hy.
    destruct (decide (a = 1)) as [->|Ha].
    + replace ((1 <=? 1) && (1 <=? 1) && (0 <=? b) && (b <=? 2)) with true
        by (symmetry; repeat (apply andb_true_iff; split); lia).
      by rewrite Hv.
    + assert (a = 0) as -> by lia.
      replace ((1 <=? 0) && (0 <=? 1) && (0 <=? b) && (b <=? 2)) with false by done.
      replace ((0 <=? 0) && (0 <=? 0) && (1 <=? b) && (b <=? 9)) with true
        by (symmetry; repeat (apply andb_true_iff; split); lia).
      simpl. by rewrite Hv.
Qed.

Lemma match_d_complete {A} (ds : list ascii) (d : Z)
    (k : Z -> list ascii -> option A) :
  (one_or_two_digits ds d \/ exists x, ds = [" "%char; x] /\ digit x = Some d) ->
  1 <= d <= 31 -> is_Some (k d []) ->
  match_d ds k = k d [].
Proof.
  intros [[(x & -> & Hx)|(x & y & a & b & -> & Hx & Hy & ->)]|(x & -> & Hx)] Hd [v Hv];
    unfold match_d.
  - unfold two_digits, one_digit, match_lit. rewrite Hx. simpl.
    destruct (1 <=? d) eqn:H1; [by rewrite Hv|lia].
  - pose proof (digit_range _ _ Hx). pose proof (digit_range _ _ Hy).
    unfold two_digits, one_digit, match_lit. rewrite Hx, Hy.
    destruct (decide (a = 3)) as [->|Ha3].
    + replace ((3 <=? 3) && (3 <=? 3) && (0 <=? b) && (b <=? 1)) with true
        by (symmetry; repeat (apply andb_true_iff; split); lia).
      by rewrite Hv.
    + replace ((3 <=? a) && (a <=? 3) && (0 <=? b) && (b <=? 1)) with false
        by (symmetry; apply andb_false_iff; left; apply andb_false_iff; left;
            apply andb_false_iff; lia).
      simpl. destruct (decide (a = 0)) as [->|Ha0].
      * replace ((1 <=? 0) && (0 <=? 2) && (0 <=? b) && (b <=? 9)) with false by done.
        replace ((0 <=? 0) && (0 <=? 0) && (1 <=? b) && (b <=? 9)) with true
          by (symmetry; repeat (apply andb_true_iff; split); lia).
        simpl. by rewrite Hv.
      * replace ((1 <=? a) && (a <=? 2) && (0 <=? b) && (b <=? 9)) with true
          by (symmetry; repeat (apply andb_true_iff; split); lia).
        by rewrite Hv.
  - unfold two_digits, one_digit, match_lit. rewrite ?digit_space. simpl.
    rewrite ?Hx. destruct (1 <=? d) eqn:H1; [done|lia].
Qed.

Lemma valid_date_bounds (y m d : Z) :
  valid_date y m d = true -> 1 <= m <= 12 /\ 1 <= d <= 31.
Proof.
  unfold valid_date, days_in_month. intros H.
  repeat (apply andb_true_iff in H as [H ?]).
  repeat case_match; lia.
Qed.

Lemma strptime_complete (s : string) (y m d : Z) :
  lenient_ymd s y m d -> strptime s = Ok (y, m, d).
Proof.
  intros (y1 & y2 & y3 & y4 & a & b & c & e & ms & ds
          & Hs & H1 & H2 & H3 & H4 & -> & Hms & Hds & Hv).
  destruct (valid_date_bounds _ _ _ Hv) as [Hm Hd].
  unfold strptime, regex_ymd. rewrite Hs. simpl.
  rewrite H1, H2, H3, H4.
  rewrite match_m_complete with (m := m); try done.
  - simpl. rewrite (match_d_complete ds d); try done. by rewrite Hv.
  - simpl. rewrite (match_d_complete ds d); done.
Qed.

Lemma strptime_lenient (s : string) (y m d : Z) :
  strptime s = Ok (y, m, d) <-> lenient_ymd s y m d.
Proof. split; [apply strptime_sound|apply strptime_complete]. Qed.

End DateFacts.

Section DateFilterFacts.
Import Py Frame Dates Samples.

Lemma mapM_result_cons {A B} (f : A -> result B) (x : A) (l : list A) :
  mapM f (x :: l)
  = match f x with
    | Ok y => match mapM f l with
              | Ok k => Ok (y :: k)
              | Raise e => Raise e
              end
    | Raise e => Raise e
    end.
Proof. reflexivity. Qed.

Lemma mapM_dated_Ok (f : row -> result (option Z)) (g : row -> option Z) (df : frame) :
  (forall r, r ∈ df -> f r = Ok (g r)) ->
  mapM (fun r : row => t ← f r; Ok (r, t)) df = Ok (map (fun r => (r, g r)) df).
Proof.
  induction df as [|r df IH]; intros Hf; [done|].
  rewrite mapM_result_cons, IH by (intros r' Hr'; apply Hf; by right).
  unfold mbind, result_bind, bind. by rewrite (Hf r) by left.
Qed.

Lemma mapM_dated_Raise (f : row -> result (option Z)) (df : frame) (e : exn) :
  mapM (fun r : row => t ← f r; Ok (r, t)) df = Raise e ->
  exists r, r ∈ df /\ f r = Raise e.
Proof.
  induction df as [|r df IH]; [discriminate|].
  rewrite mapM_result_cons. unfold mbind at 1, result_bind, bind.
  destruct (f r) as [t|e'] eqn:Hr.
  - destruct (mapM _ df) as [l|e'] eqn:Hm; [discriminate|].
    intros [= ->]. destruct (IH eq_refl) as (r' & Hin & Hr').
    exists r'. split; [by right|done].
  - intros [= ->]. exists r. split; [left|done].
Qed.

Lemma to_datetime_ms_instant (r : row) (t : option Z) :
  to_datetime_ms (cell r "captured_at") = Ok t -> t = MLYDownloader.capture_instant r.
Proof.
  unfold to_datetime_ms, MLYDownloader.capture_instant.
  destruct (cell r "captured_at") as [n| |]; try discriminate.
  - destruct (in_ns_bounds n); [|discriminate]. by intros [= <-].
  - by intros [= <-].
Qed.

Lemma to_datetime_ym_instant (r : row) (t : option Z) :
  to_datetime_ym (cell r "year") (cell r "month") = Ok t -> t = GSVDownloader.capture_instant r.
Proof.
  unfold to_datetime_ym, GSVDownloader.capture_instant.
  destruct (cell r "year") as [y| |]; try discriminate.
  destruct (cell r "month") as [m| |]; try discriminate.
  destruct ((1000 <=? y) && (y <=? 9999) && (1 <=? m) && (m <=? 12)); [|discriminate].
  destruct (in_ns_bounds _); [|discriminate]. by intros [= <-].
Qed.


Lemma to_datetime_ym_ValueError (y m : pyval) (e : exn) :
  to_datetime_ym y m = Raise e -> is_ValueError e = true.
Proof.
  unfold to_datetime_ym. intros H.
  repeat case_match; try discriminate; by injection H as <-.
Qed.


Lemma parse_bound_Ok (which s : string) (d : Z * Z * Z) :
  strptime s = Ok d -> parse_bound which (Some s) = Ok (Some (midnight_ms d)).
Proof. unfold parse_bound. by intros ->. Qed.



Lemma filter_filter_andb {A} (p q : A -> bool) (l : list A) :
  List.filter q (List.filter p l) = List.filter (fun x => p x && q x) l.
Proof.
  induction l as [|x l IH]; [done|]. simpl.
  destruct (p x); simpl; [destruct (q x)|]; by rewrite IH.
Qed.

Lemma filter_map_pair {A B} (g : A -> B) (p : B -> bool) (l : list A) :
  List.filter (fun rt : A * B => p (snd rt)) (map (fun r => (r, g r)) l)
  = map (fun r => (r, g r)) (List.filter (fun r => p (g r)) l).
Proof.
  induction l as [|x l IH]; [done|]. simpl. destruct (p (g x)); simpl; by rewrite IH.
Qed.

(** With both bounds accepted, the common tail keeps the rows whose instant
    lies in the closed interval. *)
Lemma filter_dated_interval (g : row -> option Z) (df : frame)
    (start_date end_date : string) (ds de : Z * Z * Z) :
  strptime start_date = Ok ds -> strptime end_date = Ok de ->
  filter_dated (map (fun r => (r, g r)) df) (Some start_date) (Some end_date)
  = Ok (map (delete "date")
          (List.filter (fun r => in_closed_interval (midnight_ms ds) (midnight_ms de) (g r)) df)).
Proof.
  intros Hs He. unfold filter_dated.
  rewrite (parse_bound_Ok _ _ _ Hs), (parse_bound_Ok _ _ _ He).
  unfold mbind, result_bind, bind. f_equal.
  rewrite (filter_map_pair g (fun t => ge_bound t (midnight_ms ds))).
  rewrite (filter_map_pair g (fun t => le_bound t (midnight_ms de))).
  rewrite filter_filter_andb, map_map. reflexivity.
Qed.


(** The element-wise reading of a filtered table. *)
Lemma in_filtered (g : row -> option Z) (df : frame) (lo hi : Z) (r' : row) :
  r' ∈ map (delete "date") (List.filter (fun r => in_closed_interval lo hi (g r)) df)
  <-> exists r t, r ∈ df /\ r' = delete "date" r /\ g r = Some t /\ lo <= t <= hi.
Proof.
  rewrite list_elem_of_fmap. split.
  - intros (r & -> & Hr). apply list_elem_of_In, filter_In in Hr as [Hin Hb].
    apply list_elem_of_In in Hin.
    unfold in_closed_interval, ge_bound, le_bound in Hb.
    destruct (g r) as [t|] eqn:Hg; [|done].
    apply andb_true_iff in Hb as [H1 H2]. exists r, t. repeat split; try done; lia.
  - intros (r & t & Hin & -> & Hg & Ht). exists r. split; [done|].
    apply list_elem_of_In, filter_In. split; [by apply list_elem_of_In|].
    unfold in_closed_interval, ge_bound, le_bound. rewrite Hg.
    apply andb_true_iff. split; lia.
Qed.

Lemma mly_instant_Some (r : row) (t : Z) :
  MLYDownloader.capture_instant r = Some t <-> cell r "captured_at" = PInt t.
Proof.
  unfold MLYDownloader.capture_instant. destruct (cell r "captured_at"); split; intros H; by simplify_eq.
Qed.

Lemma gsv_instant_Some (r : row) (t : Z) :
  GSVDownloader.capture_instant r = Some t
  <-> exists y m, cell r "year" = PInt y /\ cell r "month" = PInt m /\ t = midnight_ms (y, m, 1).
Proof.
  unfold GSVDownloader.capture_instant. split.
  - destruct (cell r "year") as [y| |]; try discriminate.
    destruct (cell r "month") as [m| |]; try discriminate.
    intros [= <-]. by exists y, m.
  - intros (y & m & -> & -> & ->). reflexivity.
Qed.

(** What the filters keep.  With both dates given and accepted, each date
    filter returns the rows of the pid table, in their order, whose capture
    instant lies in the closed interval from midnight of [start_date] to
    midnight of [end_date]: a row captured exactly at the start bound is
    kept, a row captured after the end bound is dropped.  Mapillary
    compares [captured_at] in milliseconds since the epoch; GSV compares
    midnight of the first day of the row's year and month.  The table is
    one whose capture column converts to instants. *)
Lemma date_filter_keeps_interval_of_midnights
    (pid_df : frame) (start_date end_date : string) (ds de : Z * Z * Z) :
  strptime start_date = Ok ds -> strptime end_date = Ok de ->
  let lo := midnight_ms ds in
  let hi := midnight_ms de in
  ((forall r, r ∈ pid_df -> exists t, to_datetime_ms (cell r "captured_at") = Ok t) ->
   exists out,
     MLYDownloader._filter_pids_date pid_df (Some start_date) (Some end_date) = Ok out
     /\ out = map (delete "date")
                (List.filter (fun r => in_closed_interval lo hi (MLYDownloader.capture_instant r)) pid_df)
     /\ forall r', r' ∈ out
                   <-> exists r t, r ∈ pid_df /\ r' = delete "date" r
                                   /\ cell r "captured_at" = PInt t /\ lo <= t <= hi)
  /\ ((forall r, r ∈ pid_df ->
         exists t, to_datetime_ym (cell r "year") (cell r "month") = Ok t) ->
      exists out,
        GSVDownloader._filter_pids_date pid_df (Some start_date) (Some end_date) = Ok out
        /\ out = map (delete "date")
                   (List.filter (fun r => in_closed_interval lo hi (GSVDownloader.capture_instant r)) pid_df)
        /\ forall r', r' ∈ out
                      <-> exists r y m, r ∈ pid_df /\ r' = delete "date" r
                                        /\ cell r "year" = PInt y /\ cell r "month" = PInt m
                                        /\ lo <= midnight_ms (y, m, 1) <= hi).
Proof.
  intros Hs He lo hi. split; intros Hdf; eexists; (split; [|split; [reflexivity|]]).
  - unfold MLYDownloader._filter_pids_date.
    rewrite (mapM_dated_Ok _ MLYDownloader.capture_instant).
    + apply (filter_dated_interval MLYDownloader.capture_instant pid_df _ _ _ _ Hs He).
    + intros r Hr. destruct (Hdf r Hr) as [t Ht].
      by rewrite Ht, (to_datetime_ms_instant r t Ht).
  - intros r'. rewrite in_filtered. split.
    + intros (r & t & ? & ? & ?%mly_instant_Some & ?). by exists r, t.
    + intros (r & t & ? & ? & ?%mly_instant_Some & ?). by exists r, t.
  - unfold GSVDownloader._filter_pids_date.
    rewrite (mapM_dated_Ok _ GSVDownloader.capture_instant).
    + apply (filter_dated_interval GSVDownloader.capture_instant pid_df _ _ _ _ Hs He).
    + intros r Hr. destruct (Hdf r Hr) as [t Ht].
      by rewrite Ht, (to_datetime_ym_instant r t Ht).
  - intros r'. rewrite in_filtered. split.
    + intros (r & t & ? & ? & (y & m & ? & ? & ->)%gsv_instant_Some & ?). by exists r, y, m.
    + intros (r & y & m & ? & ? & Hy & Hm & ?). exists r, (midnight_ms (y, m, 1)).
      split; [done|]. split; [done|]. split; [|done].
      apply gsv_instant_Some. by exists y, m.
Qed.

Lemma date_filter_interval_sample :
  exists out,
    MLYDownloader._filter_pids_date sample_mly_pids (Some "2020-01-01") (Some "2020-12-31") = Ok out
    /\ out = map (delete "date")
               (List.filter
                  (fun r => in_closed_interval (midnight_ms (2020, 1, 1))
                              (midnight_ms (2020, 12, 31)) (MLYDownloader.capture_instant r))
                  sample_mly_pids)
    /\ forall r', r' ∈ out
                  <-> exists r t, r ∈ sample_mly_pids /\ r' = delete "date" r
                                  /\ cell r "captured_at" = PInt t
                                  /\ midnight_ms (2020, 1, 1) <= t <= midnight_ms (2020, 12, 31).
Proof.
  refine (proj1 (date_filter_keeps_interval_of_midnights sample_mly_pids
                   "2020-01-01" "2020-12-31" (2020, 1, 1) (2020, 12, 31)
                   eq_refl eq_refl) _).
  intros r Hr. unfold sample_mly_pids in Hr.
  repeat (apply elem_of_cons in Hr as [->|Hr]; [eexists; reflexivity|]).
  by apply elem_of_nil in Hr.
Qed.

(** C2, on the last day of the interval and on a table with an unknown
    date.  The end bound is the midnight that opens [end_date]: of two
    Mapillary panos, one captured at the start bound (2020-01-01 00:00 UTC)
    and one captured on the end day at 07:33 UTC, instant 1609399980000,
    the filter for 2020-01-01 to 2020-12-31 keeps the first and drops the
    second, whose capture date is the end date and whose instant is below
    1609459199999, the last millisecond of that day.  The GSV filter, given
    a table with a pano whose year and month are missing, raises a
    [ValueError]: with the two dates, and with no date at all. *)
Theorem C2_end_day_dropped_and_missing_date_raises :
  let first : row := <["captured_at" := PInt 1577836800000]> {["id" := PInt 1]} in
  let morning : row := <["captured_at" := PInt 1609399980000]> {["id" := PInt 2]} in
  let dated : row := <["month" := PInt 6]> (<["year" := PInt 2020]> {["panoid" := PStr "a"]}) in
  let unknown : row := <["month" := PNone]> (<["year" := PNone]> {["panoid" := PStr "b"]}) in
  midnight_ms (2020, 1, 1) = 1577836800000
  /\ midnight_ms (2020, 12, 31) = 1609372800000
  /\ midnight_ms (2021, 1, 1) = 1609459199999 + 1
  /\ MLYDownloader._filter_pids_date [first; morning] (Some "2020-01-01") (Some "2020-12-31")
     = Ok [first]
  /\ GSVDownloader._filter_pids_date [dated] (Some "2020-01-01") (Some "2020-12-31")
     = Ok [dated]
  /\ GSVDownloader._filter_pids_date [dated; unknown] (Some "2020-01-01") (Some "2020-12-31")
     = Raise (ValueError "time data does not match format")
  /\ GSVDownloader._filter_pids_date [dated; unknown] None None
     = Raise (ValueError "time data does not match format").
Proof. repeat split; vm_compute; reflexivity. Qed.


End DateFilterFacts.

(** ** Batches *)

Section BatchFacts.
Import Py Frame BaseDownloader MLYDownloader.download_images_mly.

Lemma py_slice_take_drop {A} (a b : Z) (l : list A) :
  0 <= a <= b ->
  py_slice a b l = take (Z.to_nat (b - a)) (drop (Z.to_nat a) l).
Proof.
  intros Hab. unfold py_slice.
  set (n := Z.of_nat (length l)).
  assert (Hn : 0 <= n) by (subst n; lia).
  rewrite (proj2 (Z.ltb_ge a 0)) by lia. rewrite (proj2 (Z.ltb_ge b 0)) by lia.
  destruct (decide (n <= a)) as [Hge|Hlt].
  - rewrite !drop_ge by (subst n; lia). by rewrite !take_nil.
  - rewrite (Z.min_l a n) by lia.
    destruct (decide (b <= n)) as [Hb|Hb].
    + by rewrite (Z.min_l b n) by lia.
    + rewrite (Z.min_r b n) by lia.
      rewrite !take_ge; [done| |]; rewrite length_drop; subst n; lia.
Qed.

(** The slices of consecutive loop indices, from index [s] on. *)
Lemma slices_as_chunks {A} (l : list A) (bs s n : Z) :
  0 < bs -> 0 <= s ->
  map (fun i : Z => py_slice (i * bs) ((i + 1) * bs) l) (py_range s n)
  = map (fun i : nat => take (Z.to_nat bs) (drop (i * Z.to_nat bs) l))
        (seq (Z.to_nat s) (Z.to_nat n)).
Proof.
  intros Hbs Hs. unfold py_range. rewrite map_map.
  assert (seq (Z.to_nat s) (Z.to_nat n) = Nat.add (Z.to_nat s) <$> seq 0 (Z.to_nat n)) as ->
    by (rewrite fmap_add_seq; f_equal; lia).
  rewrite <- list_fmap_compose.
  apply map_ext. intros k. simpl.
  rewrite py_slice_take_drop by nia.
  f_equal; [f_equal; nia|]. f_equal. nia.
Qed.

Lemma concat_chunks {A} (l : list A) (bs s k : nat) :
  concat (map (fun i : nat => take bs (drop (i * bs) l)) (seq s k))
  = take (k * bs) (drop (s * bs) l).
Proof.
  revert s. induction k as [|k IH]; intros s; [done|].
  cbn [seq map concat]. rewrite IH.
  replace (S k * bs)%nat with (bs + k * bs)%nat by lia.
  rewrite <- take_take_drop. f_equal. rewrite drop_drop. do 2 f_equal. lia.
Qed.

Lemma num_batches_cover (len bs : Z) :
  0 <= len -> 0 < bs -> len <= (len + bs - 1) / bs * bs.
Proof.
  intros Hlen Hbs.
  pose proof (Z.div_mod (len + bs - 1) bs ltac:(lia)).
  pose proof (Z.mod_pos_bound (len + bs - 1) bs Hbs). nia.
Qed.

(** The rows the loop of [_download_images_mly] hands to the workers:
    directories [batch_{s+1}], [batch_{s+2}], ... for [s] the highest
    existing batch number, and, all batches together, the work set without
    its first [s * batch_size] rows. *)
Lemma batches_spec (tree : out_tree) (urls_df : frame) (batch_size : Z) :
  0 < batch_size -> 0 <= start_batch_number tree ->
  exists plan,
    batches tree urls_df batch_size = Ok plan
    /\ map fst plan
       = map (fun k : nat => start_batch_number tree + 1 + Z.of_nat k)
           (seq 0 (Z.to_nat ((Z.of_nat (length urls_df) + batch_size - 1) / batch_size)))
    /\ concat (map snd plan)
       = drop (Z.to_nat (start_batch_number tree * batch_size)) urls_df.
Proof.
  intros Hbs Hs. unfold batches.
  rewrite (proj2 (Z.eqb_neq batch_size 0)) by lia.
  eexists. split; [reflexivity|]. split.
  - unfold py_range. rewrite !map_map. apply map_ext. intros k. simpl. lia.
  - rewrite map_map. simpl.
    rewrite (slices_as_chunks urls_df batch_size (start_batch_number tree)) by done.
    rewrite concat_chunks. rewrite take_ge.
    + f_equal. nia.
    + rewrite length_drop.
      pose proof (num_batches_cover (Z.of_nat (length urls_df)) batch_size ltac:(lia) Hbs).
      assert (0 <= (Z.of_nat (length urls_df) + batch_size - 1) / batch_size)
        by (apply Z.div_pos; lia).
      nia.
Qed.

(** On a tree without batch directories the batches are a partition of
    the work set. *)
Lemma batches_fresh_partition (urls_df : frame) (batch_size : Z) :
  0 < batch_size ->
  exists plan, batches [] urls_df batch_size = Ok plan /\ concat (map snd plan) = urls_df.
Proof.
  intros Hbs.
  destruct (batches_spec [] urls_df batch_size Hbs) as (plan & Hplan & _ & Hrows); [done|].
  exists plan. split; [done|]. by rewrite Hrows.
Qed.
End BatchFacts.

(** ** The completion index *)

Section CompletionFacts.
Import Py Frame Dates BaseDownloader MLYDownloader.download_images_mly Samples.

(** An integer id is never in a set of file stems. *)
Lemma isin_int (n : Z) (values : list string) : isin (PInt n) values = false.
Proof.
  unfold isin. apply bool_decide_eq_false.
  intros (s & Hs & _)%list_elem_of_fmap. discriminate.
Qed.

Lemma astype_int64_ids (df out : frame) :
  astype_int64 df = Ok out -> forall r, r ∈ out -> exists n, r !! "id" = Some (PInt n).
Proof.
  unfold astype_int64. revert out. induction df as [|r0 df IH]; intros out.
  - intros [= <-] r Hr. by apply elem_of_nil in Hr.
  - rewrite mapM_result_cons.
    destruct (cell r0 "id") as [n| |] eqn:Hid; try discriminate.
    destruct (mapM _ df) as [out'|] eqn:Hm; [|discriminate].
    intros [= <-] r [->|Hr]%elem_of_cons.
    + exists (int64 n). by rewrite lookup_insert_eq.
    + by eapply IH.
Qed.

Lemma merge_left_ids (urls_df pid_df : frame) :
  (forall r, r ∈ urls_df -> exists n, r !! "id" = Some (PInt n)) ->
  forall r, r ∈ merge_left urls_df pid_df -> exists n, r !! "id" = Some (PInt n).
Proof.
  intros Hu r Hr. unfold merge_left in Hr.
  apply list_elem_of_In, in_flat_map in Hr as (u & Hin & Hr).
  apply list_elem_of_In in Hin. destruct (Hu u Hin) as [n Hn].
  destruct (List.filter _ pid_df) as [|p ps].
  - apply list_elem_of_In, list_elem_of_singleton in Hr as ->. by exists n.
  - apply list_elem_of_In, list_elem_of_fmap in Hr as (p' & -> & _).
    exists n. by apply lookup_union_Some_l.
Qed.

Lemma filter_dated_rows (dated : list (row * option Z)) (start_date end_date : option string)
    (out : frame) :
  filter_dated dated start_date end_date = Ok out ->
  forall r', r' ∈ out -> exists r, r ∈ map fst dated /\ r' = delete "date" r.
Proof.
  unfold filter_dated, mbind, result_bind, bind.
  destruct (parse_bound "start_date" start_date) as [start|]; [|discriminate].
  destruct (parse_bound "end_date" end_date) as [end_|]; [|discriminate].
  intros [= <-] r' (rt & -> & Hrt)%list_elem_of_fmap.
  exists (fst rt). split; [|done]. apply list_elem_of_fmap. exists rt. split; [done|].
  destruct end_ as [e|]; [apply list_elem_of_In, filter_In in Hrt as [Hrt _];
                          apply list_elem_of_In in Hrt|];
    (destruct start as [s|]; [apply list_elem_of_In, filter_In in Hrt as [Hrt _];
                              apply list_elem_of_In in Hrt|]); done.
Qed.

Lemma mapM_dated_fst (f : row -> result (option Z)) (df : frame) (dated : list (row * option Z)) :
  mapM (fun r : row => t ← f r; Ok (r, t)) df = Ok dated -> map fst dated = df.
Proof.
  revert dated. induction df as [|r df IH]; intros dated.
  - by intros [= <-].
  - rewrite mapM_result_cons. unfold mbind at 1, result_bind, bind.
    destruct (f r) as [t|]; [|discriminate].
    destruct (mapM _ df) as [dated'|] eqn:Hm; [|discriminate].
    intros [= <-]. simpl. by rewrite (IH dated' eq_refl).
Qed.

Lemma filter_all {A} (p : A -> bool) (l : list A) :
  (forall x, x ∈ l -> p x = true) -> List.filter p l = l.
Proof.
  induction l as [|x l IH]; intros Hp; [done|]. simpl.
  rewrite (Hp x) by left. f_equal. apply IH. intros y Hy. apply Hp. by right.
Qed.

(** The Mapillary work set does not depend on the output tree: the ids of
    the table are integers, the stems of the files are strings, and line
    1049 subtracts nothing. *)
Lemma work_set_ignores_tree (tree tree' : out_tree) (pid_df urls_df : frame)
    (start_date end_date : option string) :
  work_set tree pid_df urls_df start_date end_date
  = work_set tree' pid_df urls_df start_date end_date.
Proof.
  unfold work_set, mbind, result_bind, bind.
  destruct (astype_int64 (dropna_id pid_df)) as [pids|]; [|done].
  destruct (astype_int64 urls_df) as [urls|] eqn:Hurls; [|done].
  destruct (MLYDownloader._filter_pids_date _ start_date end_date) as [filtered|] eqn:Hf; [|done].
  assert (Hids : forall r, r ∈ filtered -> exists n, cell r "id" = PInt n).
  { intros r' Hr'. unfold MLYDownloader._filter_pids_date, mbind at 1, result_bind, bind in Hf.
    destruct (mapM _ (merge_left urls pids)) as [dated|] eqn:Hm; [|discriminate].
    destruct (filter_dated_rows _ _ _ _ Hf r' Hr') as (r & Hr & ->).
    rewrite (mapM_dated_fst _ _ _ Hm) in Hr.
    destruct (merge_left_ids urls pids (astype_int64_ids _ _ Hurls) r Hr) as [n Hn].
    exists n. unfold cell. rewrite lookup_delete_ne by done. by rewrite Hn. }
  f_equal. rewrite !filter_all; [done| |]; intros r Hr;
    destruct (Hids r Hr) as [n ->]; by rewrite isin_int.
Qed.

(** [_check_already] does subtract the panos on disk: GSV pano ids are
    strings, as the file names are. *)
Lemma check_already_skips_present (tree : out_tree) (all_panoids : list pyval)
    (name : string) :
  name ∈ file_names tree -> PStr (split_dot_0 name) ∉ _check_already tree all_panoids.
Proof.
  intros Hname Hin. unfold _check_already in Hin.
  apply list_elem_of_In, filter_In in Hin as [_ Hb].
  apply negb_true_iff, bool_decide_eq_false in Hb. apply Hb.
  apply list_elem_of_fmap. exists (split_dot_0 name). split; [done|].
  apply list_elem_of_fmap. by exists name.
Qed.

(** C5, on a fully populated tree.  Both panos of the table have their
    file under [batch_1]; the scan puts the stems [1] and [2] in the set of
    downloaded ids, yet the work set still holds both rows, and a re-run
    with batch size 1 requests pano 2 again, into [batch_2]. *)
Theorem C5_mly_present_pano_requested_again :
  let tree : out_tree := [(1, ["1.png"; "2.png"])] in
  downloaded_ids tree = ["1"; "2"]
  /\ (exists work,
        work_set tree sample_pid_df sample_urls_df None None = Ok work
        /\ map (fun r : row => cell r "id") work = [PInt 1; PInt 2])
  /\ (exists plan,
        MLYDownloader._download_images_mly tree sample_pid_df sample_urls_df 1 None None = Ok plan
        /\ map fst plan = [2; 3]
        /\ fetched_ids plan = [PInt 2]).
Proof.
  repeat split.
  - eexists. split; [reflexivity|]. vm_compute. reflexivity.
  - eexists. split; [reflexivity|]. split; vm_compute; reflexivity.
Qed.

(** C7, on a resumed run.  The tree holds [batch_1], left empty by a
    failed fetch; the work set is the one pano 2 of the table.  The loop
    creates [batch_2] and slices the work set at rows 1000 to 2000: the
    batch is empty and the pano belongs to no batch. *)
Theorem C7_resumed_batches_skip_work :
  let tree : out_tree := [(1, [])] in
  let pid_df : frame := [ <["captured_at" := PInt 1600000000001]> {["id" := PInt 2]} ] in
  let urls_df : frame := [ <["url" := PStr "https://img/2"]> {["id" := PInt 2]} ] in
  (exists work,
     work_set tree pid_df urls_df None None = Ok work
     /\ map (fun r : row => cell r "id") work = [PInt 2])
  /\ MLYDownloader._download_images_mly tree pid_df urls_df 1000 None None = Ok [(2, [])].
Proof.
  split.
  - eexists. split; [reflexivity|]. vm_compute. reflexivity.
  - vm_compute. reflexivity.
Qed.
End CompletionFacts.


(** ** Resuming the metadata augmentation *)

Section AugmentFacts.
Import Py Frame BaseDownloader GSVDownloader.augment_metadata.

Variable get_year_month : pyval -> pyval * pyval.
Variable glob : list frame -> list frame.
Hypothesis glob_lists_all : forall shards, glob shards ≡ₚ shards.

Local Abbreviation augmented := (augmented get_year_month).
Local Abbreviation remaining := (remaining glob).
Local Abbreviation new_shards := (new_shards get_year_month).
Local Abbreviation interrupted := (interrupted get_year_month glob).

Lemma concat_Permutation {A} (l l' : list (list A)) :
  l ≡ₚ l' -> concat l ≡ₚ concat l'.
Proof.
  induction 1 as [|x l l' _ IH|x y l|l l' l'' _ IH1 _ IH2]; simpl.
  - done.
  - by rewrite IH.
  - rewrite !app_assoc. by rewrite (Permutation_app_comm x y).
  - by rewrite IH1.
Qed.

Lemma concat_Permutation_length {A} (l l' : list (list A)) :
  l ≡ₚ l' -> length (concat l) = length (concat l').
Proof. intros H. apply Permutation_length, concat_Permutation, H. Qed.

Lemma read_csv_snd (rows : frame) : map snd (read_csv rows) = rows.
Proof.
  unfold read_csv. apply snd_zip. by rewrite length_map, length_seq.
Qed.

Lemma filter_labels_from (K s : nat) (rows : frame) :
  List.filter
    (fun lr : Z * row => negb (bool_decide (fst lr ∈ map Z.of_nat (seq 0 K))))
    (zip (map Z.of_nat (seq s (length rows))) rows)
  = drop (K - s) (zip (map Z.of_nat (seq s (length rows))) rows).
Proof.
  revert s. induction rows as [|r rows IH]; intros s; simpl.
  - by rewrite drop_nil.
  - rewrite IH. case_bool_decide as Hin; simpl.
    + apply list_elem_of_fmap in Hin as (k & Hk & Hks).
      apply elem_of_seq in Hks. assert (s < K)%nat by lia.
      replace (K - s)%nat with (S (K - S s)) by lia. done.
    + assert (K <= s)%nat.
      { destruct (decide (K <= s)%nat); [done|]. exfalso. apply Hin.
        apply list_elem_of_fmap. exists s. split; [done|]. apply elem_of_seq. lia. }
      replace (K - s)%nat with 0%nat by lia. replace (K - S s)%nat with 0%nat by lia.
      done.
Qed.

(** On the table as read back from disk, the rows left out are the first
    [K], for [K] the number of rows in the shards. *)
Lemma remaining_read_csv (rows : frame) (checkpoints : list frame) :
  remaining (read_csv rows) checkpoints
  = drop (length (concat checkpoints)) (read_csv rows).
Proof.
  unfold GSVDownloader.augment_metadata.remaining. destruct checkpoints as [|c cs]; [done|].
  cbn [length Nat.ltb Nat.leb].
  rewrite (concat_Permutation_length _ _ (glob_lists_all (c :: cs))).
  unfold read_csv. rewrite filter_labels_from. by rewrite Nat.sub_0_r.
Qed.

Lemma fold_set_at (futs : list (Z * (pyval * pyval))) (batch_df : indexed) :
  fold_left (set_at) futs batch_df = map (fun lr => fold_left set_row futs lr) batch_df.
Proof.
  revert batch_df. induction futs as [|fut futs IH]; intros batch_df; simpl.
  - by rewrite map_id.
  - rewrite IH. unfold set_at. rewrite map_map. reflexivity.
Qed.

Lemma set_row_fst (lr : Z * row) (fut : Z * (pyval * pyval)) : fst (set_row lr fut) = fst lr.
Proof. unfold set_row. by case_decide. Qed.

Lemma fold_set_row_other (batch : indexed) (lr : Z * row) :
  (forall lr', lr' ∈ batch -> fst lr' <> fst lr) ->
  fold_left set_row (map (worker get_year_month) batch) lr = lr.
Proof.
  revert lr. induction batch as [|h batch IH]; intros lr Hne; [done|]. simpl.
  unfold set_row at 2. rewrite decide_False.
  - apply IH. intros lr' Hlr'. apply Hne. by right.
  - simpl. intros Heq. by apply (Hne h); [left|].
Qed.

Lemma fold_set_row_own (batch : indexed) (lr : Z * row) :
  NoDup (map fst batch) -> lr ∈ batch ->
  fold_left set_row (map (worker get_year_month) batch) lr = (fst lr, augmented (snd lr)).
Proof.
  induction batch as [|h batch IH]; intros Hnd Hin; [by apply elem_of_nil in Hin|].
  simpl in Hnd. apply NoDup_cons in Hnd as [Hh Hnd]. simpl.
  apply elem_of_cons in Hin as [->|Hin].
  - unfold set_row at 2. rewrite decide_True by done. simpl.
    apply fold_set_row_other. simpl. intros lr' Hlr' Heq. apply Hh.
    rewrite <- Heq. apply list_elem_of_fmap. by exists lr'.
  - unfold set_row at 2. rewrite decide_False; [by apply IH|].
    simpl. intros Heq. apply Hh. rewrite <- Heq. apply list_elem_of_fmap. by exists lr.
Qed.

(** A batch whose labels are all different is augmented row by row. *)
Lemma augment_batch_rows (batch : indexed) :
  NoDup (map fst batch) ->
  augment_batch get_year_month batch = map augmented (map snd batch).
Proof.
  intros Hnd. unfold augment_batch. rewrite fold_set_at, !map_map.
  apply map_ext_in. intros lr Hlr. apply list_elem_of_In in Hlr.
  by rewrite fold_set_row_own.
Qed.

Lemma NoDup_take_drop {A} (l : list A) (n m : nat) : NoDup l -> NoDup (take n (drop m l)).
Proof.
  intros Hnd. apply (sublist_NoDup (take n (drop m l)) l); [done|].
  etrans; [apply sublist_take|apply sublist_drop].
Qed.

Lemma new_shards_chunks (df : indexed) :
  NoDup (map fst df) ->
  new_shards df
  = map (fun i : nat => take 1000 (drop (i * 1000) (map augmented (map snd df))))
        (seq 0 (shard_count df)).
Proof.
  intros Hnd. unfold GSVDownloader.augment_metadata.new_shards.
  rewrite <- (map_map (fun i : Z => py_slice (i * batch_size) ((i + 1) * batch_size) df)
                (augment_batch get_year_month)).
  rewrite (slices_as_chunks df batch_size 0) by done.
  rewrite map_map. apply map_ext. intros i.
  change (Z.to_nat batch_size) with 1000%nat.
  rewrite augment_batch_rows.
  - by rewrite !fmap_take, !fmap_drop.
  - rewrite fmap_take, fmap_drop. by apply NoDup_take_drop.
Qed.

Lemma shards_prefix (n : nat) (df : indexed) :
  NoDup (map fst df) ->
  concat (take n (new_shards df))
  = map augmented (take (min n (shard_count df) * 1000) (map snd df)).
Proof.
  intros Hnd. rewrite new_shards_chunks by done.
  rewrite <- fmap_take, take_seq, concat_chunks, drop_0. by rewrite fmap_take.
Qed.

Lemma shards_all (df : indexed) :
  NoDup (map fst df) -> concat (new_shards df) = map augmented (map snd df).
Proof.
  intros Hnd. rewrite <- (take_ge (new_shards df) (shard_count df)).
  - rewrite shards_prefix by done. rewrite Nat.min_id, take_ge; [done|].
    rewrite length_map. unfold shard_count.
    pose proof (num_batches_cover (Z.of_nat (length df)) batch_size ltac:(lia) ltac:(done)).
    assert (0 <= (Z.of_nat (length df) + batch_size - 1) / batch_size)
      by (apply Z.div_pos; unfold batch_size; lia).
    unfold batch_size in *. lia.
  - rewrite new_shards_chunks by done. by rewrite length_map, length_seq.
Qed.

Lemma read_csv_NoDup (rows : frame) (k : nat) : NoDup (map fst (drop k (read_csv rows))).
Proof.
  rewrite fmap_drop.
  apply (sublist_NoDup _ (map fst (read_csv rows))); [|apply sublist_drop].
  unfold read_csv. rewrite fst_zip by (by rewrite length_map, length_seq).
  apply NoDup_fmap_2; [intros x y; apply Nat2Z.inj|apply NoDup_seq].
Qed.

Lemma prefix_by_length {A B} (f : A -> B) (l : list B) (rows : list A) (k : nat) :
  l = map f (take k rows) -> l = map f (take (length l) rows).
Proof.
  intros ->. rewrite length_map, length_take.
  destruct (decide (k <= length rows)%nat).
  - by rewrite Nat.min_l.
  - rewrite Nat.min_r by lia. by rewrite !take_ge by lia.
Qed.

Lemma resumable_some_prefix (rows : frame) (checkpoints : list frame) :
  resumable get_year_month glob rows checkpoints ->
  exists k, concat checkpoints = map augmented (take k rows).
Proof.
  induction 1 as [n df Hrows Hnd|n cp Hcp [k IH]].
  - unfold GSVDownloader.augment_metadata.interrupted, GSVDownloader.augment_metadata.remaining. simpl.
    eexists. rewrite shards_prefix, Hrows by done. reflexivity.
  - unfold GSVDownloader.augment_metadata.interrupted.
    rewrite remaining_read_csv, concat_app, shards_prefix by apply read_csv_NoDup.
    rewrite fmap_drop, read_csv_snd.
    apply prefix_by_length in IH.
    eexists. rewrite IH at 1. rewrite <- map_app. rewrite take_take_drop. reflexivity.
Qed.

(** The shards of a resumable directory hold, in order, the first rows of
    the table with their metadata. *)
Lemma resumable_prefix (rows : frame) (checkpoints : list frame) :
  resumable get_year_month glob rows checkpoints ->
  concat checkpoints = map augmented (take (length (concat checkpoints)) rows).
Proof. intros [k Hk]%resumable_some_prefix. by eapply prefix_by_length. Qed.

(** The augmentation resumes by position.  A restart that finds
    shards holding [K] rows in all leaves out the input rows labelled
    [0 .. K-1] and requests metadata for the others only.  When the shards
    were left by earlier interrupted runs over the same table, they record
    exactly those first [K] rows, with their metadata, and the table the
    restart finally writes holds every input row, augmented, exactly once
    (in the order the shard files are listed). *)
Lemma augmentation_resumes_by_position (rows : frame) (checkpoints : list frame) :
  checkpoints <> [] ->
  let K := length (concat checkpoints) in
  let run := GSVDownloader._augment_metadata get_year_month glob None (read_csv rows) checkpoints in
  fst run = map (fun r : row => cell r "panoid") (drop K rows)
  /\ (resumable get_year_month glob rows checkpoints ->
      concat checkpoints = map augmented (take K rows)
      /\ exists table, snd run = Ok table /\ table ≡ₚ map augmented rows).
Proof.
  intros Hne K run. subst run. unfold GSVDownloader._augment_metadata. cbn [fst snd].
  rewrite remaining_read_csv. fold K. split.
  - unfold requests. rewrite <- (read_csv_snd rows) at 2.
    by rewrite <- fmap_drop, map_map.
  - intros Hres. pose proof (resumable_prefix rows checkpoints Hres) as Hpre.
    split; [exact Hpre|].
    destruct (glob _) as [|shard listed] eqn:Hglob.
    + pose proof (glob_lists_all (checkpoints ++ new_shards (drop K (read_csv rows)))) as Hp.
      rewrite Hglob in Hp. apply Permutation_nil in Hp.
      by apply app_eq_nil in Hp as [? _].
    + eexists. split; [reflexivity|]. rewrite <- Hglob.
      rewrite (concat_Permutation _ _ (glob_lists_all _)).
      rewrite concat_app, shards_all by apply read_csv_NoDup.
      rewrite fmap_drop, read_csv_snd. rewrite Hpre at 1. fold K.
      by rewrite <- map_app, take_drop.
Qed.
End AugmentFacts.

Section AugmentWitness.
Import Py Frame BaseDownloader GSVDownloader.augment_metadata Samples.

Lemma rev_lists_all (shards : list frame) : rev shards ≡ₚ shards.
Proof. symmetry. apply Permutation_rev. Qed.

Lemma augmentation_resumes_sample :
  let checkpoints := interrupted sample_metadata (@rev frame) 1 (read_csv sample_panos) [] in
  let K := length (concat checkpoints) in
  let run := GSVDownloader._augment_metadata sample_metadata (@rev frame) None (read_csv sample_panos) checkpoints in
  fst run = map (fun r : row => cell r "panoid") (drop K sample_panos)
  /\ concat checkpoints = map (augmented sample_metadata) (take K sample_panos)
  /\ exists table, snd run = Ok table /\ table ≡ₚ map (augmented sample_metadata) sample_panos.
Proof.
  assert (Hne : interrupted sample_metadata (@rev frame) 1 (read_csv sample_panos) [] <> []).
  { intros H. apply (f_equal (@length frame)) in H. vm_compute in H. discriminate H. }
  destruct (augmentation_resumes_by_position sample_metadata (@rev frame) rev_lists_all
              sample_panos _ Hne) as [Hreq Hres].
  split; [exact Hreq|]. apply Hres.
  apply (resumable_first sample_metadata (@rev frame) sample_panos 1 (read_csv sample_panos)).
  - apply read_csv_snd.
  - apply (read_csv_NoDup sample_panos 0).
Qed.

(** C6, on a restart over another table than the one the shards were
    written from.  The first run augments the table of the one pano [b] (on
    the polygon path, [_get_pids_from_gdf] has filtered out [a], which lies
    outside the polygons; [b] keeps its label 1) and is interrupted once
    its shard is written.  The restart reads [pids_raw.csv] from the cache,
    which holds [a] and [b]: it leaves out [a], which no shard records,
    requests the metadata of [b], which the shard records, again, and
    writes a table with [b] twice and without [a]. *)
Theorem C6_restart_skips_unrecorded_row :
  let checkpoints :=
    interrupted sample_metadata (fun shards => shards) 1 [(1, sample_pano_b)] [] in
  let run :=
    GSVDownloader._augment_metadata sample_metadata (fun shards => shards) None
      (read_csv [sample_pano_a; sample_pano_b]) checkpoints in
  concat checkpoints = [augmented sample_metadata sample_pano_b]
  /\ fst run = [PStr "b"]
  /\ snd run = Ok [augmented sample_metadata sample_pano_b;
                   augmented sample_metadata sample_pano_b].
Proof. repeat split; vm_compute; reflexivity. Qed.
End AugmentWitness.

(** ** Reuse of the pid table by [download_svi] *)

Section PipelineFacts.
Import Py Frame BaseDownloader.

Variable get_pids : files -> string -> files.

(** C8.  A run with [update_pids = False] whose pid file exists (the file
    [path_pid] names, else [gsv_pids.csv] or [mly_pids.csv] under the
    output directory) does not enter the discovery stage, for either
    provider.  Mapillary reads that file as it is.  So does GSV as long as
    the cache holds no augmented table; when [cache_zensvi/pids_augemented.csv]
    exists, GSV first copies it over [gsv_pids.csv] and reads the copy. *)
Theorem C8_existing_pid_file_skips_discovery
    (fs : files) (dir_output : string) (path_pid : option string) :
  let cache := joinpath dir_output "cache_zensvi/pids_augemented.csv" in
  let mly := MLYDownloader.download_svi get_pids fs dir_output path_pid false in
  let gsv := GSVDownloader.download_svi get_pids fs dir_output path_pid false in
  (forall table, fs !! pid_file "mly_pids.csv" dir_output path_pid = Some table ->
     st_discovery mly = false /\ st_files mly = fs /\ pids_read mly = Some table)
  /\ (forall table, fs !! pid_file "gsv_pids.csv" dir_output path_pid = Some table ->
        st_discovery gsv = false
        /\ (fs !! cache = None -> st_files gsv = fs /\ pids_read gsv = Some table)
        /\ (forall cached, fs !! cache = Some cached ->
              st_files gsv = <[joinpath dir_output "gsv_pids.csv" := cached]> fs
              /\ pids_read gsv = Some cached)).
Proof.
  intros cache mly gsv. split.
  - intros table Ht. subst mly. unfold MLYDownloader.download_svi, pid_file, path_exists in *.
    destruct path_pid as [p|]; simpl in *.
    + rewrite bool_decide_eq_true_2 by (by rewrite Ht). by rewrite <- Ht.
    + rewrite bool_decide_eq_true_2 by (by rewrite Ht). by rewrite <- Ht.
  - intros table Ht. subst gsv. unfold GSVDownloader.download_svi, pid_file, path_exists in *.
    fold cache. destruct (fs !! cache) as [cached|] eqn:Hc.
    + rewrite (bool_decide_eq_true_2 (is_Some (Some cached))) by done.
      rewrite andb_false_r. split; [done|]. split; [done|].
      intros ? [= <-]. split; [done|]. unfold pids_read. simpl.
      by rewrite lookup_insert_eq.
    + rewrite (bool_decide_eq_false_2 (is_Some None)) by (by intros [? ?]).
      rewrite andb_true_r.
      destruct path_pid as [p|]; simpl in *.
      * split; [done|]. split; [|done]. intros _. split; [done|].
        unfold pids_read. simpl. exact Ht.
      * rewrite ?bool_decide_eq_true_2 by (by rewrite ?Ht). simpl.
        split; [done|]. split; [|done]. intros _. split; [done|].
        unfold pids_read. simpl. exact Ht.
Qed.

(** A GSV run over an output directory that holds a pid table of one pano
    and, in the cache, an augmented table of another: the pid file is
    overwritten and the cached table is read. *)
Lemma C8_gsv_pid_file_replaced_by_cache :
  let old_table : frame := [ {["panoid" := PStr "old"]} ] in
  let cached : frame := [ <["year" := PInt 2020]> {["panoid" := PStr "new"]} ] in
  let fs : files :=
    <["out/cache_zensvi/pids_augemented.csv" := cached]> {["out/gsv_pids.csv" := old_table]} in
  let gsv := GSVDownloader.download_svi (fun fs _ => fs) fs "out" None false in
  fs !! pid_file "gsv_pids.csv" "out" None = Some old_table
  /\ st_discovery gsv = false
  /\ st_files gsv !! "out/gsv_pids.csv" = Some cached
  /\ pids_read gsv = Some cached
  /\ cached <> old_table.
Proof.
  repeat split; try (vm_compute; reflexivity). discriminate.
Qed.
End PipelineFacts.

(** ** GeoJSON: appending features *)

Section GeoJSONFacts.
Import Py GeoJSON.
Context {coord : Type} `{EqDecision coord}.

Implicit Types (f : @Feature coord) (g : @GeoJSON coord) (fd : @feature_dict coord).

(** Equal features are the features with the same hashed tuple. *)
Lemma Feature_eq_hash f1 f2 k1 k2 :
  hash_key f1 = Ok k1 -> hash_key f2 = Ok k2 ->
  (Feature_eq f1 f2 = Ok true <-> k1 = k2).
Proof.
  unfold hash_key, Feature_eq, mbind, result_bind, bind.
  destruct (captured_at f1) as [c1|]; [|discriminate].
  destruct (captured_at f2) as [c2|]; [|discriminate].
  intros [= <-] [= <-]. split.
  - intros Heq.
    case_bool_decide as Ht; [|discriminate].
    case_bool_decide as Hxy; [|discriminate]. simpl in Heq.
    case_bool_decide as Hc; [|discriminate]. by rewrite Ht, Hxy, Hc.
  - intros [= Ht Hla Hlo Hc].
    rewrite Ht, Hla, Hlo, Hc.
    by rewrite !bool_decide_eq_true_2 by done.
Qed.

Lemma mapM_hash_key (fs : list (@Feature coord)) keys :
  mapM hash_key fs = Ok keys ->
  (forall k, k ∈ keys <-> exists f, f ∈ fs /\ hash_key f = Ok k)
  /\ (forall f, f ∈ fs -> exists k, hash_key f = Ok k).
Proof.
  revert keys. induction fs as [|f fs IH]; intros keys.
  - intros [= <-]. split.
    + intros k. split; [by intros ?%elem_of_nil|by intros (? & ?%elem_of_nil & _)].
    + by intros f ?%elem_of_nil.
  - rewrite mapM_result_cons.
    destruct (hash_key f) as [k0|] eqn:Hk0; [|discriminate].
    destruct (mapM hash_key fs) as [keys'|]; [|discriminate].
    intros [= <-]. destruct (IH keys' eq_refl) as [IH1 IH2]. split.
    + intros k. rewrite elem_of_cons, IH1. split.
      * intros [->|(f' & Hf' & Hk)]; [exists f; split; [left|done]|].
        exists f'. split; [by right|done].
      * intros (f' & [->|Hf']%elem_of_cons & Hk); [left; congruence|].
        right. by exists f'.
    + intros f' [->|Hf']%elem_of_cons; [by exists k0|by apply IH2].
Qed.

Lemma GeoJSON_init_mirrors t fds g : GeoJSON_init t fds = Ok g -> mirrors g.
Proof.
  unfold GeoJSON_init, mbind, result_bind, bind.
  destruct (mapM Feature_init fds) as [fs|]; [|discriminate].
  destruct (mapM hash_key fs) as [keys|] eqn:Hkeys; [|discriminate].
  intros [= <-]. by apply mapM_hash_key.
Qed.

Lemma append_feature_inv g fd g' :
  append_feature g fd = Ok g' ->
  exists feature k,
    Feature_init fd = Ok feature /\ hash_key feature = Ok k
    /\ ((k ∈ features_set g /\ g' = g)
        \/ ((k ∉ features_set g)
            /\ g' = {| gj_type := gj_type g; features := features g ++ [feature];
                       features_set := k :: features_set g |})).
Proof.
  unfold append_feature, mbind, result_bind, bind.
  destruct (Feature_init fd) as [feature|]; [|discriminate].
  destruct (hash_key feature) as [k|] eqn:Hk; [|discriminate].
  intros Happ. exists feature, k. split; [done|]. split; [done|].
  destruct (decide (k ∈ features_set g)) as [Hin|Hnin].
  - left. rewrite bool_decide_eq_true_2 in Happ by done. simpl in Happ.
    by injection Happ as <-.
  - right. rewrite bool_decide_eq_false_2 in Happ by done. simpl in Happ.
    by injection Happ as <-.
Qed.

Lemma append_feature_mirrors g fd g' :
  mirrors g -> append_feature g fd = Ok g' -> mirrors g'.
Proof.
  intros [Hset Hall] (feature & k & _ & Hk & [[_ ->]|[_ ->]])%append_feature_inv; [done|].
  split; simpl.
  - intros k'. rewrite elem_of_cons, Hset. split.
    + intros [->|(f & Hf & Hfk)].
      * exists feature. split; [|done]. apply elem_of_app. right. by left.
      * exists f. split; [|done]. apply elem_of_app. by left.
    + intros (f & [Hf|Hf]%elem_of_app & Hfk).
      * right. by exists f.
      * apply list_elem_of_singleton in Hf as ->. left. congruence.
  - intros f [Hf|Hf]%elem_of_app; [by apply Hall|].
    apply list_elem_of_singleton in Hf as ->. by exists k.
Qed.

Lemma reachable_mirrors g : reachable g -> mirrors g.
Proof.
  induction 1 as [t fds g Hinit|g fd g' _ IH Happ].
  - by eapply GeoJSON_init_mirrors.
  - by eapply append_feature_mirrors.
Qed.

Lemma has_equal_in_set g feature k :
  mirrors g -> hash_key feature = Ok k ->
  (has_equal (features g) feature <-> k ∈ features_set g).
Proof.
  intros [Hset Hall] Hk. rewrite Hset. split.
  - intros (f' & Hf' & Heq). exists f'. split; [done|].
    destruct (Hall f' Hf') as [k' Hk']. rewrite Hk'. f_equal.
    by apply (Feature_eq_hash f' feature k' k).
  - intros (f' & Hf' & Hk'). exists f'. split; [done|].
    by apply (Feature_eq_hash f' feature k k).
Qed.

(** C10.  On a GeoJSON object built by the constructor and extended by
    [append_feature], a call of [append_feature] that returns leaves the
    object as it is when the list already holds a feature equal to the new
    one (same type, coordinates and [captured_at]); otherwise it appends
    that one feature at the end.  A list without two equal features stays
    so, and a second call with the same dictionary changes nothing. *)
Theorem C10_append_feature_no_duplicates_idempotent g fd feature g' :
  reachable g ->
  Feature_init fd = Ok feature ->
  append_feature g fd = Ok g' ->
  (has_equal (features g) feature -> g' = g)
  /\ (~ has_equal (features g) feature -> features g' = features g ++ [feature])
  /\ (no_duplicates (features g) -> no_duplicates (features g'))
  /\ append_feature g' fd = Ok g'.
Proof.
  intros Hreach Hinit Happ. pose proof (reachable_mirrors g Hreach) as Hm.
  pose proof Happ as (feature' & k & Hinit' & Hk & Hcases)%append_feature_inv.
  rewrite Hinit in Hinit'. injection Hinit' as <-.
  pose proof (has_equal_in_set g feature k Hm Hk) as Heq.
  assert (Hagain : forall g0, k ∈ features_set g0 -> append_feature g0 fd = Ok g0).
  { intros g0 Hin. unfold append_feature, mbind, result_bind, bind.
    rewrite Hinit, Hk. by rewrite bool_decide_eq_true_2. }
  destruct Hcases as [[Hin ->]|[Hnin ->]].
  - split; [done|]. split; [intros Hn; destruct Hn; by apply Heq|].
    split; [done|]. by apply Hagain.
  - split; [|split; [|split]]; simpl.
    + intros Hhas. by apply Heq in Hhas.
    + done.
    + intros Hnd i j f1 f2 Hi Hj Hf.
      destruct Hm as [_ Hall].
      apply lookup_app_Some in Hi as [Hi|[Hli Hi]];
        apply lookup_app_Some in Hj as [Hj|[Hlj Hj]].
      * by eapply Hnd.
      * apply list_lookup_singleton_Some in Hj as [_ <-].
        destruct Hnin. apply Heq. exists f1. split; [|done].
        by eapply list_elem_of_lookup_2.
      * apply list_lookup_singleton_Some in Hi as [_ <-].
        destruct Hnin. apply Heq. exists f2. split; [by eapply list_elem_of_lookup_2|].
        apply list_elem_of_lookup_2 in Hj. destruct (Hall f2 Hj) as [k2 Hk2].
        apply (Feature_eq_hash f2 feature k2 k Hk2 Hk). symmetry.
        by apply (Feature_eq_hash feature f2 k k2 Hk Hk2).
      * apply list_lookup_singleton_Some in Hi as [Hi _].
        apply list_lookup_singleton_Some in Hj as [Hj _]. lia.
    + apply Hagain. simpl. left.
Qed.
End GeoJSONFacts.

Section GeoJSONWitness.
Import Py GeoJSON Samples.

Lemma C10_append_feature_witness :
  (has_equal (features sample_geojson) (sample_Feature 104 2 6) -> sample_geojson' = sample_geojson)
  /\ (~ has_equal (features sample_geojson) (sample_Feature 104 2 6) ->
      features sample_geojson' = features sample_geojson ++ [sample_Feature 104 2 6])
  /\ (no_duplicates (features sample_geojson) -> no_duplicates (features sample_geojson'))
  /\ append_feature sample_geojson' (sample_fd 104 2 6) = Ok sample_geojson'.
Proof.
  apply (C10_append_feature_no_duplicates_idempotent
           sample_geojson (sample_fd 104 2 6) (sample_Feature 104 2 6) sample_geojson').
  - apply (reachable_init "FeatureCollection" [sample_fd 103 1 5]). reflexivity.
  - reflexivity.
  - reflexivity.
Defined.
End GeoJSONWitness.

(** ** Streetscope: batches of threads and the download loop *)

Section StreetscopeFacts.
Import Py Frame BaseDownloader Series StreetViewDownloader Samples.

Lemma List_filter_sublist {A} (p : A -> bool) (l : list A) : List.filter p l `sublist_of` l.
Proof.
  induction l as [|x l IH]; simpl; [done|].
  destruct (p x); [by apply sublist_skip|by apply sublist_cons].
Qed.

Lemma below_first_multiple (n j : Z) : 0 <= j < n -> j = 0 \/ j mod n <> 0.
Proof.
  intros Hj. destruct (decide (j = 0)) as [|Hne]; [by left|right].
  rewrite Z.mod_small by lia. done.
Qed.

Lemma task_loop_nthreads_loop {A} (user_agent : list string) (nthreads i : Z) (l : list A)
    calls task_pids :
  0 <= nthreads <= Z.of_nat (length user_agent) ->
  task_loop user_agent nthreads i l calls task_pids = nthreads_loop nthreads i l calls task_pids.
Proof.
  intros Hn. revert i calls task_pids.
  induction l as [|p l IH]; intros i calls task_pids; [done|].
  simpl. destruct (nthreads =? 0); [done|].
  destruct (negb (i mod nthreads =? 0) || (i =? 0)); [apply IH|].
  rewrite (proj2 (Z.ltb_ge _ _)), (proj2 (Z.ltb_ge _ _)) by lia. apply IH.
Qed.

(** With more threads than user agents the first batch is never handed
    over: the loop raises when it closes it. *)
Lemma task_loop_few_agents {A} (user_agent : list string) (nthreads : Z) (l : list A) :
  0 < nthreads -> Z.of_nat (length user_agent) < nthreads ->
  nthreads < Z.of_nat (length l) ->
  task_loop user_agent nthreads 0 l [] []
  = Raise (ValueError "Sample larger than population or is negative").
Proof.
  intros Hn Hua Hlen.
  assert (forall (g rest : list A) i p,
            (forall j, i <= j < i + Z.of_nat (length g) -> j = 0 \/ j mod nthreads <> 0) ->
            task_loop user_agent nthreads i (g ++ rest) [] p
            = task_loop user_agent nthreads (i + Z.of_nat (length g)) rest [] (p ++ g)) as Happ.
  { induction g as [|x g IH]; intros rest i p Hj.
    - simpl. rewrite Z.add_0_r. by rewrite app_nil_r.
    - cbn [app task_loop]. rewrite (proj2 (Z.eqb_neq nthreads 0)) by lia.
      assert (negb (i mod nthreads =? 0) || (i =? 0) = true) as ->.
      { destruct (Hj i) as [->|Hm]; [simpl length; lia|by rewrite orb_true_r|].
        by rewrite (proj2 (Z.eqb_neq _ _) Hm). }
      rewrite IH.
      + rewrite <- app_assoc. simpl. f_equal. simpl length. lia.
      + intros j Hjr. apply Hj. simpl length. lia. }
  assert (exists g x rest, l = g ++ x :: rest /\ Z.of_nat (length g) = nthreads)
    as (g & x & rest & -> & Hg).
  { destruct (drop (Z.to_nat nthreads) l) as [|x rest] eqn:Hd.
    - apply (f_equal length) in Hd. rewrite length_drop in Hd. simpl in Hd. lia.
    - exists (take (Z.to_nat nthreads) l), x, rest. split.
      + by rewrite <- Hd, take_drop.
      + rewrite length_take. lia. }
  rewrite Happ. 2:{ intros j Hj. apply below_first_multiple. lia. }
  cbn [task_loop]. rewrite (proj2 (Z.eqb_neq nthreads 0)) by lia.
  rewrite Hg, Z.add_0_l, Z.mod_same by lia.
  rewrite (proj2 (Z.eqb_neq nthreads 0)) by lia. cbn [negb orb Z.eqb].
  rewrite (proj2 (Z.ltb_lt (Z.of_nat (length user_agent)) nthreads)) by lia.
  by rewrite orb_true_r.
Qed.

(** Positions that are no positive multiple of [n] extend the pending batch. *)
Lemma nthreads_loop_append {A} (n i : Z) (g rest : list A) all p :
  0 < n ->
  (forall j, i <= j < i + Z.of_nat (length g) -> j = 0 \/ j mod n <> 0) ->
  nthreads_loop n i (g ++ rest) all p
  = nthreads_loop n (i + Z.of_nat (length g)) rest all (p ++ g).
Proof.
  intros Hn. revert i p. induction g as [|x g IH]; intros i p Hj.
  - simpl. rewrite Z.add_0_r. by rewrite app_nil_r.
  - cbn [app nthreads_loop]. rewrite (proj2 (Z.eqb_neq n 0)) by lia.
    assert (negb (i mod n =? 0) || (i =? 0) = true) as ->.
    { destruct (Hj i) as [->|Hm]; [simpl length; lia|by rewrite orb_true_r|].
      by rewrite (proj2 (Z.eqb_neq _ _) Hm). }
    rewrite IH.
    + rewrite <- app_assoc. simpl. f_equal. simpl length. lia.
    + intros j Hjr. apply Hj. simpl length. lia.
Qed.

(** A positive multiple of [n] closes the pending batch; the pano at that
    position joins no batch. *)
Lemma nthreads_loop_flush {A} (n i : Z) (x : A) (rest : list A) all p :
  0 < n -> i <> 0 -> i mod n = 0 ->
  nthreads_loop n i (x :: rest) all p = nthreads_loop n (i + 1) rest (all ++ [p]) [].
Proof.
  intros Hn Hi Hm. cbn [nthreads_loop]. rewrite (proj2 (Z.eqb_neq n 0)) by lia.
  by rewrite Hm, (proj2 (Z.eqb_neq i 0) Hi).
Qed.

Lemma between_multiples (n k j : Z) : 0 < n -> k * n < j < (k + 1) * n -> j mod n <> 0.
Proof.
  intros Hn Hj Hm. pose proof (Z.div_mod j n ltac:(lia)) as Hd. rewrite Hm in Hd.
  assert (k < j / n < k + 1) by nia. lia.
Qed.

(** From a positive multiple [k * n] on, with [q] full windows ahead. *)
Lemma nthreads_loop_later {A} (n : nat) (q : nat) :
  forall (k : Z) (rest : list A) all p (r : nat),
    (0 < n)%nat -> 1 <= k -> (r < n)%nat -> length rest = (q * n + r + 1)%nat ->
    nthreads_loop (Z.of_nat n) (k * Z.of_nat n) rest all p
    = Ok (all ++ p :: map (fun j : nat => take (n - 1) (drop (j * n + 1) rest)) (seq 0 q)).
Proof.
  induction q as [|q IH]; intros k rest all p r Hn Hk Hr Hlen.
  - destruct rest as [|x g]; [simpl in Hlen; lia|].
    rewrite nthreads_loop_flush; [|lia|nia|by apply Z_mod_mult].
    rewrite <- (app_nil_r g).
    rewrite nthreads_loop_append; [done|lia|].
    intros j Hj. right. apply (between_multiples _ k); [lia|]. simpl in Hlen. nia.
  - destruct rest as [|x rest]; [simpl in Hlen; lia|].
    rewrite nthreads_loop_flush; [|lia|nia|by apply Z_mod_mult].
    assert (exists g rest', rest = g ++ rest' /\ length g = (n - 1)%nat) as (g & rest' & -> & Hg).
    { exists (take (n - 1) rest), (drop (n - 1) rest). split; [by rewrite take_drop|].
      rewrite length_take. simpl in Hlen. nia. }
    rewrite nthreads_loop_append; [|lia|].
    2:{ intros j Hj. right. apply (between_multiples _ k); [lia|]. rewrite Hg in Hj. nia. }
    rewrite Hg.
    replace (k * Z.of_nat n + 1 + Z.of_nat (n - 1)) with ((k + 1) * Z.of_nat n) by nia.
    rewrite (IH (k + 1) rest' (all ++ [p]) _ r); [|done|lia|done|].
    2:{ simpl in Hlen. rewrite length_app in Hlen. nia. }
    rewrite <- app_assoc. simpl. do 3 f_equal. f_equal.
    + rewrite drop_0, <- Hg. by rewrite take_app_length.
    + rewrite <- seq_shift, map_map. apply map_ext. intros j. f_equal.
      replace (S j * n + 1)%nat with (S (length g + (j * n + 1)))%nat by nia.
      simpl. by rewrite drop_app_add.
Qed.

(** With no more ids than threads the loop never closes a batch. *)
Lemma nthreads_loop_short {A} (nthreads : Z) (panoids : list A) :
  0 < nthreads -> Z.of_nat (length panoids) <= nthreads ->
  nthreads_loop nthreads 0 panoids [] [] = Ok [].
Proof.
  intros Hn Hle. rewrite <- (app_nil_r panoids).
  rewrite nthreads_loop_append; [done|done|].
  intros j Hj. apply below_first_multiple. lia.
Qed.

(** The batches hold ids of the list, in its order. *)
Lemma nthreads_loop_sublist {A} (n i : Z) (l : list A) all p res :
  nthreads_loop n i l all p = Ok res -> concat res `sublist_of` concat all ++ p ++ l.
Proof.
  revert i all p. induction l as [|x l IH]; intros i all p; cbn [nthreads_loop].
  - intros [= <-]. rewrite app_nil_r. apply sublist_inserts_r. done.
  - destruct (n =? 0); [discriminate|].
    destruct (negb (i mod n =? 0) || (i =? 0)); intros Hres; apply IH in Hres.
    + by rewrite <- app_assoc in Hres.
    + rewrite concat_app in Hres. simpl in Hres. rewrite !app_nil_r, <- app_assoc in Hres.
      etrans; [exact Hres|]. apply sublist_app; [done|]. apply sublist_app; [done|].
      by apply sublist_cons.
Qed.

Lemma unique_from_spec (seen values : list pyval) :
  NoDup (unique_from seen values)
  /\ unique_from seen values `sublist_of` values
  /\ forall v, v ∈ unique_from seen values <-> v ∈ values /\ v ∉ seen.
Proof.
  revert seen. induction values as [|x values IH]; intros seen; simpl.
  - split; [constructor|]. split; [done|]. intros v. split; [by intros ?%elem_of_nil|].
    by intros [?%elem_of_nil _].
  - destruct (IH seen) as (Hnd & Hsub & Hin). destruct (IH (x :: seen)) as (Hnd' & Hsub' & Hin').
    case_bool_decide as Hx.
    + split; [done|]. split; [by apply sublist_cons|]. intros v. rewrite Hin, elem_of_cons.
      split; [intros [? ?]; by split; [right|]|].
      intros [[->|?] Hv]; [done|by split].
    + split; [|split].
      * apply NoDup_cons. split; [|done]. rewrite Hin'. intros [_ Hn]. apply Hn. by left.
      * by apply sublist_skip.
      * intros v. rewrite !elem_of_cons, Hin', not_elem_of_cons.
        split.
        -- intros [->|(? & ? & ?)]; [by split; [left|]|by split; [right|]].
        -- intros [[->|Hv] Hs]; [by left|].
           destruct (decide (v = x)) as [->|Hne]; [by left|right; done].
Qed.

(** X1.  For a positive number of threads, [_get_nthreads_pid] returns
    [(len - 1) // nthreads] batches: the first is the first [nthreads] pano
    ids, batch [k >= 1] the [nthreads - 1] ids at positions
    [k * nthreads + 1 .. (k + 1) * nthreads - 1].  The id at a position that
    is a positive multiple of [nthreads] is in no batch, and neither are the
    ids after the last such position. *)
Theorem X1_get_nthreads_pid_batches {A} (nthreads : Z) (panoids : list A) :
  0 < nthreads ->
  _get_nthreads_pid nthreads panoids
  = Ok (map (fun k : Z =>
               if k =? 0 then py_slice 0 nthreads panoids
               else py_slice (k * nthreads + 1) ((k + 1) * nthreads) panoids)
            (py_range 0 ((Z.of_nat (length panoids) - 1) / nthreads))).
Proof.
  intros Hn. unfold _get_nthreads_pid.
  set (n := Z.to_nat nthreads). assert (Hnn : nthreads = Z.of_nat n) by lia.
  set (len := length panoids).
  destruct (decide (len <= n)%nat) as [Hle|Hgt].
  - rewrite nthreads_loop_short by (fold len; lia). f_equal.
    assert ((Z.of_nat len - 1) / nthreads <= 0) as Hq.
    { apply Z.lt_succ_r. apply Z.div_lt_upper_bound; lia. }
    unfold py_range. by replace (Z.to_nat _) with 0%nat by lia.
  - assert (exists g rest, panoids = g ++ rest /\ length g = n) as (g & rest & Hp & Hg).
    { exists (take n panoids), (drop n panoids). split; [by rewrite take_drop|].
      rewrite length_take. fold len. lia. }
    assert (Hlen : len = (n + length rest)%nat) by (subst len; rewrite Hp, length_app; lia).
    set (q := ((length rest - 1) / n)%nat). set (r := ((length rest - 1) mod n)%nat).
    assert (Hqr : length rest = (q * n + r + 1)%nat).
    { pose proof (Nat.div_mod_eq (length rest - 1) n). subst q r. nia. }
    assert (Hr : (r < n)%nat) by (apply Nat.mod_upper_bound; lia).
    rewrite Hp at 1. rewrite nthreads_loop_append; [|done|].
    2:{ intros j Hj. apply below_first_multiple. lia. }
    rewrite Hg. simpl app. replace (0 + Z.of_nat n) with (1 * Z.of_nat n) by lia.
    rewrite Hnn. rewrite (nthreads_loop_later n q 1 rest [] g r); [|lia|done|done|done].
    f_equal. simpl app.
    assert ((Z.of_nat len - 1) / Z.of_nat n = Z.of_nat (S q)) as ->.
    { symmetry. apply (Z.div_unique_pos _ _ _ (Z.of_nat r)); lia. }
    unfold py_range. rewrite Nat2Z.id. cbn [seq map]. f_equal.
    + simpl. rewrite py_slice_take_drop by lia.
      rewrite Z.sub_0_r, Nat2Z.id. change (Z.to_nat 0) with 0%nat. rewrite drop_0, Hp, <- Hg. by rewrite take_app_length.
    + rewrite <- seq_shift, !map_map. apply map_ext. intros j.
      assert ((0 + Z.of_nat (S j) =? 0) = false) as -> by (apply Z.eqb_neq; lia).
      rewrite py_slice_take_drop by nia.
      replace (Z.to_nat _) with (n - 1)%nat by nia. f_equal.
      replace (Z.to_nat _) with (length g + (j * n + 1))%nat by nia.
      by rewrite Hp, drop_app_add.
Qed.

Lemma X1_get_nthreads_pid_witness :
  _get_nthreads_pid 3 [0; 1; 2; 3; 4; 5; 6; 7; 8; 9]
  = Ok (map (fun k : Z =>
               if k =? 0 then py_slice 0 3 [0; 1; 2; 3; 4; 5; 6; 7; 8; 9]
               else py_slice (k * 3 + 1) ((k + 1) * 3) [0; 1; 2; 3; 4; 5; 6; 7; 8; 9])
            (py_range 0 ((Z.of_nat (length [0; 1; 2; 3; 4; 5; 6; 7; 8; 9]) - 1) / 3))).
Proof. apply (X1_get_nthreads_pid_batches 3 [0; 1; 2; 3; 4; 5; 6; 7; 8; 9]). lia. Defined.

(** X2.  What a run of [download_gsv] hands to the image tool, for a
    positive number of threads.  When no more ids are left than there are
    threads, nothing at all is handed over.  When more are left and the
    downloader has fewer user agents than threads, the run raises
    [ValueError] before anything is handed over.  With as many user agents
    as threads, the lists handed over are the batches [_get_nthreads_pid]
    makes of the ids [_check_already] leaves: every id handed over is an id
    of the pid file that is not the name, up to its first dot, of an entry
    directly under the output directory, and none is handed over twice;
    the files inside a folder of the output directory - the images are
    saved in [panorama] - play no part. *)
Theorem X2_download_gsv_requests (user_agent : list string) (nthreads : Z)
    (dir_output : list entry) (first_column : list pyval) :
  0 < nthreads ->
  let panoids_rest := _check_already (listdir dir_output) (_read_pids first_column) in
  (Z.of_nat (length panoids_rest) <= nthreads ->
   download_gsv user_agent nthreads dir_output first_column = Ok [])
  /\ (nthreads < Z.of_nat (length panoids_rest) ->
      Z.of_nat (length user_agent) < nthreads ->
      download_gsv user_agent nthreads dir_output first_column
      = Raise (ValueError "Sample larger than population or is negative"))
  /\ (nthreads <= Z.of_nat (length user_agent) ->
      exists calls,
        download_gsv user_agent nthreads dir_output first_column = Ok calls
        /\ _get_nthreads_pid nthreads panoids_rest = Ok calls
        /\ NoDup (concat calls)
        /\ (forall pid, pid ∈ concat calls ->
              pid ∈ first_column
              /\ forall e, e ∈ dir_output -> pid <> PStr (split_dot_0 (entry_name e)))
        /\ (forall others content content',
              dir_output = Dir "panorama" content :: others ->
              download_gsv user_agent nthreads (Dir "panorama" content' :: others) first_column
              = Ok calls)).
Proof.
  intros Hn panoids_rest. unfold download_gsv. fold panoids_rest.
  split; [|split].
  - intros Hle. destruct (decide (nthreads <= Z.of_nat (length user_agent))) as [Hua|Hua].
    + rewrite task_loop_nthreads_loop by lia. by apply nthreads_loop_short.
    + clear -Hn Hle. rewrite <- (app_nil_r panoids_rest).
      assert (forall (g : list pyval) i p,
                i + Z.of_nat (length g) <= nthreads -> 0 <= i ->
                task_loop user_agent nthreads i (g ++ []) [] p = Ok []) as Happ.
      { induction g as [|x g IH]; intros i p Hi Hi0; [done|].
        cbn [app task_loop]. rewrite (proj2 (Z.eqb_neq nthreads 0)) by lia.
        assert (negb (i mod nthreads =? 0) || (i =? 0) = true) as ->.
        { destruct (below_first_multiple nthreads i) as [->|Hm];
            [simpl length in Hi; lia|by rewrite orb_true_r|].
          by rewrite (proj2 (Z.eqb_neq _ _) Hm). }
        apply IH; simpl length in Hi; lia. }
      apply Happ; lia.
  - intros Hlen Hua. by apply task_loop_few_agents.
  - intros Hua. rewrite task_loop_nthreads_loop by lia. unfold _get_nthreads_pid.
    destruct (nthreads_loop nthreads 0 panoids_rest [] []) as [calls|e] eqn:Hloop.
    2:{ exfalso. revert Hloop. generalize (@nil (list pyval)) at 1, (@nil pyval), 0.
        induction panoids_rest as [|x l IH]; intros all p i; cbn [nthreads_loop]; [done|].
        rewrite (proj2 (Z.eqb_neq nthreads 0)) by lia.
        destruct (negb (i mod nthreads =? 0) || (i =? 0)); apply IH. }
    exists calls. split; [done|]. split; [done|].
    pose proof (nthreads_loop_sublist _ _ _ _ _ _ Hloop) as Hsub. simpl in Hsub.
    destruct (unique_from_spec [] first_column) as (Hnd & _ & Hin).
    assert (Hfil : panoids_rest `sublist_of` unique first_column).
    { unfold panoids_rest, _check_already, _read_pids. apply List_filter_sublist. }
    split; [|split].
    + eapply sublist_NoDup; [exact Hnd|]. by etrans.
    + intros pid Hpid. apply (fun H => elem_of_sublist _ _ _ H Hsub) in Hpid.
      unfold panoids_rest, _check_already in Hpid.
      apply list_elem_of_In, filter_In in Hpid as [Hpid Hb].
      apply list_elem_of_In in Hpid. apply Hin in Hpid as [Hpid _]. split; [done|].
      intros e He ->. apply negb_true_iff, bool_decide_eq_false in Hb. apply Hb.
      apply list_elem_of_fmap. eexists. split; [done|].
      apply list_elem_of_fmap. exists (entry_name e). split; [done|].
      apply list_elem_of_fmap. by exists e.
    + intros others content content' ->. rewrite task_loop_nthreads_loop by lia. exact Hloop.
Qed.

Lemma X2_download_gsv_witness :
  let dir_output := [File "pids.csv"; Dir "panorama" ["a.jpg"; "b.jpg"]; File "c.jpg"] in
  let first_column := [PStr "a"; PStr "b"; PStr "a"; PStr "c"; PStr "d"] in
  download_gsv ["Mozilla/5.0"; "Opera/9.80"] 2 dir_output first_column
  = Ok [[PStr "a"; PStr "b"]]
  /\ download_gsv ["Mozilla/5.0"] 2 dir_output first_column
     = Raise (ValueError "Sample larger than population or is negative").
Proof.
  destruct (X2_download_gsv_requests ["Mozilla/5.0"; "Opera/9.80"] 2
              [File "pids.csv"; Dir "panorama" ["a.jpg"; "b.jpg"]; File "c.jpg"]
              [PStr "a"; PStr "b"; PStr "a"; PStr "c"; PStr "d"]) as (_ & _ & H3); [lia|].
  destruct (X2_download_gsv_requests ["Mozilla/5.0"] 2
              [File "pids.csv"; Dir "panorama" ["a.jpg"; "b.jpg"]; File "c.jpg"]
              [PStr "a"; PStr "b"; PStr "a"; PStr "c"; PStr "d"]) as (_ & H2 & _); [lia|].
  split.
  - destruct H3 as (calls & Hrun & Hbatches & _); [simpl; lia|].
    rewrite Hrun, <- Hbatches. vm_compute. reflexivity.
  - apply H2; vm_compute; reflexivity.
Defined.

(** X3.  [_augment_metadata] on a frame whose index labels are all
    different (the [RangeIndex] of [pd.DataFrame(pid)] is such): the rows
    come back in their order under their labels, each with the year and
    the month the metadata endpoint gives for its own pano id, and with
    its other cells unchanged. *)
Theorem X3_augment_metadata_rows (get_year_month : pyval -> pyval * pyval) (df : indexed) :
  NoDup (map fst df) ->
  _augment_metadata get_year_month df
  = map (fun lr : Z * row =>
           (fst lr, GSVDownloader.augment_metadata.augmented get_year_month (snd lr))) df.
Proof.
  intros Hnd. unfold _augment_metadata. rewrite fold_set_at.
  apply map_ext_in. intros lr Hlr. apply list_elem_of_In in Hlr.
  by apply fold_set_row_own.
Qed.

Lemma X3_augment_metadata_witness :
  _augment_metadata sample_metadata (read_csv [sample_pano_a; sample_pano_b])
  = map (fun lr : Z * row =>
           (fst lr, GSVDownloader.augment_metadata.augmented sample_metadata (snd lr)))
        (read_csv [sample_pano_a; sample_pano_b]).
Proof.
  apply (X3_augment_metadata_rows sample_metadata (read_csv [sample_pano_a; sample_pano_b])).
  apply (read_csv_NoDup [sample_pano_a; sample_pano_b] 0).
Defined.
End StreetscopeFacts.

(** ** GeoJSON: equality, construction and dictionaries *)

Section GeoJSONMoreFacts.
Import Py PyMore GeoJSON GeoJSONDict Samples.
Context {coord : Type} `{EqDecision coord}.

Implicit Types (f : @Feature coord) (g : @GeoJSON coord) (fd : @feature_dict coord).

Lemma hash_key_Some f : is_Some (properties f !! "captured_at") -> exists k, hash_key f = Ok k.
Proof.
  intros [c Hc]. unfold hash_key, captured_at, mbind, result_bind, bind. rewrite Hc. by eexists.
Qed.

Lemma hash_key_None f :
  properties f !! "captured_at" = None -> hash_key f = Raise (AttributeError "captured_at").
Proof. intros Hc. unfold hash_key, captured_at, mbind, result_bind, bind. by rewrite Hc. Qed.

Lemma Feature_eq_unfold f1 f2 :
  Feature_eq f1 f2
  = if decide (type f1 = type f2
               /\ latitude (coordinates (geometry f1)) = latitude (coordinates (geometry f2))
               /\ longitude (coordinates (geometry f1)) = longitude (coordinates (geometry f2)))
    then match properties f1 !! "captured_at", properties f2 !! "captured_at" with
         | Some a, Some b => Ok (bool_decide (a = b))
         | _, _ => Raise (AttributeError "captured_at")
         end
    else Ok false.
Proof.
  unfold Feature_eq, captured_at, mbind, result_bind, bind.
  destruct (decide _) as [(Ht & Hla & Hlo)|Hn].
  - rewrite !bool_decide_eq_true_2 by congruence. simpl.
    by destruct (properties f1 !! "captured_at"), (properties f2 !! "captured_at").
  - case_bool_decide as Ht; [|done]. case_bool_decide as Hxy; [|done].
    destruct Hn. by injection Hxy.
Qed.

(** X4.  [Feature.__eq__] against [Feature.__hash__].  Two features that
    both carry [captured_at] are equal exactly when their hashed tuples are
    the same; on such features equality is reflexive and transitive.  For
    any two features, [f1 == f2] and [f2 == f1] have the same outcome, an
    [AttributeError] included; features of different types or at different
    coordinates compare unequal without [captured_at] being read; and equal
    features always have a hash, the same one. *)
Theorem X4_feature_eq_consistent_with_hash f1 f2 f3 :
  (forall k1 k2, hash_key f1 = Ok k1 -> hash_key f2 = Ok k2 ->
     (Feature_eq f1 f2 = Ok true <-> k1 = k2)
     /\ Feature_eq f1 f1 = Ok true
     /\ (Feature_eq f1 f2 = Ok true -> Feature_eq f2 f3 = Ok true -> Feature_eq f1 f3 = Ok true))
  /\ Feature_eq f1 f2 = Feature_eq f2 f1
  /\ (type f1 <> type f2 \/ coordinates (geometry f1) <> coordinates (geometry f2) ->
      Feature_eq f1 f2 = Ok false)
  /\ (Feature_eq f1 f2 = Ok true -> exists k, hash_key f1 = Ok k /\ hash_key f2 = Ok k).
Proof.
  split; [|split; [|split]].
  - intros k1 k2 Hk1 Hk2. split; [by apply Feature_eq_hash|].
    split; [by apply (Feature_eq_hash f1 f1 k1 k1)|].
    rewrite !Feature_eq_unfold.
    destruct (decide _) as [(Ht & Hla & Hlo)|]; [|discriminate].
    destruct (properties f1 !! "captured_at") as [c1|]; [|discriminate].
    destruct (properties f2 !! "captured_at") as [c2|]; [|discriminate].
    case_bool_decide as Hc; [|discriminate]. intros _.
    destruct (decide _) as [(Ht' & Hla' & Hlo')|]; [|discriminate].
    destruct (properties f3 !! "captured_at") as [c3|]; [|discriminate].
    case_bool_decide as Hc'; [|discriminate]. intros _.
    rewrite decide_True by (repeat split; congruence).
    by rewrite bool_decide_eq_true_2 by congruence.
  - rewrite !Feature_eq_unfold.
    destruct (decide _) as [(Ht & Hla & Hlo)|Hn].
    + rewrite decide_True by done.
      destruct (properties f1 !! "captured_at") as [c1|],
               (properties f2 !! "captured_at") as [c2|]; try done.
      f_equal. apply bool_decide_ext. split; congruence.
    + rewrite decide_False; [done|]. intros (? & ? & ?). by apply Hn.
  - intros Hne. rewrite Feature_eq_unfold. rewrite decide_False; [done|].
    intros (Ht & Hla & Hlo). destruct Hne as [Hne|Hne]; [done|]. apply Hne.
    destruct (coordinates (geometry f1)), (coordinates (geometry f2)). simpl in *. congruence.
  - rewrite Feature_eq_unfold. destruct (decide _) as [(Ht & Hla & Hlo)|]; [|discriminate].
    unfold hash_key, captured_at, mbind, result_bind, bind.
    destruct (properties f1 !! "captured_at") as [c1|]; [|discriminate].
    destruct (properties f2 !! "captured_at") as [c2|]; [|discriminate].
    case_bool_decide as Hc; [|discriminate]. intros _. eexists. split; [done|].
    by rewrite Ht, Hla, Hlo, Hc.
Qed.

Lemma mapM_result_Ok_inv {A B} (f : A -> result B) (l : list A) (k : list B) :
  mapM f l = Ok k <-> Forall2 (fun x y => f x = Ok y) l k.
Proof.
  revert k. induction l as [|x l IH]; intros k.
  - split; [intros [= <-]; constructor|by intros ->%Forall2_nil_inv_l].
  - rewrite mapM_result_cons. split.
    + destruct (f x) as [y|] eqn:Hx; [|discriminate].
      destruct (mapM f l) as [k'|]; [|discriminate].
      intros [= <-]. constructor; [done|]. by apply IH.
    + intros (y & k' & Hx & Hl & ->)%Forall2_cons_inv_l.
      rewrite Hx. apply IH in Hl. by rewrite Hl.
Qed.

Lemma mapM_result_Raise_inv {A B} (f : A -> result B) (l : list A) (e : exn) :
  mapM f l = Raise e -> exists x, x ∈ l /\ f x = Raise e.
Proof.
  induction l as [|x l IH]; [discriminate|].
  rewrite mapM_result_cons. destruct (f x) as [y|e'] eqn:Hx.
  - destruct (mapM f l) as [k|e']; [discriminate|].
    intros [= ->]. destruct (IH eq_refl) as (x' & Hin & Hx'). exists x'. split; [by right|done].
  - intros [= ->]. exists x. split; [left|done].
Qed.

Lemma mapM_result_Ok_elem {A B} (f : A -> result B) (l : list A) (k : list B) :
  mapM f l = Ok k -> forall x, x ∈ l -> exists y, f x = Ok y.
Proof.
  intros Hm%mapM_result_Ok_inv x Hx.
  apply list_elem_of_lookup in Hx as [i Hi].
  destruct (Forall2_lookup_l _ _ _ _ _ Hm Hi) as (y & _ & Hy). by exists y.
Qed.

Lemma Properties_init_Ok (ps : gmap string pyval) : settable ps -> Properties_init ps = Ok ps.
Proof.
  intros Hs. unfold Properties_init.
  rewrite !bool_decide_eq_false_2; [done|..]; rewrite Hs; try (by intros []);
    unfold refused; set_solver.
Qed.

Lemma Properties_init_inv (ps ps' : gmap string pyval) :
  Properties_init ps = Ok ps' -> ps' = ps /\ settable ps.
Proof.
  unfold Properties_init. repeat case_bool_decide; try discriminate.
  intros [= <-]. split; [done|]. intros key Hkey. unfold refused in Hkey.
  apply elem_of_cons in Hkey as [->|Hkey]; [by apply eq_None_not_Some|].
  apply elem_of_cons in Hkey as [->|Hkey]; [by apply eq_None_not_Some|].
  apply list_elem_of_singleton in Hkey as ->. by apply eq_None_not_Some.
Qed.

Lemma Feature_init_Ok fd :
  buildable fd -> exists f, Feature_init fd = Ok f
    /\ type f = "Feature" /\ properties f = fd_properties fd.
Proof.
  intros [Hlen Hset]. unfold Feature_init.
  destruct (fd_coordinates fd) as [|lon [|lat cs]]; simpl in Hlen; try lia.
  rewrite (Properties_init_Ok _ Hset). by eexists.
Qed.

Lemma Feature_init_Raise fd :
  (length (fd_coordinates fd) < 2)%nat -> Feature_init fd = Raise IndexError.
Proof.
  unfold Feature_init. destruct (fd_coordinates fd) as [|lon [|lat cs]]; simpl; try lia; done.
Qed.

Lemma Feature_init_inv fd f :
  Feature_init fd = Ok f ->
  type f = "Feature" /\ properties f = fd_properties fd
  /\ geometry_type (geometry f) = fd_geometry_type fd
  /\ (exists cs, fd_coordinates fd
                 = longitude (coordinates (geometry f)) :: latitude (coordinates (geometry f)) :: cs)
  /\ buildable fd.
Proof.
  unfold Feature_init, buildable.
  destruct (fd_coordinates fd) as [|lon [|lat cs]]; try discriminate.
  unfold mbind, result_bind, bind.
  destruct (Properties_init (fd_properties fd)) as [ps|] eqn:Hps; [|discriminate].
  apply Properties_init_inv in Hps as [-> Hset].
  intros [= <-]. simpl. repeat split; [by exists cs|lia|done].
Qed.

Lemma Feature_init_refused fd :
  (2 <= length (fd_coordinates fd))%nat ->
  (is_Some (fd_properties fd !! "__class__") \/ is_Some (fd_properties fd !! "__dict__") ->
   exists msg, Feature_init fd = Raise (Py.TypeError msg))
  /\ (is_Some (fd_properties fd !! "__weakref__") ->
      fd_properties fd !! "__class__" = None -> fd_properties fd !! "__dict__" = None ->
      Feature_init fd = Raise (AttributeError "__weakref__")).
Proof.
  intros Hlen. unfold Feature_init.
  destruct (fd_coordinates fd) as [|lon [|lat cs]]; simpl in Hlen; try lia.
  unfold Properties_init, mbind, result_bind, bind. split.
  - intros [Hc|Hd].
    + rewrite bool_decide_eq_true_2 by done. by eexists.
    + case_bool_decide; [by eexists|]. rewrite bool_decide_eq_true_2 by done. by eexists.
  - intros Hw Hc Hd.
    rewrite !bool_decide_eq_false_2 by (rewrite ?Hc, ?Hd; by intros []).
    by rewrite bool_decide_eq_true_2.
Qed.

Lemma mapM_result_first_Raise {A B} (f : A -> result B) (before : list A) (x : A)
    (rest : list A) (e : exn) :
  Forall (fun x' => exists y, f x' = Ok y) before -> f x = Raise e ->
  mapM f (before ++ x :: rest) = Raise e.
Proof.
  intros Hb Hx. induction Hb as [|x' before [y Hy] _ IH]; cbn [app].
  - by rewrite mapM_result_cons, Hx.
  - by rewrite mapM_result_cons, Hy, IH.
Qed.

(** X5.  The outcome of the constructor [GeoJSON(geojson)], by the feature
    dictionaries it is given.  It raises at the first dictionary that
    cannot be built: [IndexError] when this one has fewer than two
    coordinates; else [TypeError] when it has a property named [__class__]
    or [__dict__] and none named [__weakref__]; [AttributeError] when it
    has a property named [__weakref__] and none of the other two.  When
    every dictionary can be built, a dictionary without the property
    [captured_at] makes the constructor raise [AttributeError] (the set of
    line 433 hashes every feature).  Otherwise it returns an object that
    lists one feature per dictionary, in order, duplicates included, each
    with its hashed tuple in the set. *)
Theorem X5_GeoJSON_init_outcome (t : string) (fds : list (@feature_dict coord)) :
  (forall before fd rest,
     fds = before ++ fd :: rest -> Forall buildable before ->
     ((length (fd_coordinates fd) < 2)%nat -> GeoJSON_init t fds = Raise IndexError)
     /\ ((2 <= length (fd_coordinates fd))%nat ->
         is_Some (fd_properties fd !! "__class__") \/ is_Some (fd_properties fd !! "__dict__") ->
         fd_properties fd !! "__weakref__" = None ->
         exists msg, GeoJSON_init t fds = Raise (Py.TypeError msg))
     /\ ((2 <= length (fd_coordinates fd))%nat ->
         is_Some (fd_properties fd !! "__weakref__") ->
         fd_properties fd !! "__class__" = None -> fd_properties fd !! "__dict__" = None ->
         GeoJSON_init t fds = Raise (AttributeError "__weakref__")))
  /\ (Forall buildable fds ->
      Exists (fun fd => fd_properties fd !! "captured_at" = None) fds ->
      GeoJSON_init t fds = Raise (AttributeError "captured_at"))
  /\ (Forall (fun fd => buildable fd /\ is_Some (fd_properties fd !! "captured_at")) fds ->
      exists g, GeoJSON_init t fds = Ok g
        /\ gj_type g = t
        /\ length (features g) = length fds
        /\ forall i fd, fds !! i = Some fd ->
             exists f k, features g !! i = Some f /\ Feature_init fd = Ok f
                         /\ hash_key f = Ok k /\ k ∈ features_set g).
Proof.
  unfold GeoJSON_init. split; [|split].
  - intros before fd rest -> Hbefore.
    assert (Hfirst : forall e, Feature_init fd = Raise e ->
                               mapM Feature_init (before ++ fd :: rest) = Raise e).
    { intros e He. apply mapM_result_first_Raise; [|done].
      eapply Forall_impl; [exact Hbefore|]. intros fd' Hfd'.
      destruct (Feature_init_Ok fd' Hfd') as (f & Hf & _). by exists f. }
    split; [|split].
    + intros Hshort. by rewrite (Hfirst _ (Feature_init_Raise fd Hshort)).
    + intros Hlen Hcd _. destruct (proj1 (Feature_init_refused fd Hlen) Hcd) as [msg Hmsg].
      exists msg. by rewrite (Hfirst _ Hmsg).
    + intros Hlen Hw Hc Hd.
      by rewrite (Hfirst _ (proj2 (Feature_init_refused fd Hlen) Hw Hc Hd)).
  - unfold mbind, result_bind, bind.
    intros Hall Hex. destruct (mapM Feature_init fds) as [fs|e] eqn:Hm.
    2:{ apply mapM_result_Raise_inv in Hm as (fd & Hin & Hfd).
        rewrite Forall_forall in Hall.
        destruct (Feature_init_Ok fd (Hall fd Hin)) as (f & Hf & _). congruence. }
    destruct (mapM hash_key fs) as [keys|e] eqn:Hk.
    + exfalso. apply Exists_exists in Hex as (fd & Hin & Hc).
      apply mapM_result_Ok_inv in Hm.
      apply list_elem_of_lookup in Hin as [i Hi].
      destruct (Forall2_lookup_l _ _ _ _ _ Hm Hi) as (f & Hfi & Hf).
      apply list_elem_of_lookup_2 in Hfi.
      destruct (mapM_result_Ok_elem _ _ _ Hk f Hfi) as [k Hfk].
      apply Feature_init_inv in Hf as (_ & Hp & _).
      rewrite hash_key_None in Hfk by (by rewrite Hp). discriminate.
    + apply mapM_result_Raise_inv in Hk as (f & _ & Hf).
      revert Hf. unfold hash_key, captured_at, mbind, result_bind, bind.
      destruct (properties f !! "captured_at"); [discriminate|]. by intros [= <-].
  - unfold mbind, result_bind, bind.
    intros Hall. rewrite Forall_forall in Hall.
    destruct (mapM Feature_init fds) as [fs|e] eqn:Hm.
    2:{ apply mapM_result_Raise_inv in Hm as (fd & Hin & Hfd).
        destruct (Feature_init_Ok fd (proj1 (Hall fd Hin))) as (f & Hf & _). congruence. }
    pose proof Hm as Hm2%mapM_result_Ok_inv.
    assert (Hfs : forall f, f ∈ fs -> is_Some (properties f !! "captured_at")).
    { intros f [i Hi]%list_elem_of_lookup.
      destruct (Forall2_lookup_r _ _ _ _ _ Hm2 Hi) as (fd & Hfd & Hf).
      apply Feature_init_inv in Hf as (_ & -> & _).
      apply Hall. by eapply list_elem_of_lookup_2. }
    destruct (mapM hash_key fs) as [keys|e] eqn:Hk.
    2:{ apply mapM_result_Raise_inv in Hk as (f & Hin & Hf).
        destruct (hash_key_Some f (Hfs f Hin)) as [k Hk']. congruence. }
    eexists. split; [done|]. simpl. split; [done|].
    split; [symmetry; by eapply Forall2_length|].
    intros i fd Hi. destruct (Forall2_lookup_l _ _ _ _ _ Hm2 Hi) as (f & Hfi & Hf).
    pose proof (list_elem_of_lookup_2 _ _ _ Hfi) as Hin.
    destruct (hash_key_Some f (Hfs f Hin)) as [k Hk'].
    exists f, k. repeat split; try done.
    apply (mapM_hash_key fs keys Hk). by exists f.
Qed.

Lemma append_feature_prefix g fd g' :
  append_feature g fd = Ok g' ->
  features g `prefix_of` features g' /\ gj_type g' = gj_type g
  /\ (forall k, k ∈ features_set g -> k ∈ features_set g')
  /\ (forall f, f ∈ features g' -> f ∈ features g \/ Feature_init fd = Ok f)
  /\ exists f k, Feature_init fd = Ok f /\ hash_key f = Ok k /\ k ∈ features_set g'.
Proof.
  intros (feature & k & Hinit & Hk & [[Hin ->]|[Hnin ->]])%append_feature_inv; simpl.
  - split; [done|]. split; [done|]. split; [done|]. split; [by left|]. by exists feature, k.
  - split; [by apply prefix_app_r|]. split; [done|]. split; [by right|].
    split; [|exists feature, k; repeat split; [done..|left]].
    intros f [?|Hs]%elem_of_app; [by left|].
    apply list_elem_of_singleton in Hs as ->. by right.
Qed.

Lemma append_feature_present g fd f k :
  Feature_init fd = Ok f -> hash_key f = Ok k -> k ∈ features_set g ->
  append_feature g fd = Ok g.
Proof.
  intros Hinit Hk Hin. unfold append_feature, mbind, result_bind, bind.
  rewrite Hinit, Hk. by rewrite bool_decide_eq_true_2.
Qed.

Lemma append_feature_no_dup g fd g' :
  mirrors g -> append_feature g fd = Ok g' ->
  no_duplicates (features g) -> no_duplicates (features g').
Proof.
  intros Hm (feature & k & Hinit & Hk & [[_ ->]|[Hnin ->]])%append_feature_inv Hnd; [done|].
  pose proof (has_equal_in_set g feature k Hm Hk) as Heq. destruct Hm as [_ Hall].
  simpl. intros i j f1 f2 Hi Hj Hf.
  apply lookup_app_Some in Hi as [Hi|[Hli Hi]];
    apply lookup_app_Some in Hj as [Hj|[Hlj Hj]].
  - by eapply Hnd.
  - apply list_lookup_singleton_Some in Hj as [_ <-].
    destruct Hnin. apply Heq. exists f1. split; [|done]. by eapply list_elem_of_lookup_2.
  - apply list_lookup_singleton_Some in Hi as [_ <-].
    destruct Hnin. apply Heq. exists f2. split; [by eapply list_elem_of_lookup_2|].
    apply list_elem_of_lookup_2 in Hj. destruct (Hall f2 Hj) as [k2 Hk2].
    apply (Feature_eq_hash f2 feature k2 k Hk2 Hk). symmetry.
    by apply (Feature_eq_hash feature f2 k k2 Hk Hk2).
  - apply list_lookup_singleton_Some in Hi as [Hi _].
    apply list_lookup_singleton_Some in Hj as [Hj _]. lia.
Qed.

Lemma append_features_fixed g fds :
  (forall fd, fd ∈ fds ->
     exists f k, Feature_init fd = Ok f /\ hash_key f = Ok k /\ k ∈ features_set g) ->
  append_features g fds = (g, None).
Proof.
  induction fds as [|fd fds IH]; intros Hall; [done|]. simpl.
  destruct (Hall fd) as (f & k & Hinit & Hk & Hin); [left|].
  rewrite (append_feature_present g fd f k) by done. apply IH.
  intros fd' Hfd'. apply Hall. by right.
Qed.

(** X6.  [append_features] on an object built by the constructor and
    extended by appends.  The loop only extends the list: the features
    listed before stay in front, the type is kept, a list without two equal
    features stays so, and every listed feature was listed before or is
    built from one of the dictionaries.  When the loop ends normally, every
    dictionary has a feature equal to its own in the list, and a second
    call with the same list of dictionaries changes nothing.  When a
    dictionary makes [append_feature] raise, the dictionaries before it
    have been appended: the call is not undone. *)
Theorem X6_append_features_extends g (fds : list (@feature_dict coord)) g' err :
  reachable g ->
  append_features g fds = (g', err) ->
  reachable g'
  /\ features g `prefix_of` features g'
  /\ gj_type g' = gj_type g
  /\ (no_duplicates (features g) -> no_duplicates (features g'))
  /\ (forall f, f ∈ features g' ->
        f ∈ features g \/ exists fd, fd ∈ fds /\ Feature_init fd = Ok f)
  /\ (err = None ->
      (forall fd, fd ∈ fds ->
         exists f, Feature_init fd = Ok f /\ has_equal (features g') f)
      /\ append_features g' fds = (g', None))
  /\ (forall e, err = Some e ->
        exists before fd rest,
          fds = before ++ fd :: rest
          /\ append_features g before = (g', None)
          /\ append_feature g' fd = Raise e).
Proof.
  intros Hreach Happ.
  assert (Hmain : reachable g'
            /\ features g `prefix_of` features g'
            /\ gj_type g' = gj_type g
            /\ (no_duplicates (features g) -> no_duplicates (features g'))
            /\ (forall f, f ∈ features g' ->
                  f ∈ features g \/ exists fd, fd ∈ fds /\ Feature_init fd = Ok f)
            /\ (forall k, k ∈ features_set g -> k ∈ features_set g')
            /\ (err = None ->
                forall fd, fd ∈ fds ->
                  exists f k, Feature_init fd = Ok f /\ hash_key f = Ok k /\ k ∈ features_set g')
            /\ (forall e, err = Some e ->
                  exists before fd rest,
                    fds = before ++ fd :: rest
                    /\ append_features g before = (g', None)
                    /\ append_feature g' fd = Raise e)).
  { revert g Hreach Happ. induction fds as [|fd fds IH]; intros g Hreach; simpl.
    - intros [= <- <-]. repeat split; try done.
      + by left.
      + by intros _ fd ?%elem_of_nil.
    - destruct (append_feature g fd) as [g1|e1] eqn:H1.
      + intros Happ.
        destruct (append_feature_prefix g fd g1 H1) as (Hpre & Hty & Hkeys & Hfrom & Hkey).
        destruct (IH g1 (reachable_append g fd g1 Hreach H1) Happ)
          as (Hr & Hpre' & Hty' & Hnd' & Hfrom' & Hkeys' & Hok & Herr).
        split; [done|]. split; [by etrans|]. split; [congruence|].
        split; [intros Hnd; apply Hnd';
                by apply (append_feature_no_dup g fd g1 (reachable_mirrors g Hreach) H1)|].
        split; [|split; [|split]].
        * intros f Hf. destruct (Hfrom' f Hf) as [Hf1|(fd' & Hfd' & Hf')].
          -- destruct (Hfrom f Hf1) as [?|?]; [by left|].
             right. exists fd. split; [left|done].
          -- right. exists fd'. split; [by right|done].
        * intros k Hk. by apply Hkeys', Hkeys.
        * intros -> fd' [->|Hfd']%elem_of_cons; [|by apply Hok].
          destruct Hkey as (f & k & ? & ? & ?). exists f, k. repeat split; try done.
          by apply Hkeys'.
        * intros e He. destruct (Herr e He) as (before & fd' & rest & -> & Hb & Hfail).
          exists (fd :: before), fd', rest. split; [done|]. split; [|done].
          simpl. by rewrite H1.
      + intros [= <- <-]. repeat split; try done.
        * by left.
        * intros e [= <-]. by exists [], fd, fds. }
  destruct Hmain as (Hr & Hpre & Hty & Hnd & Hfrom & Hkeys & Hok & Herr).
  split; [done|]. split; [done|]. split; [done|]. split; [done|]. split; [done|].
  split; [|done]. intros He. split.
  - intros fd Hfd. destruct (Hok He fd Hfd) as (f & k & Hinit & Hk & Hin).
    exists f. split; [done|].
    by apply (has_equal_in_set g' f k (reachable_mirrors g' Hr) Hk).
  - apply append_features_fixed. by apply Hok.
Qed.

Lemma mapM_outcome_cons {A B} (f : A -> outcome B) (x : A) (l : list A) :
  mapM f (x :: l)
  = match f x with
    | Done y => match mapM f l with
                | Done k => Done (y :: k)
                | Fail e => Fail e
                end
    | Fail e => Fail e
    end.
Proof. reflexivity. Qed.

Lemma mapM_outcome_Done {A B} (f : A -> outcome B) (h : A -> B) (l : list A) :
  (forall x, x ∈ l -> f x = Done (h x)) -> mapM f l = Done (map h l).
Proof.
  induction l as [|x l IH]; intros Hf; [done|].
  rewrite mapM_outcome_cons, (Hf x) by left. rewrite IH; [done|].
  intros y Hy. apply Hf. by right.
Qed.

Lemma mapM_result_Ok_map {A B} (f : A -> result B) (h : A -> B) (l : list A) :
  (forall x, x ∈ l -> f x = Ok (h x)) -> mapM f l = Ok (map h l).
Proof.
  induction l as [|x l IH]; intros Hf; [done|].
  rewrite mapM_result_cons, (Hf x) by left. rewrite IH; [done|].
  intros y Hy. apply Hf. by right.
Qed.

Lemma reachable_types g : reachable g -> forall f, f ∈ features g -> type f = "Feature".
Proof.
  induction 1 as [t fds g Hinit|g fd g' _ IH Happ]; intros f Hf.
  - revert Hinit. unfold GeoJSON_init, mbind, result_bind, bind.
    destruct (mapM Feature_init fds) as [fs|] eqn:Hm; [|discriminate].
    destruct (mapM hash_key fs) as [keys|]; [|discriminate]. intros [= <-]. simpl in Hf.
    apply mapM_result_Ok_inv in Hm. apply list_elem_of_lookup in Hf as [i Hi].
    destruct (Forall2_lookup_r _ _ _ _ _ Hm Hi) as (fd & _ & Hfd).
    by apply Feature_init_inv in Hfd as (? & _).
  - destruct (append_feature_prefix g fd g' Happ) as (_ & _ & _ & Hfrom & _).
    destruct (Hfrom f Hf) as [?|Hfd]; [by apply IH|].
    by apply Feature_init_inv in Hfd as (? & _).
Qed.

Lemma Properties_to_dict_lookup (props : gmap string pyval) (key : string) :
  startswith_dunder key = false -> key <> "to_dict" ->
  Properties_to_dict props !! key = props !! key.
Proof.
  intros Hd Hk. unfold Properties_to_dict.
  destruct (props !! key) as [v|] eqn:Hv.
  - by apply map_lookup_filter_Some.
  - apply map_lookup_filter_None. by left.
Qed.

Lemma Properties_to_dict_idem (props : gmap string pyval) :
  Properties_to_dict (Properties_to_dict props) = Properties_to_dict props.
Proof.
  unfold Properties_to_dict. apply map_eq. intros key.
  destruct (filter _ props !! key) as [v|] eqn:Hv.
  - apply map_lookup_filter_Some. split; [done|].
    by apply map_lookup_filter_Some in Hv as [_ ?].
  - apply map_lookup_filter_None. by left.
Qed.

Lemma Properties_to_dict_id (props : gmap string pyval) :
  (forall key, is_Some (props !! key) -> startswith_dunder key = false /\ key <> "to_dict") ->
  Properties_to_dict props = props.
Proof.
  intros Hk. unfold Properties_to_dict. apply map_eq. intros key.
  destruct (props !! key) as [v|] eqn:Hv.
  - apply map_lookup_filter_Some. split; [done|]. apply (Hk key). by rewrite Hv.
  - apply map_lookup_filter_None. by left.
Qed.

Lemma Properties_to_dict_no_method (props : gmap string pyval) :
  Properties_to_dict props !! "to_dict" = None.
Proof.
  unfold Properties_to_dict. apply map_lookup_filter_None. right. intros v _ [_ Hne]. done.
Qed.

Lemma Properties_to_dict_settable (props : gmap string pyval) :
  settable (Properties_to_dict props).
Proof.
  intros key Hkey. unfold Properties_to_dict. apply map_lookup_filter_None. right.
  intros v _ [Hd _]. simpl in Hd. unfold refused in Hkey.
  repeat (apply elem_of_cons in Hkey as [->|Hkey]; [discriminate Hd|]).
  by apply elem_of_nil in Hkey.
Qed.

(** X7.  [to_dict] and back.  On an object built by the constructor and
    extended by appends, none of whose features has a property named
    [to_dict], [GeoJSON.to_dict] returns a dictionary with the type of the
    object and one feature dictionary per listed feature.  The constructor
    takes this dictionary: the object it builds has the same type, lists the
    same features in the same order, each without the properties whose name
    starts with [__] (so the very same features when there is no such
    property), holds the same hashed tuples in its set, and its own
    [to_dict] gives the same dictionary again. *)
Theorem X7_to_dict_and_back g :
  reachable g ->
  (forall f, f ∈ features g -> properties f !! "to_dict" = None) ->
  exists d g',
    GeoJSON_to_dict g = Done d
    /\ fst d = gj_type g
    /\ length (snd d) = length (features g)
    /\ GeoJSON_of_dict d = Ok g'
    /\ gj_type g' = gj_type g
    /\ features g'
       = map (fun f => {| type := type f; geometry := geometry f;
                          properties := Properties_to_dict (properties f) |}) (features g)
    /\ (forall k, k ∈ features_set g' <-> k ∈ features_set g)
    /\ GeoJSON_to_dict g' = Done d
    /\ ((forall f key, f ∈ features g -> is_Some (properties f !! key) ->
           startswith_dunder key = false) ->
        features g' = features g).
Proof.
  intros Hreach Hnm.
  pose proof (reachable_mirrors g Hreach) as [Hset Hall].
  pose proof (reachable_types g Hreach) as Hty.
  set (enc := fun f : @Feature coord =>
                (type f,
                 {| fd_geometry_type := geometry_type (geometry f);
                    fd_coordinates := Coordinates_to_list (coordinates (geometry f));
                    fd_properties := Properties_to_dict (properties f) |})).
  set (strip := fun f : @Feature coord =>
                  {| type := type f; geometry := geometry f;
                     properties := Properties_to_dict (properties f) |}).
  assert (Henc : forall fs : list (@Feature coord),
            (forall f, f ∈ fs -> properties f !! "to_dict" = None) ->
            mapM Feature_to_dict fs = Done (map enc fs)).
  { intros fs Hfs. apply mapM_outcome_Done. intros f Hf. unfold Feature_to_dict.
    rewrite bool_decide_eq_false_2; [done|]. rewrite (Hfs f Hf). by intros [? ?]. }
  assert (Hinit : mapM Feature_init (map snd (map enc (features g)))
                  = Ok (map strip (features g))).
  { rewrite map_map. apply mapM_result_Ok_inv, Forall2_fmap, Forall_Forall2_diag, Forall_forall.
    intros f Hf. unfold enc, strip, Feature_init. simpl.
    rewrite (Properties_init_Ok _ (Properties_to_dict_settable _)), (Hty f Hf).
    by destruct f as [? [? []] ?]. }
  assert (Hkey : forall f, hash_key (strip f) = hash_key f).
  { intros f. unfold hash_key, captured_at, strip. simpl.
    by rewrite Properties_to_dict_lookup. }
  assert (exists keys, mapM hash_key (map strip (features g)) = Ok keys) as [keys Hkeys].
  { destruct (mapM hash_key (map strip (features g))) as [keys|e] eqn:Hm; [by eexists|].
    apply mapM_result_Raise_inv in Hm as (f' & (f & -> & Hf)%list_elem_of_fmap & Hfail).
    rewrite Hkey in Hfail. destruct (Hall f Hf) as [k Hk]. congruence. }
  eexists (gj_type g, map enc (features g)), _.
  split; [unfold GeoJSON_to_dict; by rewrite (Henc _ Hnm)|].
  split; [done|]. split; [simpl; by rewrite length_map|].
  split.
  { unfold GeoJSON_of_dict, GeoJSON_init. cbn [fst snd]. rewrite Hinit.
    unfold mbind at 1, result_bind at 1, bind. rewrite Hkeys. reflexivity. }
  simpl. split; [done|]. split; [done|]. split; [|split].
  - intros k. rewrite (proj1 (mapM_hash_key _ _ Hkeys)), Hset. split.
    + intros (f' & (f & -> & Hf)%list_elem_of_fmap & Hk). rewrite Hkey in Hk. by exists f.
    + intros (f & Hf & Hk). exists (strip f). split; [|by rewrite Hkey].
      apply list_elem_of_fmap. by exists f.
  - unfold GeoJSON_to_dict. simpl. rewrite Henc.
    + rewrite map_map. unfold mbind, outcome_bind. do 2 f_equal.
      apply map_ext. intros f. unfold enc, strip. simpl.
      by rewrite Properties_to_dict_idem.
    + intros f' (f & -> & _)%list_elem_of_fmap. apply Properties_to_dict_no_method.
  - intros Hd. rewrite <- (map_id (features g)) at 2. apply map_ext_in.
    intros f Hf%list_elem_of_In. unfold strip. rewrite Properties_to_dict_id.
    + by destruct f.
    + intros key Hkey'. split; [by eapply Hd|]. intros ->.
      rewrite (Hnm f Hf) in Hkey'. by destruct Hkey'.
Qed.
End GeoJSONMoreFacts.

Section GeoJSONMoreWitness.
Import Py PyMore GeoJSON GeoJSONDict Samples.

Lemma X7_to_dict_witness :
  reachable sample_geojson'
  /\ exists d g',
    GeoJSON_to_dict sample_geojson' = Done d
    /\ fst d = gj_type sample_geojson'
    /\ length (snd d) = length (features sample_geojson')
    /\ GeoJSON_of_dict d = Ok g'
    /\ gj_type g' = gj_type sample_geojson'
    /\ features g'
       = map (fun f => {| type := type f; geometry := geometry f;
                          properties := Properties_to_dict (properties f) |})
           (features sample_geojson')
    /\ (forall k, k ∈ features_set g' <-> k ∈ features_set sample_geojson')
    /\ GeoJSON_to_dict g' = Done d
    /\ ((forall f key, f ∈ features sample_geojson' -> is_Some (properties f !! key) ->
           startswith_dunder key = false) ->
        features g' = features sample_geojson').
Proof.
  assert (Hreach : reachable sample_geojson').
  { apply (reachable_append sample_geojson (sample_fd 104 2 6)); [|reflexivity].
    apply (reachable_init "FeatureCollection" [sample_fd 103 1 5]). reflexivity. }
  split; [exact Hreach|].
  apply (X7_to_dict_and_back sample_geojson' Hreach).
  intros f Hf. unfold sample_geojson' in Hf. simpl in Hf.
  repeat (apply elem_of_cons in Hf as [->|Hf]; [reflexivity|]).
  by apply elem_of_nil in Hf.
Defined.

Lemma X6_append_features_witness :
  let g := sample_geojson in
  let fds := [sample_fd 104 2 6; sample_fd 103 1 5; sample_fd 104 2 6] in
  reachable sample_geojson'
  /\ features g `prefix_of` features sample_geojson'
  /\ gj_type sample_geojson' = gj_type g
  /\ (no_duplicates (features g) -> no_duplicates (features sample_geojson'))
  /\ (forall f, f ∈ features sample_geojson' ->
        f ∈ features g \/ exists fd, fd ∈ fds /\ Feature_init fd = Ok f)
  /\ (@None exn = None ->
      (forall fd, fd ∈ fds ->
         exists f, Feature_init fd = Ok f /\ has_equal (features sample_geojson') f)
      /\ append_features sample_geojson' fds = (sample_geojson', None))
  /\ (forall e, None = Some e ->
        exists before fd rest,
          fds = before ++ fd :: rest
          /\ append_features g before = (sample_geojson', None)
          /\ append_feature sample_geojson' fd = Raise e).
Proof.
  apply (X6_append_features_extends sample_geojson
           [sample_fd 104 2 6; sample_fd 103 1 5; sample_fd 104 2 6] sample_geojson' None).
  - apply (reachable_init "FeatureCollection" [sample_fd 103 1 5]). reflexivity.
  - reflexivity.
Defined.

Lemma X4_feature_eq_witness :
  Feature_eq (sample_Feature 103 1 5) (sample_Feature 103 1 5) = Ok true
  /\ Feature_eq (sample_Feature 103 1 5) (sample_Feature 104 2 6) = Ok false.
Proof.
  destruct (X4_feature_eq_consistent_with_hash (sample_Feature 103 1 5)
              (sample_Feature 104 2 6) (sample_Feature 103 1 5)) as (H1 & _ & H3 & _).
  split.
  - destruct (H1 _ _ eq_refl eq_refl) as (_ & Hrefl & _). exact Hrefl.
  - apply H3. right. intros [=].
Defined.

Lemma sample_fd_buildable (lon lat captured : Z) : buildable (sample_fd lon lat captured).
Proof.
  split; [simpl; lia|]. intros key Hkey. unfold refused in Hkey. simpl.
  repeat (apply elem_of_cons in Hkey as [->|Hkey]; [by apply lookup_singleton_ne|]).
  by apply elem_of_nil in Hkey.
Qed.

Lemma X5_GeoJSON_init_witness :
  (exists g, GeoJSON_init "FeatureCollection" [sample_fd 103 1 5; sample_fd 103 1 5] = Ok g
             /\ length (features g) = 2%nat)
  /\ GeoJSON_init "FeatureCollection"
       [sample_fd 103 1 5;
        {| fd_geometry_type := "Point"; fd_coordinates := [103]; fd_properties := ∅ |}]
     = Raise IndexError
  /\ exists msg,
       GeoJSON_init "FeatureCollection"
         [sample_fd 103 1 5;
          {| fd_geometry_type := "Point"; fd_coordinates := [103; 1];
             fd_properties := {["__class__" := PInt 5]} |}]
       = Raise (Py.TypeError msg).
Proof.
  split; [|split].
  - destruct (X5_GeoJSON_init_outcome "FeatureCollection"
                [sample_fd 103 1 5; sample_fd 103 1 5]) as (_ & _ & H3).
    destruct H3 as (g & Hg & _ & Hlen & _).
    + repeat constructor; try apply sample_fd_buildable; by eexists.
    + exists g. split; [exact Hg|exact Hlen].
  - destruct (X5_GeoJSON_init_outcome "FeatureCollection"
                [sample_fd 103 1 5;
                 {| fd_geometry_type := "Point"; fd_coordinates := [103];
                    fd_properties := ∅ |}]) as (H1 & _).
    destruct (H1 [sample_fd 103 1 5] _ [] eq_refl) as (Hshort & _).
    + repeat constructor; apply sample_fd_buildable.
    + apply Hshort. simpl. lia.
  - destruct (X5_GeoJSON_init_outcome "FeatureCollection"
                [sample_fd 103 1 5;
                 {| fd_geometry_type := "Point"; fd_coordinates := [103; 1];
                    fd_properties := {["__class__" := PInt 5]} |}]) as (H1 & _).
    destruct (H1 [sample_fd 103 1 5] _ [] eq_refl) as (_ & Hrefused & _).
    + repeat constructor; apply sample_fd_buildable.
    + apply Hrefused; [simpl; lia|left; by eexists|reflexivity].
Defined.
End GeoJSONMoreWitness.

(** ** The image fetch of [GSVDownloader] and the log *)

Section FetchFacts.
Import Py PyMore Frame Dates BaseDownloader Series GSVFetch MoreSamples.

Lemma unique_spec (values : list pyval) :
  NoDup (unique values) /\ forall v, v ∈ unique values <-> v ∈ values.
Proof.
  unfold unique. revert values.
  assert (H : forall (values seen : list pyval),
            NoDup (unique_from seen values)
            /\ forall v, v ∈ unique_from seen values <-> v ∈ values /\ v ∉ seen).
  { induction values as [|x values IH]; intros seen; simpl.
    - split; [constructor|]. intros v. split; [by intros ?%elem_of_nil|].
      by intros [?%elem_of_nil _].
    - destruct (IH seen) as (Hnd & Hin). destruct (IH (x :: seen)) as (Hnd' & Hin').
      case_bool_decide as Hx.
      + split; [done|]. intros v. rewrite Hin, elem_of_cons.
        split; [intros [? ?]; by split; [right|]|].
        intros [[->|?] Hv]; [done|by split].
      + split.
        * apply NoDup_cons. split; [|done]. rewrite Hin'. intros [_ Hn]. apply Hn. by left.
        * intros v. rewrite !elem_of_cons, Hin', not_elem_of_cons.
          split.
          -- intros [->|(? & ? & ?)]; [by split; [left|]|by split; [right|]].
          -- intros [[->|Hv] Hs]; [by left|].
             destruct (decide (v = x)) as [->|Hne]; [by left|right; done]. }
  intros values. destruct (H values []) as [Hnd Hin]. split; [done|].
  intros v. rewrite Hin. split; [by intros [? _]|]. intros ?. split; [done|].
  by intros ?%elem_of_nil.
Qed.

Lemma NoDup_List_filter {A} (p : A -> bool) (l : list A) : NoDup l -> NoDup (List.filter p l).
Proof.
  induction 1 as [|x l Hx Hnd IH]; simpl; [constructor|].
  destruct (p x); [|done]. apply NoDup_cons. split; [|done].
  intros Hin. apply Hx. apply list_elem_of_In, filter_In in Hin as [Hin _].
  by apply list_elem_of_In.
Qed.

Lemma elem_of_List_filter {A} (p : A -> bool) (l : list A) (x : A) :
  x ∈ List.filter p l <-> x ∈ l /\ p x = true.
Proof. rewrite !list_elem_of_In. apply filter_In. Qed.

Lemma check_already_spec (tree : out_tree) (all_panoids : list pyval) :
  NoDup (_check_already tree all_panoids)
  /\ forall p, p ∈ _check_already tree all_panoids
       <-> p ∈ all_panoids /\ forall name, name ∈ file_names tree -> p <> PStr (split_dot_0 name).
Proof.
  unfold _check_already. split; [apply NoDup_List_filter, NoDup_remove_dups|].
  intros p. rewrite elem_of_List_filter, elem_of_remove_dups.
  unfold isin. rewrite negb_true_iff, bool_decide_eq_false. split.
  - intros [Hp Hn]. split; [done|]. intros name Hname ->. apply Hn.
    apply list_elem_of_fmap. eexists. split; [done|].
    apply list_elem_of_fmap. by exists name.
  - intros [Hp Hn]. split; [done|]. intros (s & -> & (name & -> & Hname)%list_elem_of_fmap)%list_elem_of_fmap.
    by apply (Hn name).
Qed.

Lemma list_ascii_of_string_app (s1 s2 : string) :
  list_ascii_of_string (s1 ++ s2) = list_ascii_of_string s1 ++ list_ascii_of_string s2.
Proof. induction s1 as [|c s1 IH]; simpl; [done|]. by rewrite IH. Qed.

Lemma before_first_dot_no_dot (s : list ascii) : "."%char ∉ before_first_dot s.
Proof.
  induction s as [|c s IH]; cbn [before_first_dot]; [by intros ?%elem_of_nil|].
  destruct (decide (c = "."%char)) as [Hc|Hc]; [by intros ?%elem_of_nil|].
  intros [He|?]%elem_of_cons; [by destruct Hc|done].
Qed.

Lemma before_first_dot_app (s rest : list ascii) :
  ("."%char ∉ s) -> before_first_dot (s ++ "."%char :: rest) = s.
Proof.
  induction s as [|c s IH]; intros Hs; cbn [app before_first_dot].
  - by rewrite decide_True.
  - apply not_elem_of_cons in Hs as [Hc Hs]. rewrite decide_False by done. by rewrite IH.
Qed.

(** The name of a file saved for a pano id without a dot gives the id
    back. *)
Lemma split_dot_0_file (pid ext : string) :
  dot_free pid -> split_dot_0 (pid ++ "." ++ ext) = pid.
Proof.
  intros Hp. unfold split_dot_0. rewrite list_ascii_of_string_app. simpl.
  rewrite before_first_dot_app by done. apply string_of_list_ascii_of_string.
Qed.

Lemma split_dot_0_dot_free (name : string) : dot_free (split_dot_0 name).
Proof.
  unfold dot_free, split_dot_0. rewrite list_ascii_of_string_of_list_ascii.
  apply before_first_dot_no_dot.
Qed.

Lemma filter_dated_spec (g : row -> option Z) (df : frame)
    (start_date end_date : option string) (lo hi : option Z) :
  parse_bound "start_date" start_date = Ok lo ->
  parse_bound "end_date" end_date = Ok hi ->
  filter_dated (map (fun r => (r, g r)) df) start_date end_date
  = Ok (map (delete "date") (List.filter (fun r => within lo hi (g r)) df)).
Proof.
  intros Hs He. unfold filter_dated. rewrite Hs, He.
  unfold mbind, result_bind, bind. f_equal. unfold within.
  destruct lo as [l|], hi as [h|].
  - rewrite (filter_map_pair g (fun t => ge_bound t l)).
    rewrite (filter_map_pair g (fun t => le_bound t h)).
    by rewrite filter_filter_andb, map_map.
  - rewrite (filter_map_pair g (fun t => ge_bound t l)), map_map.
    f_equal. apply filter_ext. intros r. by rewrite andb_true_r.
  - rewrite (filter_map_pair g (fun t => le_bound t h)), map_map. done.
  - rewrite map_map. simpl. f_equal. symmetry. apply filter_all. done.
Qed.

(** X8.  The end of a GSV run, on a pid file whose year and month convert,
    with dates [strptime] takes (or none) and at least one user agent.  The
    pano ids handed to the image tool are the values of the first column on
    the rows whose month lies between the bounds, without those for which
    the output tree holds a file whose name, up to its first dot, is the
    id; no id is handed over twice.  An id without a dot is not requested
    once a file [id.ext] is there; an id with a dot is requested whatever
    the tree holds.  The cache directory is removed at the end, unless no
    row lies between the bounds: then the run returns before. *)
Theorem X8_gsv_fetch_requests (user_agents : list string) (tree : out_tree)
    (columns : list string) (c : string) (cs : list string) (pid_df : frame)
    (start_date end_date : option string) (lo hi : option Z) :
  (forall r, r ∈ pid_df -> exists t, to_datetime_ym (cell r "year") (cell r "month") = Ok t) ->
  parse_bound "start_date" start_date = Ok lo ->
  parse_bound "end_date" end_date = Ok hi ->
  List.filter (fun c : string => negb (bool_decide (c = "date"))) columns = c :: cs ->
  user_agents <> [] ->
  let kept := List.filter (fun r => within lo hi (GSVDownloader.capture_instant r)) pid_df in
  exists st,
    fetch_images user_agents tree columns pid_df start_date end_date = Ok st
    /\ NoDup (requested st)
    /\ (forall p, p ∈ requested st
          <-> (exists r, r ∈ kept /\ cell r c = p)
              /\ forall name, name ∈ file_names tree -> p <> PStr (split_dot_0 name))
    /\ (forall pid ext, dot_free pid -> (pid ++ "." ++ ext)%string ∈ file_names tree ->
          PStr pid ∉ requested st)
    /\ (forall pid r, ~ dot_free pid -> r ∈ kept -> cell r c = PStr pid ->
          PStr pid ∈ requested st)
    /\ (cache_deleted st = negb (bool_decide (kept = []))).
Proof.
  intros Hconv Hlo Hhi Hcol Hua kept.
  assert (Hc : c <> "date").
  { assert (Hin : c ∈ List.filter (fun c : string => negb (bool_decide (c = "date"))) columns)
      by (rewrite Hcol; left).
    apply elem_of_List_filter in Hin as [_ Hb].
    by apply negb_true_iff, bool_decide_eq_false in Hb. }
  assert (Hread : _read_pids columns pid_df start_date end_date
                  = Ok (unique (map (fun r : row => cell r c) kept))).
  { unfold _read_pids, GSVDownloader._filter_pids_date.
    rewrite (mapM_dated_Ok _ GSVDownloader.capture_instant).
    2:{ intros r Hr. destruct (Hconv r Hr) as [t Ht].
        by rewrite Ht, (to_datetime_ym_instant r t Ht). }
    unfold mbind, result_bind, bind.
    rewrite (filter_dated_spec _ _ _ _ lo hi Hlo Hhi).
    rewrite Hcol. f_equal. f_equal. fold kept.
    rewrite map_map. apply map_ext. intros r. unfold cell.
    by rewrite lookup_delete_ne. }
  destruct (unique_spec (map (fun r : row => cell r c) kept)) as [Hnd Hin].
  set (ids := unique (map (fun r : row => cell r c) kept)) in *.
  destruct (check_already_spec tree ids) as [Hnd' Hin'].
  assert (Hids : forall p, p ∈ ids <-> exists r, r ∈ kept /\ cell r c = p).
  { intros p. rewrite Hin, list_elem_of_fmap. split; intros (r & ? & ?); by exists r. }
  assert (Hempty : ids = [] <-> kept = []).
  { split.
    - intros Hi. destruct kept as [|r kept']; [done|]. exfalso.
      assert (cell r c ∈ ids) as Hr by (apply Hids; exists r; split; [left|done]).
      rewrite Hi in Hr. by apply elem_of_nil in Hr.
    - intros Hk. destruct ids as [|p ids'] eqn:Hi; [done|]. exfalso.
      assert (p ∈ p :: ids') as Hp by left. apply Hids in Hp as (r & Hr & _).
      rewrite Hk in Hr. by apply elem_of_nil in Hr. }
  assert (Hspec : forall st,
            requested st = _check_already tree ids ->
            NoDup (requested st)
            /\ (forall p, p ∈ requested st
                  <-> (exists r, r ∈ kept /\ cell r c = p)
                      /\ forall name, name ∈ file_names tree -> p <> PStr (split_dot_0 name))
            /\ (forall pid ext, dot_free pid -> (pid ++ "." ++ ext)%string ∈ file_names tree ->
                  PStr pid ∉ requested st)
            /\ (forall pid r, ~ dot_free pid -> r ∈ kept -> cell r c = PStr pid ->
                  PStr pid ∈ requested st)).
  { intros st ->. split; [done|]. split; [|split].
    - intros p. by rewrite Hin', Hids.
    - intros pid ext Hfree Hfile [_ Hn]%Hin'. apply (Hn _ Hfile).
      by rewrite split_dot_0_file.
    - intros pid r Hdot Hr Hcell. apply Hin'. split; [apply Hids; by exists r|].
      intros name _ [= ->]. apply Hdot, split_dot_0_dot_free. }
  unfold fetch_images. rewrite Hread. unfold mbind, result_bind, bind.
  case_bool_decide as Hids0.
  - eexists. split; [done|].
    assert (Hk : kept = []) by by apply Hempty.
    destruct (Hspec {| requested := []; cache_deleted := false |})
      as (H1 & H2 & H3 & H4); [by rewrite Hids0|].
    split; [exact H1|]. split; [exact H2|]. split; [exact H3|]. split; [exact H4|].
    simpl. by rewrite bool_decide_eq_true_2.
  - assert (Hk : kept <> []) by (intros Hk; by apply Hids0, Hempty).
    case_bool_decide as Hrest.
    + eexists. split; [done|].
      destruct (Hspec {| requested := []; cache_deleted := true |}) as (H1 & H2 & H3 & H4);
        [by rewrite Hrest|].
      split; [exact H1|]. split; [exact H2|]. split; [exact H3|]. split; [exact H4|].
      simpl. by rewrite bool_decide_eq_false_2.
    + rewrite bool_decide_eq_false_2 by done. eexists. split; [done|].
      destruct (Hspec {| requested := _check_already tree ids; cache_deleted := true |})
        as (H1 & H2 & H3 & H4); [done|].
      split; [exact H1|]. split; [exact H2|]. split; [exact H3|]. split; [exact H4|].
      simpl. by rewrite bool_decide_eq_false_2.
Qed.

Lemma X8_gsv_fetch_witness :
  let kept :=
    List.filter (fun r => within (Some (midnight_ms (2020, 1, 1))) None
                            (GSVDownloader.capture_instant r)) sample_gsv_pids in
  exists st,
    fetch_images ["Mozilla/5.0"] sample_tree ["panoid"; "year"; "month"] sample_gsv_pids
      (Some "2020-01-01") None = Ok st
    /\ NoDup (requested st)
    /\ (forall p, p ∈ requested st
          <-> (exists r, r ∈ kept /\ cell r "panoid" = p)
              /\ forall name, name ∈ file_names sample_tree -> p <> PStr (split_dot_0 name))
    /\ (forall pid ext, dot_free pid -> (pid ++ "." ++ ext)%string ∈ file_names sample_tree ->
          PStr pid ∉ requested st)
    /\ (forall pid r, ~ dot_free pid -> r ∈ kept -> cell r "panoid" = PStr pid ->
          PStr pid ∈ requested st)
    /\ (cache_deleted st = negb (bool_decide (kept = []))).
Proof.
  apply (X8_gsv_fetch_requests ["Mozilla/5.0"] sample_tree ["panoid"; "year"; "month"]
           "panoid" ["year"; "month"] sample_gsv_pids (Some "2020-01-01") None
           (Some (midnight_ms (2020, 1, 1))) None).
  - intros r Hr. unfold sample_gsv_pids in Hr.
    repeat (apply elem_of_cons in Hr as [->|Hr]; [eexists; reflexivity|]).
    by apply elem_of_nil in Hr.
  - reflexivity.
  - reflexivity.
  - reflexivity.
  - discriminate.
Defined.

Lemma string_app_nil_r (s : string) : (s ++ EmptyString)%string = s.
Proof.
  induction s as [|c s IH]; [done|].
  change (String c (s ++ EmptyString) = String c s). by rewrite IH.
Qed.

Lemma string_app_assoc (s1 s2 s3 : string) :
  ((s1 ++ s2) ++ s3)%string = (s1 ++ s2 ++ s3)%string.
Proof.
  induction s1 as [|c s1 IH]; [done|].
  change (String c ((s1 ++ s2) ++ s3) = String c (s1 ++ s2 ++ s3)). by rewrite IH.
Qed.

Lemma write_lines_strings (ids : list string) (log : string) :
  write_lines (map PStr ids) log = ((log ++ lines ids)%string, None).
Proof.
  revert log. induction ids as [|s ids IH]; intros log; cbn [map write_lines lines fold_right].
  - by rewrite string_app_nil_r.
  - rewrite IH. by rewrite !string_app_assoc.
Qed.

(** X9.  [_log_write].  Without a log path nothing is written and nothing
    raised, whatever the argument.  With a log path, a list of pano ids
    that are strings adds one line per id after the content the file had.
    A single integer id - what [_get_urls_mly] and the image worker of
    [_download_images_mly] pass - raises a [TypeError] and leaves the
    content as it was; a single string id is written character by
    character, one per line. *)
Theorem X9_log_write_outcomes (path log : string) :
  (forall pids, _log_write None log pids = (log, None))
  /\ (forall ids : list string,
        _log_write (Some path) log (PidList (map PStr ids)) = ((log ++ lines ids)%string, None))
  /\ (forall n : Z,
        _log_write (Some path) log (Pid (PInt n))
        = (log, Some (TypeError "object is not iterable")))
  /\ (forall s : string,
        _log_write (Some path) log (Pid (PStr s))
        = ((log ++ lines (map (fun c : ascii => String c EmptyString)
                            (list_ascii_of_string s)))%string, None)).
Proof.
  split; [done|]. split; [|split; [done|]].
  - intros ids. apply write_lines_strings.
  - intros s. simpl. unfold characters. rewrite <- write_lines_strings. by rewrite map_map.
Qed.
End FetchFacts.

(** ** Mapillary image URLs *)

Section UrlFacts.
Import Py PyMore Frame BaseDownloader Series GSVFetch Shards MLYUrls.

Variable image_thumbnail : pyval -> result pyval.
Variable glob : list frame -> list frame.
Hypothesis glob_lists_all : forall shards, glob shards ≡ₚ shards.

Local Abbreviation url_rows := (url_rows image_thumbnail).
Local Abbreviation url_batch := (url_batch image_thumbnail None).
Local Abbreviation url_batches := (url_batches image_thumbnail None).

Lemma elem_of_files (dir : shard_dir) (fr : frame) :
  fr ∈ files dir <-> exists n, dir !! n = Some fr.
Proof.
  unfold files. rewrite list_elem_of_fmap. split.
  - intros ([n fr'] & -> & Hin). exists n. by apply elem_of_map_to_list.
  - intros [n Hn]. exists (n, fr). split; [done|]. by apply elem_of_map_to_list.
Qed.

Lemma files_empty (dir : shard_dir) : files dir = [] <-> dir = ∅.
Proof.
  unfold files. split.
  - intros H. apply fmap_nil_inv in H. by apply map_to_list_empty_iff.
  - intros ->. by rewrite map_to_list_empty.
Qed.

Lemma url_batch_rows (batch : list pyval) (results : frame) :
  url_batch batch results = Done (results ++ url_rows batch).
Proof.
  revert results. induction batch as [|p batch IH]; intros results; simpl.
  - by rewrite app_nil_r.
  - unfold worker, mbind, result_bind, bind.
    destruct (image_thumbnail p) as [url|e]; simpl; rewrite IH; [|done].
    by rewrite <- app_assoc.
Qed.

Lemma elem_of_url_rows (batch : list pyval) (r : row) :
  r ∈ url_rows batch
  <-> exists p url, p ∈ batch /\ image_thumbnail p = Ok url /\ r = <["url" := url]> {["id" := p]}.
Proof.
  unfold MLYUrls.url_rows. rewrite list_elem_of_In, in_flat_map. split.
  - intros (p & Hp%list_elem_of_In & Hr). destruct (image_thumbnail p) as [url|e] eqn:Hu.
    + apply list_elem_of_In, list_elem_of_singleton in Hr. by exists p, url.
    + by destruct Hr.
  - intros (p & url & Hp & Hu & ->). exists p. split; [by apply list_elem_of_In|].
    rewrite Hu. by left.
Qed.

(** The loop over the batches: every id of every batch is submitted; the
    shards written carry numbers above [start + i], one per batch with a
    URL; files with other numbers are left alone. *)
Lemma url_batches_spec (start : Z) (batches : list (list pyval)) :
  forall (i : Z) (dir : shard_dir) (submitted : list pyval),
  exists dir',
    url_batches start i batches dir submitted = (submitted ++ concat batches, Done dir')
    /\ (forall n, is_Some (dir !! n) -> is_Some (dir' !! n))
    /\ (forall n, n <= start + i -> dir' !! n = dir !! n)
    /\ (forall n fr, dir' !! n = Some fr ->
          dir !! n = Some fr
          \/ (start + i < n /\ exists batch, batch ∈ batches /\ fr = url_rows batch))
    /\ (forall batch, batch ∈ batches -> url_rows batch <> [] ->
          exists n, start + i < n /\ dir' !! n = Some (url_rows batch)).
Proof.
  induction batches as [|batch batches IH]; intros i dir submitted.
  - exists dir. simpl. rewrite app_nil_r. repeat split; try done.
    + intros n fr Hn. by left.
    + by intros batch ?%elem_of_nil.
  - cbn [MLYUrls.url_batches concat]. rewrite url_batch_rows. cbn [app].
    destruct (url_rows batch) as [|r0 rows] eqn:Hrows.
    + destruct (IH (i + 1) dir (submitted ++ batch)) as (dir' & Hrun & Hkeep & Hlow & Hfrom & Hnew).
      exists dir'. rewrite Hrun, <- app_assoc. split; [done|]. split; [done|].
      split; [intros n Hn; apply Hlow; lia|]. split.
      * intros n fr Hn. destruct (Hfrom n fr Hn) as [?|(Hlt & b & Hb & ->)]; [by left|].
        right. split; [lia|]. exists b. split; [by right|done].
      * intros b [->|Hb]%elem_of_cons Hne; [by rewrite Hrows in Hne|].
        destruct (Hnew b Hb Hne) as (n & Hlt & Hn). exists n. split; [lia|done].
    + destruct (IH (i + 1) (write_shard start i (r0 :: rows) dir) (submitted ++ batch))
        as (dir' & Hrun & Hkeep & Hlow & Hfrom & Hnew).
      exists dir'. rewrite Hrun, <- app_assoc. split; [done|]. unfold write_shard in *.
      split; [|split; [|split]].
      * intros n Hn. apply Hkeep. destruct (decide (n = start + i + 1)) as [->|Hne].
        -- rewrite lookup_insert_eq. by eexists.
        -- by rewrite lookup_insert_ne.
      * intros n Hn. rewrite Hlow by lia. apply lookup_insert_ne. lia.
      * intros n fr Hn. destruct (Hfrom n fr Hn) as [Hold|(Hlt & b & Hb & ->)].
        -- destruct (decide (n = start + i + 1)) as [->|Hne].
           ++ rewrite lookup_insert_eq in Hold. injection Hold as <-.
              right. split; [lia|]. exists batch. split; [left|done].
           ++ rewrite lookup_insert_ne in Hold by done. by left.
        -- right. split; [lia|]. exists b. split; [by right|done].
      * intros b [->|Hb]%elem_of_cons Hne.
        -- exists (start + i + 1). split; [lia|]. rewrite Hlow by lia.
           rewrite lookup_insert_eq. by rewrite Hrows.
        -- destruct (Hnew b Hb Hne) as (n & Hlt & Hn). exists n. split; [lia|done].
Qed.

Lemma concat_slices {A} (l : list A) (bs : Z) :
  0 < bs ->
  concat (map (fun i : Z => py_slice (i * bs) ((i + 1) * bs) l)
              (py_range 0 ((Z.of_nat (length l) + bs - 1) / bs))) = l.
Proof.
  intros Hbs. rewrite (slices_as_chunks l bs 0) by lia.
  rewrite concat_chunks. simpl. rewrite drop_0. apply take_ge.
  pose proof (num_batches_cover (Z.of_nat (length l)) bs ltac:(lia) Hbs).
  assert (0 <= (Z.of_nat (length l) + bs - 1) / bs) by (apply Z.div_pos; lia).
  nia.
Qed.

Lemma elem_of_completed (dir : shard_dir) (p : pyval) :
  p ∈ completed_panoids glob dir
  <-> exists fr r, fr ∈ files dir /\ r ∈ fr /\ cell r "id" = p.
Proof.
  unfold completed_panoids. rewrite list_elem_of_In, in_flat_map. split.
  - intros (fr & Hfr%list_elem_of_In & (r & Hr & Hin)%list_elem_of_In%list_elem_of_fmap).
    exists fr, r. split; [by rewrite <- (glob_lists_all (files dir))|done].
  - intros (fr & r & Hfr & Hr & Hp). exists fr.
    split; [apply list_elem_of_In; by rewrite (glob_lists_all (files dir))|].
    apply list_elem_of_In, list_elem_of_fmap. by exists r.
Qed.

Lemma read_pids_NoDup (pid_df : frame) (panoids : list pyval) :
  _read_pids pid_df = Ok panoids -> NoDup panoids.
Proof.
  unfold _read_pids, mbind, result_bind, bind.
  destruct (astype_int64 _) as [df|]; [|discriminate]. intros [= <-]. apply unique_spec.
Qed.

Lemma read_pids_int (pid_df : frame) (panoids : list pyval) :
  _read_pids pid_df = Ok panoids -> forall p, p ∈ panoids -> exists n, p = PInt n.
Proof.
  unfold _read_pids, mbind, result_bind, bind.
  destruct (astype_int64 _) as [df|] eqn:Hdf; [|discriminate].
  intros [= <-] p Hp. apply unique_spec, list_elem_of_fmap in Hp as (r & -> & Hr).
  destruct (astype_int64_ids _ _ Hdf r Hr) as [n Hn]. exists n. unfold cell. by rewrite Hn.
Qed.

(** A batch in which no failed lookup reaches the log file. *)
Lemma url_batch_quiet (log_path : option string) (batch : list pyval) (results : frame) :
  log_path = None \/ (forall p, p ∈ batch -> exists url, image_thumbnail p = Ok url) ->
  MLYUrls.url_batch image_thumbnail log_path batch results = Done (results ++ url_rows batch).
Proof.
  revert results. induction batch as [|p batch IH]; intros results Hq; simpl.
  - by rewrite app_nil_r.
  - assert (Hq' : log_path = None
                  \/ (forall p', p' ∈ batch -> exists url, image_thumbnail p' = Ok url)).
    { destruct Hq as [?|Hq]; [by left|right]. intros p' Hp'. apply Hq. by right. }
    unfold worker, mbind, result_bind, bind.
    destruct (image_thumbnail p) as [url|e] eqn:Hu; simpl.
    + rewrite IH by done. by rewrite <- app_assoc.
    + destruct Hq as [->|Hq]; [by apply IH|].
      destruct (Hq p) as [url Hurl]; [left|]. congruence.
Qed.

(** A batch of integer ids with a log path set: it runs to its end when
    every lookup succeeds, and ends in the [TypeError] of [_log_write]
    when one fails. *)
Lemma url_batch_logged (path : string) (batch : list pyval) (results : frame) :
  (forall p, p ∈ batch -> exists n, p = PInt n) ->
  (MLYUrls.url_batch image_thumbnail (Some path) batch results = Done (results ++ url_rows batch)
   /\ forall p, p ∈ batch -> exists url, image_thumbnail p = Ok url)
  \/ (MLYUrls.url_batch image_thumbnail (Some path) batch results
      = Fail (TypeError "object is not iterable")
      /\ exists p e, p ∈ batch /\ image_thumbnail p = Raise e).
Proof.
  revert results. induction batch as [|p batch IH]; intros results Hint.
  - left. simpl. rewrite app_nil_r. split; [done|]. by intros p ?%elem_of_nil.
  - cbn [MLYUrls.url_batch]. unfold worker, mbind, result_bind, bind.
    destruct (image_thumbnail p) as [url|e] eqn:Hu.
    + destruct (IH (results ++ [<["url" := url]> {["id" := p]}])) as [[Hrun Hall]|[Hrun Hex]].
      * intros p' Hp'. apply Hint. by right.
      * left. split.
        -- rewrite Hrun. unfold MLYUrls.url_rows at 2. cbn [flat_map]. rewrite Hu.
           by rewrite <- app_assoc.
        -- intros p' [->|Hp']%elem_of_cons; [by exists url|by apply Hall].
      * right. split; [done|]. destruct Hex as (p' & e & Hp' & He).
        exists p', e. split; [by right|done].
    + right. destruct (Hint p) as [n ->]; [left|]. split; [done|].
      exists (PInt n), e. split; [left|done].
Qed.

(** The loop over the batches when no failed lookup reaches the log file:
    it is the loop of a downloader without log path. *)
Lemma url_batches_quiet (log_path : option string) (start : Z) (batches : list (list pyval)) :
  log_path = None
  \/ (forall p, p ∈ concat batches -> exists url, image_thumbnail p = Ok url) ->
  forall (i : Z) (dir : shard_dir) (submitted : list pyval),
    MLYUrls.url_batches image_thumbnail log_path start i batches dir submitted
    = url_batches start i batches dir submitted.
Proof.
  induction batches as [|batch batches IH]; intros Hq i dir submitted; [done|].
  cbn [MLYUrls.url_batches].
  rewrite url_batch_rows, url_batch_quiet.
  2:{ destruct Hq as [?|Hq]; [by left|right]. intros p Hp. apply Hq.
      cbn [concat]. apply elem_of_app. by left. }
  assert (Hq' : log_path = None
                \/ (forall p, p ∈ concat batches -> exists url, image_thumbnail p = Ok url)).
  { destruct Hq as [?|Hq]; [by left|right]. intros p Hp. apply Hq.
    cbn [concat]. apply elem_of_app. by right. }
  cbn [app]. destruct (url_rows batch); by rewrite IH.
Qed.

(** The loop over batches of integer ids with a log path set, when some
    lookup fails: the batches up to the first one with a failed lookup
    are submitted, and the loop ends in the [TypeError]. *)
Lemma url_batches_logged (path : string) (start : Z) (batches : list (list pyval)) :
  (forall p, p ∈ concat batches -> exists n, p = PInt n) ->
  (exists p e, p ∈ concat batches /\ image_thumbnail p = Raise e) ->
  forall (i : Z) (dir : shard_dir) (submitted : list pyval),
  exists sub,
    MLYUrls.url_batches image_thumbnail (Some path) start i batches dir submitted
    = (submitted ++ sub, Fail (TypeError "object is not iterable"))
    /\ sub `prefix_of` concat batches
    /\ exists p e, p ∈ sub /\ image_thumbnail p = Raise e.
Proof.
  induction batches as [|batch batches IH]; intros Hint Hex i dir submitted.
  { destruct Hex as (p & e & Hp & _). by apply elem_of_nil in Hp. }
  cbn [MLYUrls.url_batches concat].
  destruct (url_batch_logged path batch []) as [[Hrun Hall]|[Hrun Hfail]].
  { intros p Hp. apply Hint. cbn [concat]. apply elem_of_app. by left. }
  - rewrite Hrun. cbn [app].
    destruct (IH) with (i := i + 1) (submitted := submitted ++ batch)
      (dir := match url_rows batch with
              | [] => dir
              | _ => write_shard start i (url_rows batch) dir
              end) as (sub & Hsub & Hpre & Hin).
    + intros p Hp. apply Hint. cbn [concat]. apply elem_of_app. by right.
    + destruct Hex as (p & e & [Hp|Hp]%elem_of_app & He); [|by exists p, e].
      destruct (Hall p Hp) as [url Hurl]. congruence.
    + exists (batch ++ sub). split; [|split].
      * rewrite app_assoc, <- Hsub. by destruct (url_rows batch).
      * by apply prefix_app.
      * destruct Hin as (p & e & Hp & He). exists p, e. split; [|done].
        apply elem_of_app. by right.
  - rewrite Hrun. exists batch. split; [done|]. split; [by apply prefix_app_r|done].
Qed.

(** X10.  [_get_urls_mly] resumes by key.  With [pids_urls.csv] present no
    URL is requested and nothing written.  Without it, the ids to resolve
    are the ids [_read_pids] returns that no shard of [cache/urls] records,
    each once; when there is none the function returns without writing
    [pids_urls.csv].  When the downloader has no log path, or when every
    lookup succeeds, a URL is requested for exactly these ids, and the
    table written holds the row of every id whose lookup succeeded and,
    beside such rows, only rows of the shards found; it holds all of these
    when the shards are numbered 1 to their count.  Ids whose lookup fails
    get no row, and when every lookup fails and there is no shard the
    concatenation raises [ValueError].  When the downloader has a log path
    and a lookup fails, the function ends in the [TypeError] that
    [_log_write] raises on the integer id: the ids of the batches up to
    the one with the failed lookup have been requested, and
    [pids_urls.csv] is not written. *)
Theorem X10_urls_resume_by_key (log_path : option string) (dir : shard_dir) (pid_df : frame)
    (panoids : list pyval) :
  _read_pids pid_df = Ok panoids ->
  let run := _get_urls_mly image_thumbnail glob log_path None dir pid_df in
  let recorded := fun p => exists fr r, fr ∈ files dir /\ r ∈ fr /\ cell r "id" = p in
  let rest := remaining glob panoids dir in
  (forall table,
     _get_urls_mly image_thumbnail glob log_path (Some table) dir pid_df = ([], Done None))
  /\ NoDup rest
  /\ (forall p, p ∈ rest <-> p ∈ panoids /\ ~ recorded p)
  /\ (rest = [] -> run = ([], Done None))
  /\ (log_path = None \/ (forall p, p ∈ rest -> exists url, image_thumbnail p = Ok url) ->
      fst run = rest
      /\ (rest <> [] ->
          (exists table,
             snd run = Done (Some table)
             /\ (forall p url, p ∈ rest -> image_thumbnail p = Ok url ->
                   <["url" := url]> {["id" := p]} ∈ table)
             /\ (forall r, r ∈ table ->
                   (exists fr, fr ∈ files dir /\ r ∈ fr)
                   \/ exists p url, p ∈ rest /\ image_thumbnail p = Ok url
                                    /\ r = <["url" := url]> {["id" := p]})
             /\ (contiguous dir -> forall fr r, fr ∈ files dir -> r ∈ fr -> r ∈ table))
          \/ (snd run = Fail (Exn (ValueError "No objects to concatenate"))
              /\ dir = ∅
              /\ forall p, p ∈ rest -> exists e, image_thumbnail p = Raise e)))
  /\ (forall path, log_path = Some path ->
      (exists p e, p ∈ rest /\ image_thumbnail p = Raise e) ->
      snd run = Fail (TypeError "object is not iterable")
      /\ fst run `prefix_of` rest
      /\ exists p e, p ∈ fst run /\ image_thumbnail p = Raise e).
Proof.
  intros Hread run recorded rest. split; [done|].
  pose proof (read_pids_NoDup _ _ Hread) as Hnd.
  assert (Hrem : forall p, p ∈ rest <-> p ∈ panoids /\ ~ recorded p).
  { intros p. unfold rest, remaining.
    rewrite elem_of_List_filter, negb_true_iff, bool_decide_eq_false.
    by rewrite elem_of_completed. }
  split; [by apply NoDup_List_filter|]. split; [exact Hrem|].
  assert (Hint : forall p, p ∈ rest -> exists n, p = PInt n).
  { intros p Hp. apply (read_pids_int _ _ Hread), Hrem, Hp. }
  subst run. unfold _get_urls_mly. rewrite Hread. fold rest.
  case_bool_decide as Hp0.
  { assert (Hr0 : rest = []) by (unfold rest; by rewrite Hp0).
    rewrite Hr0. split; [done|]. split.
    - intros _. split; [done|]. by intros [].
    - intros path _ (p & e & Hp & _). by apply elem_of_nil in Hp. }
  case_bool_decide as Hr0.
  { rewrite Hr0. split; [done|]. split.
    - intros _. split; [done|]. by intros [].
    - intros path _ (p & e & Hp & _). by apply elem_of_nil in Hp. }
  split; [done|].
  set (batches := map _ (py_range 0 _)).
  assert (Hcat : concat batches = rest) by (apply concat_slices; done).
  split.
  - intros Hq. rewrite url_batches_quiet by (by rewrite Hcat).
    destruct (url_batches_spec (checkpoint_start_index dir) batches 0 dir [])
      as (dir' & Hrun & Hkeep & Hlow & Hfrom & Hnew).
    rewrite Hrun, Hcat. cbn [app fst snd]. split; [done|]. intros _.
    assert (Htab : forall r, r ∈ concat (glob (files dir'))
                             <-> exists n fr, dir' !! n = Some fr /\ r ∈ fr).
    { intros r. rewrite (concat_Permutation _ _ (glob_lists_all _)).
      rewrite list_elem_of_In, in_concat. split.
      - intros (fr & [n Hn]%list_elem_of_In%elem_of_files & Hr%list_elem_of_In). by exists n, fr.
      - intros (n & fr & Hn & Hr). exists fr. split; apply list_elem_of_In; [|done].
        apply elem_of_files. by exists n. }
    assert (Hbatch : forall p, p ∈ rest -> exists batch, batch ∈ batches /\ p ∈ batch).
    { intros p Hp. rewrite <- Hcat in Hp.
      apply list_elem_of_In, in_concat in Hp as (b & Hb & Hp).
      exists b. split; by apply list_elem_of_In. }
    assert (Hsub : forall batch p, batch ∈ batches -> p ∈ batch -> p ∈ rest).
    { intros b p Hb Hp. rewrite <- Hcat. apply list_elem_of_In, in_concat.
      exists b. split; by apply list_elem_of_In. }
    unfold mbind, outcome_bind.
    destruct (glob (files dir')) as [|fr0 listed] eqn:Hglob.
    + right. split; [done|].
      assert (Hempty : dir' = ∅).
      { apply files_empty. apply Permutation_nil.
        by rewrite <- (glob_lists_all (files dir')), Hglob. }
      split.
      * apply map_empty. intros n. destruct (dir !! n) as [fr|] eqn:Hn; [|done].
        destruct (Hkeep n) as [fr' Hfr']; [by eexists|]. by rewrite Hempty in Hfr'.
      * intros p Hp. destruct (image_thumbnail p) as [url|e] eqn:Hu; [|by exists e].
        exfalso. destruct (Hbatch p Hp) as (b & Hb & Hpb).
        destruct (Hnew b Hb) as (n & _ & Hn).
        -- intros Hnil. assert (Hin : <["url" := url]> {["id" := p]} ∈ url_rows b)
             by (apply elem_of_url_rows; by exists p, url).
           rewrite Hnil in Hin. by apply elem_of_nil in Hin.
        -- by rewrite Hempty in Hn.
    + left. eexists. split; [done|]. split; [|split].
      * intros p url Hp Hu. apply Htab. destruct (Hbatch p Hp) as (b & Hb & Hpb).
        assert (Hin : <["url" := url]> {["id" := p]} ∈ url_rows b)
          by (apply elem_of_url_rows; by exists p, url).
        destruct (Hnew b Hb) as (n & _ & Hn).
        -- intros Hnil. rewrite Hnil in Hin. by apply elem_of_nil in Hin.
        -- by exists n, (url_rows b).
      * intros r (n & fr & Hn & Hr)%Htab.
        destruct (Hfrom n fr Hn) as [Hold|(_ & b & Hb & ->)].
        -- left. exists fr. split; [|done]. apply elem_of_files. by exists n.
        -- right. apply elem_of_url_rows in Hr as (p & url & Hp & Hu & ->).
           exists p, url. split; [by eapply Hsub|done].
      * intros Hcont fr r [n Hn]%elem_of_files Hr. apply Htab. exists n, fr. split; [|done].
        rewrite Hlow; [done|]. unfold checkpoint_start_index.
        destruct (proj1 (Hcont n)) as [_ ?]; [by eexists|]. lia.
  - intros path -> Hex.
    destruct (url_batches_logged path (checkpoint_start_index dir) batches
                ltac:(by rewrite Hcat) ltac:(by rewrite Hcat) 0 dir [])
      as (sub & Hrun & Hpre & Hin).
    rewrite Hrun. cbn [app fst snd]. split; [done|]. split; [by rewrite <- Hcat|done].
Qed.

(** X11.  A Mapillary run that finds no [pids_urls.csv] while every id of
    the pid table is already recorded in a shard of [cache/urls] (or the
    table has no id at all) requests no URL, does not merge the shards into
    [pids_urls.csv], and raises [FileNotFoundError] when the image fetch
    reads that file. *)
Theorem X11_mly_resolved_shards_never_merged (dir : shard_dir) (tree : out_tree)
    (pid_df : frame) (panoids : list pyval) (batch_size : Z)
    (start_date end_date : option string) :
  _read_pids pid_df = Ok panoids ->
  (forall p, p ∈ panoids -> exists fr r, fr ∈ files dir /\ r ∈ fr /\ cell r "id" = p) ->
  _get_urls_mly image_thumbnail glob None None dir pid_df = ([], Done None)
  /\ fetch_images image_thumbnail glob None None dir tree pid_df batch_size start_date end_date
     = ([], Fail (FileNotFoundError "pids_urls.csv")).
Proof.
  intros Hread Hrec.
  assert (Hurls : _get_urls_mly image_thumbnail glob None None dir pid_df = ([], Done None)).
  { unfold _get_urls_mly. rewrite Hread. case_bool_decide; [done|].
    rewrite bool_decide_eq_true_2; [done|]. unfold remaining.
    destruct (List.filter _ panoids) as [|p l] eqn:Hf; [done|]. exfalso.
    assert (Hp : p ∈ p :: l) by left. rewrite <- Hf in Hp.
    apply elem_of_List_filter in Hp as [Hp Hb].
    apply negb_true_iff, bool_decide_eq_false in Hb. apply Hb, elem_of_completed.
    by apply Hrec. }
  split; [done|]. unfold fetch_images. rewrite Hurls. f_equal. simpl.
  revert Hread. unfold _read_pids, mbind, result_bind, bind.
  by destruct (astype_int64 _).
Qed.
End UrlFacts.

Section UrlWitness.
Import Py PyMore Frame BaseDownloader Series GSVFetch Shards MLYUrls Samples.

Lemma X10_urls_witness :
  let found : pyval -> result pyval := fun _ => Ok (PStr "https://img") in
  let lost : pyval -> result pyval := fun _ => Raise (ValueError "not found") in
  let glob := fun shards : list frame => shards in
  let dir : shard_dir := {[ 1 := [<["url" := PStr "https://img"]> {["id" := PInt 1]}] ]} in
  fst (_get_urls_mly found glob (Some "log.txt") None dir sample_pid_df) = [PInt 2]
  /\ _get_urls_mly lost glob (Some "log.txt") None dir sample_pid_df
     = ([PInt 2], Fail (TypeError "object is not iterable"))
  /\ exists table,
       snd (_get_urls_mly lost glob None None dir sample_pid_df) = Done (Some table).
Proof.
  pose proof (X10_urls_resume_by_key (fun _ : pyval => Ok (PStr "https://img"))
                (fun shards : list frame => shards) (fun shards => Permutation_refl shards)
                (Some "log.txt")
                {[ 1 := [<["url" := PStr "https://img"]> {["id" := PInt 1]}] ]}
                sample_pid_df [PInt 1; PInt 2] eq_refl) as (_ & _ & _ & _ & Hfound & _).
  pose proof (X10_urls_resume_by_key (fun _ : pyval => Raise (ValueError "not found"))
                (fun shards : list frame => shards) (fun shards => Permutation_refl shards)
                (Some "log.txt")
                {[ 1 := [<["url" := PStr "https://img"]> {["id" := PInt 1]}] ]}
                sample_pid_df [PInt 1; PInt 2] eq_refl) as (_ & _ & _ & _ & _ & Hlost).
  pose proof (X10_urls_resume_by_key (fun _ : pyval => Raise (ValueError "not found"))
                (fun shards : list frame => shards) (fun shards => Permutation_refl shards)
                None
                {[ 1 := [<["url" := PStr "https://img"]> {["id" := PInt 1]}] ]}
                sample_pid_df [PInt 1; PInt 2] eq_refl) as (_ & _ & _ & _ & Hquiet & _).
  split; [|split].
  - destruct Hfound as [Hfst _]; [right; intros p _; by eexists|].
    rewrite Hfst. vm_compute. reflexivity.
  - destruct (Hlost "log.txt" eq_refl) as (_ & _ & _).
    + exists (PInt 2), (ValueError "not found"). split; [vm_compute; left|reflexivity].
    + vm_compute. reflexivity.
  - destruct Hquiet as [_ Htable]; [by left|].
    destruct Htable as [(table & Ht & _)|(_ & Hdir & _)].
    + intros H. apply (f_equal (@length pyval)) in H. vm_compute in H. discriminate H.
    + by exists table.
    + exfalso. apply (f_equal (fun d : shard_dir => d !! 1)) in Hdir.
      rewrite lookup_singleton_eq, lookup_empty in Hdir. discriminate Hdir.
Defined.

Lemma X11_mly_resolved_witness :
  let image_thumbnail := fun _ : pyval => Ok (PStr "https://img") in
  let glob := fun shards : list frame => shards in
  let dir : shard_dir :=
    {[ 1 := [<["url" := PStr "https://img"]> {["id" := PInt 1]};
             <["url" := PStr "https://img"]> {["id" := PInt 2]}] ]} in
  _get_urls_mly image_thumbnail glob None None dir sample_pid_df = ([], Done None)
  /\ fetch_images image_thumbnail glob None None dir [] sample_pid_df 1000 None None
     = ([], Fail (FileNotFoundError "pids_urls.csv")).
Proof.
  apply (X11_mly_resolved_shards_never_merged (fun _ : pyval => Ok (PStr "https://img"))
           (fun shards : list frame => shards) (fun shards => Permutation_refl shards)
           {[ 1 := [<["url" := PStr "https://img"]> {["id" := PInt 1]};
                    <["url" := PStr "https://img"]> {["id" := PInt 2]}] ]}
           [] sample_pid_df [PInt 1; PInt 2] 1000 None None).
  - vm_compute. reflexivity.
  - intros p Hp.
    exists [<["url" := PStr "https://img"]> {["id" := PInt 1]};
            <["url" := PStr "https://img"]> {["id" := PInt 2]}].
    apply elem_of_cons in Hp as [->|Hp]; [|apply elem_of_cons in Hp as [->|Hp]].
    + eexists. split; [apply elem_of_files; exists 1; apply lookup_singleton_eq|].
      split; [left|reflexivity].
    + eexists. split; [apply elem_of_files; exists 1; apply lookup_singleton_eq|].
      split; [right; left|reflexivity].
    + by apply elem_of_nil in Hp.
Defined.
End UrlWitness.

(** ** A run of the GSV discovery *)

Section DiscoveryRunFacts.
Import Py PyMore Frame BaseDownloader Series Shards GSVDiscovery.
Import GSVDownloader.get_pids_from_df.

Variable panoids panoids_retry : pyval -> pyval -> result (list row).
Variable id_columns : list string.
Variable glob : list frame -> list frame.
Hypothesis glob_lists_all : forall shards, glob shards ≡ₚ shards.

Local Abbreviation run := (_get_pids_from_df panoids panoids_retry id_columns glob).

Lemma insert_sorted_perm (r : row) (sorted : frame) : insert_sorted r sorted ≡ₚ r :: sorted.
Proof.
  induction sorted as [|r' rest IH]; simpl; [done|].
  destruct (key_le _ _); [done|]. rewrite IH. apply perm_swap.
Qed.

Lemma sort_lat_lon_id_perm (df : frame) : sort_lat_lon_id df ≡ₚ df.
Proof.
  induction df as [|r df IH]; simpl; [done|]. by rewrite insert_sorted_perm, IH.
Qed.

Lemma List_filter_perm {A} (p : A -> bool) (l l' : list A) :
  l ≡ₚ l' -> List.filter p l ≡ₚ List.filter p l'.
Proof.
  induction 1 as [|x l l' _ IH|x y l|l l' l'' _ IH1 _ IH2]; simpl.
  - done.
  - destruct (p x); by rewrite IH.
  - destruct (p x), (p y); try done. apply perm_swap.
  - by etrans.
Qed.

Lemma shard_dir_nonempty (dir : shard_dir) : dir <> ∅ -> (0 <? checkpoint_start_index dir) = true.
Proof.
  intros Hne. apply Z.ltb_lt. unfold checkpoint_start_index.
  assert (size dir <> 0%nat) by (by intros ?%map_size_empty_iff). lia.
Qed.

Lemma shard_dir_empty : (0 <? checkpoint_start_index (∅ : shard_dir)) = false.
Proof. done. Qed.

(** The ids the shards record. *)
Lemma elem_of_completed_ids (dir : shard_dir) (v : pyval) :
  v ∈ completed_ids glob dir
  <-> exists fr r, fr ∈ files dir /\ r ∈ fr /\ cell r "lat_lon_id" = v.
Proof.
  unfold completed_ids. rewrite (proj2 (unique_spec _)), list_elem_of_fmap.
  setoid_rewrite (concat_Permutation _ _ (glob_lists_all (files dir))).
  split.
  - intros (r & -> & Hr). apply list_elem_of_In, in_concat in Hr as (fr & Hfr & Hr).
    exists fr, r. split; [by apply list_elem_of_In|]. split; [by apply list_elem_of_In|done].
  - intros (fr & r & Hfr & Hr & <-). exists r. split; [done|].
    apply list_elem_of_In, in_concat. exists fr. split; by apply list_elem_of_In.
Qed.

(** One batch: the records of the points that answer, the rows of the
    points that fail. *)
Lemma reduce_batch_spec (oracle : pyval -> pyval -> result (list row)) (batch : list row)
    (results failed_rows : list row) :
  reduce_batch oracle id_columns batch (results, failed_rows)
  = (results ++ flat_map (emitted oracle id_columns) batch,
     failed_rows
     ++ List.filter (fun r => match worker oracle id_columns r with Ok _ => false | Raise _ => true end)
          batch).
Proof.
  unfold reduce_batch. revert results failed_rows.
  induction batch as [|r batch IH]; intros results failed_rows; simpl.
  - by rewrite !app_nil_r.
  - unfold emitted, reduce_batch. simpl.
    destruct (worker oracle id_columns r) as [out|e]; simpl; rewrite IH.
    + by rewrite <- app_assoc.
    + by rewrite <- app_assoc.
Qed.

Local Abbreviation emitted1 := (emitted panoids id_columns).
Local Abbreviation fails1 :=
  (fun r : row => match worker panoids id_columns r with Ok _ => false | Raise _ => true end).

(** The batch loop: the shards written carry numbers above [start + i],
    one per batch with a record; files with other numbers are left alone;
    the failed rows are collected in order. *)
Lemma batch_loop_spec (start : Z) (batches : list (list row)) :
  forall (i : Z) (dir : shard_dir) (failed_rows : list row),
  exists dir',
    batch_loop panoids id_columns start i batches dir failed_rows
    = (dir', failed_rows ++ List.filter fails1 (concat batches))
    /\ (forall n, is_Some (dir !! n) -> is_Some (dir' !! n))
    /\ (forall n, n <= start + i -> dir' !! n = dir !! n)
    /\ (forall n fr, dir' !! n = Some fr ->
          dir !! n = Some fr
          \/ (start + i < n /\ fr <> []
              /\ exists batch, batch ∈ batches /\ fr = flat_map emitted1 batch))
    /\ (forall batch, batch ∈ batches -> flat_map emitted1 batch <> [] ->
          exists n, start + i < n /\ dir' !! n = Some (flat_map emitted1 batch)).
Proof.
  induction batches as [|batch batches IH]; intros i dir failed_rows.
  - exists dir. simpl. rewrite app_nil_r. repeat split; try done.
    + intros n fr Hn. by left.
    + by intros batch ?%elem_of_nil.
  - cbn [batch_loop concat]. rewrite reduce_batch_spec. cbn [app].
    rewrite List.filter_app, app_assoc.
    destruct (flat_map emitted1 batch) as [|r0 rows] eqn:Hrows.
    + destruct (IH (i + 1) dir (failed_rows ++ List.filter fails1 batch))
        as (dir' & Hrun & Hkeep & Hlow & Hfrom & Hnew).
      exists dir'. rewrite Hrun. split; [done|]. split; [done|].
      split; [intros n Hn; apply Hlow; lia|]. split.
      * intros n fr Hn. destruct (Hfrom n fr Hn) as [?|(Hlt & Hne & b & Hb & ->)]; [by left|].
        right. split; [lia|]. split; [done|]. exists b. split; [by right|done].
      * intros b [->|Hb]%elem_of_cons Hne; [by rewrite Hrows in Hne|].
        destruct (Hnew b Hb Hne) as (n & Hlt & Hn). exists n. split; [lia|done].
    + destruct (IH (i + 1) (write_shard start i (r0 :: rows) dir)
                  (failed_rows ++ List.filter fails1 batch))
        as (dir' & Hrun & Hkeep & Hlow & Hfrom & Hnew).
      exists dir'. rewrite Hrun. split; [done|]. unfold write_shard in *.
      split; [|split; [|split]].
      * intros n Hn. apply Hkeep. destruct (decide (n = start + i + 1)) as [->|Hne].
        -- rewrite lookup_insert_eq. by eexists.
        -- by rewrite lookup_insert_ne.
      * intros n Hn. rewrite Hlow by lia. apply lookup_insert_ne. lia.
      * intros n fr Hn. destruct (Hfrom n fr Hn) as [Hold|(Hlt & Hne & b & Hb & ->)].
        -- destruct (decide (n = start + i + 1)) as [->|Hne].
           ++ rewrite lookup_insert_eq in Hold. injection Hold as <-.
              right. split; [lia|]. split; [done|]. exists batch. split; [left|done].
           ++ rewrite lookup_insert_ne in Hold by done. by left.
        -- right. split; [lia|]. split; [done|]. exists b. split; [by right|done].
      * intros b [->|Hb]%elem_of_cons Hne.
        -- exists (start + i + 1). split; [lia|]. rewrite Hlow by lia.
           rewrite lookup_insert_eq. by rewrite Hrows.
        -- destruct (Hnew b Hb Hne) as (n & Hlt & Hn). exists n. split; [lia|done].
Qed.

Lemma emitted_nil (oracle : pyval -> pyval -> result (list row)) (r : row) :
  (forall lat lon, oracle lat lon = Ok [] \/ exists e, oracle lat lon = Raise e) ->
  emitted oracle id_columns r = [].
Proof.
  intros Hor. unfold emitted, reduce_batch. simpl.
  unfold worker, get_street_view_info, mbind, result_bind, bind.
  destruct (getattr r "longitude") as [lon|]; [|done].
  destruct (getattr r "latitude") as [lat|]; [|done].
  destruct (getattr r "lat_lon_id") as [pid|]; [|done].
  destruct (id_dict_of id_columns r) as [idd|]; [|done].
  destruct (Hor lat lon) as [->|[e ->]]; done.
Qed.


Lemma elem_of_concat {A} (ls : list (list A)) (y : A) :
  y ∈ concat ls <-> exists l, l ∈ ls /\ y ∈ l.
Proof.
  rewrite list_elem_of_In, in_concat. split; intros (x & Hx & Hy); exists x;
    (split; [by apply list_elem_of_In|by apply list_elem_of_In]).
Qed.

Lemma discover_submitted (pts : frame) (dir : shard_dir) :
  fst (fst (discover panoids panoids_retry id_columns glob pts dir)) = pts.
Proof.
  unfold discover. set (batches := map _ (py_range 0 _)).
  destruct (batch_loop_spec (checkpoint_start_index dir) batches 0 dir []) as (dir' & Hrun & _).
  rewrite Hrun. by destruct (glob (files dir')).
Qed.

(** X12.  How a discovery run fails.  Started on a directory that holds
    shards, with a point table that has no column [lat_lon_id] (a table
    read from the user's CSV file has none), it raises [KeyError] in the
    merge before any request.  Started without shards on an empty table, it
    raises [UnboundLocalError] at the early return.  Started without shards
    on a table that has points none of which gets a record in the batch
    loop - every answer empty or failed - it submits every point and raises
    [ValueError] when it concatenates the shards, before any failed row is
    retried. *)
Theorem X12_discovery_failures (columns : list string) (df : frame) (dir : shard_dir) :
  (dir <> ∅ -> "lat_lon_id" ∉ columns ->
   run columns df dir = ([], [], Fail (Exn (KeyError "lat_lon_id"))))
  /\ run columns [] ∅ = ([], [], Fail (UnboundLocalError "completed_ids"))
  /\ (df <> [] ->
      (forall lat lon, panoids lat lon = Ok [] \/ exists e, panoids lat lon = Raise e) ->
      run columns df ∅
      = (points glob columns df ∅, [], Fail (Exn (ValueError "No objects to concatenate")))
        /\ length (points glob columns df ∅) = length df).
Proof.
  split; [|split].
  - intros Hdir Hcol. unfold _get_pids_from_df.
    rewrite shard_dir_nonempty by done. by rewrite bool_decide_eq_false_2.
  - unfold _get_pids_from_df, points. rewrite shard_dir_empty. cbn [andb].
    destruct (bool_decide ("lat_lon_id" ∈ columns)); reflexivity.
  - intros Hdf Hor. unfold _get_pids_from_df. rewrite shard_dir_empty. cbn [andb].
    set (pts := points glob columns df ∅).
    assert (Hlen : length pts = length df).
    { subst pts. unfold points. rewrite shard_dir_empty.
      destruct (bool_decide _); [done|]. unfold assign_lat_lon_id. by rewrite length_imap. }
    rewrite bool_decide_eq_false_2.
    2:{ intros Hp. rewrite Hp in Hlen. destruct df; [done|discriminate]. }
    split; [|done]. unfold discover.
    set (batches := map _ (py_range 0 _)).
    destruct (batch_loop_spec (checkpoint_start_index ∅) batches 0 ∅ [])
      as (dir' & Hrun & _ & _ & Hfrom & _).
    rewrite Hrun.
    assert (Hempty : dir' = ∅).
    { apply map_empty. intros n. destruct (dir' !! n) as [fr|] eqn:Hn; [|done]. exfalso.
      destruct (Hfrom n fr Hn) as [Hold|(_ & Hne & b & Hb & ->)];
        [by rewrite lookup_empty in Hold|].
      apply Hne. clear -Hor. induction b as [|r b IH]; [done|]. simpl.
      by rewrite (emitted_nil panoids r Hor). }
    rewrite Hempty.
    assert (glob (files ∅) = []) as ->; [|done].
    apply Permutation_nil. by rewrite (glob_lists_all _).
Qed.

Lemma run_submitted (columns : list string) (df : frame) (dir : shard_dir) :
  dir <> ∅ -> "lat_lon_id" ∈ columns ->
  fst (fst (run columns df dir)) = left_only df (completed_ids glob dir)
  /\ (left_only df (completed_ids glob dir) = [] ->
      snd (run columns df dir) = Done (CompletedIds (completed_ids glob dir))).
Proof.
  intros Hdir Hcol. unfold _get_pids_from_df, points.
  rewrite shard_dir_nonempty by done. rewrite (bool_decide_eq_true_2 _ Hcol). cbn [andb negb].
  case_bool_decide as Hnil; [by rewrite Hnil|].
  rewrite discover_submitted. split; [done|]. by intros ?.
Qed.

(** X13.  A discovery run on a directory that holds shards resumes by key.
    The rows submitted to the workers are the points of the table whose
    [lat_lon_id] no row of a shard carries, each as often as the table has
    it; a point whose answer was empty, or whose task failed, is in no
    shard and is submitted again.  When no point is left, the function
    returns the series of the completed ids in place of the pid table. *)
Theorem X13_discovery_resumes_by_key (columns : list string) (df : frame) (dir : shard_dir) :
  dir <> ∅ -> "lat_lon_id" ∈ columns ->
  let submitted := fst (fst (run columns df dir)) in
  submitted
    ≡ₚ List.filter
         (fun p : row => negb (bool_decide (cell p "lat_lon_id" ∈ completed_ids glob dir))) df
  /\ (forall p, p ∈ submitted
        <-> p ∈ df
            /\ forall fr rec, fr ∈ files dir -> rec ∈ fr ->
                  cell rec "lat_lon_id" <> cell p "lat_lon_id")
  /\ (submitted = [] -> snd (run columns df dir) = Done (CompletedIds (completed_ids glob dir)))
  /\ (forall v, v ∈ completed_ids glob dir
        <-> exists fr rec, fr ∈ files dir /\ rec ∈ fr /\ cell rec "lat_lon_id" = v).
Proof.
  intros Hdir Hcol submitted.
  destruct (run_submitted columns df dir Hdir Hcol) as [Hsub Hnone].
  subst submitted. rewrite Hsub. unfold left_only at 1 2.
  split; [apply List_filter_perm, sort_lat_lon_id_perm|].
  split; [|split; [exact Hnone|apply elem_of_completed_ids]].
  intros p. rewrite elem_of_List_filter, negb_true_iff, bool_decide_eq_false.
  rewrite (sort_lat_lon_id_perm df), elem_of_completed_ids. split.
  - intros [Hp Hn]. split; [done|]. intros fr rec Hfr Hrec Heq. apply Hn. by exists fr, rec.
  - intros [Hp Hn]. split; [done|]. intros (fr & rec & Hfr & Hrec & Heq). by apply (Hn fr rec).
Qed.






Lemma getattr_not_field (r : row) (c : string) :
  isidentifier c = false \/ iskeyword c = true -> getattr r c = Raise (AttributeError c).
Proof.
  intros Hc. unfold getattr, field_name. by destruct Hc as [-> | ->]; rewrite ?andb_false_r.
Qed.

Lemma mapM_result_Raise_elem {A B} (f : A -> result B) (l : list A) (x : A) (e : exn) :
  x ∈ l -> f x = Raise e -> exists e', mapM f l = Raise e'.
Proof.
  induction l as [|y l IH]; [by intros ?%elem_of_nil|].
  intros [->|Hx]%elem_of_cons Hf; rewrite mapM_result_cons.
  - rewrite Hf. by eexists.
  - destruct (f y); [|by eexists]. destruct (IH Hx Hf) as [e' ->]. by eexists.
Qed.

(** A user id column that is no field of the row tuples makes every task
    fail, whatever the point and whatever the remote would answer. *)
Lemma worker_not_field (oracle : pyval -> pyval -> result (list row)) (c : string) (r : row) :
  c ∈ id_columns -> isidentifier c = false \/ iskeyword c = true ->
  exists e, worker oracle id_columns r = Raise e.
Proof.
  intros Hc Hbad.
  destruct (mapM_result_Raise_elem (getattr r) id_columns c _ Hc (getattr_not_field r c Hbad))
    as [e He].
  unfold worker, id_dict_of. rewrite He. unfold mbind, result_bind, bind.
  destruct (getattr r "longitude"); [|by eexists].
  destruct (getattr r "latitude"); [|by eexists].
  destruct (getattr r "lat_lon_id"); by eexists.
Qed.

Lemma discover_no_record (pts : frame) :
  (forall p, p ∈ pts -> emitted1 p = []) ->
  discover panoids panoids_retry id_columns glob pts ∅
  = (pts, [], Fail (Exn (ValueError "No objects to concatenate"))).
Proof.
  intros Hnone. unfold discover.
  set (batches := map _ (py_range 0 _)).
  assert (Hcat : concat batches = pts) by (apply concat_slices; done).
  destruct (batch_loop_spec (checkpoint_start_index ∅) batches 0 ∅ [])
    as (dir' & Hrun & _ & _ & Hfrom & _).
  rewrite Hrun.
  assert (Hempty : dir' = ∅).
  { apply map_empty. intros n. destruct (dir' !! n) as [fr|] eqn:Hn; [|done]. exfalso.
    destruct (Hfrom n fr Hn) as [Hold|(_ & Hne & b & Hb & ->)];
      [by rewrite lookup_empty in Hold|].
    apply Hne.
    assert (Hb' : forall p, p ∈ b -> emitted1 p = []).
    { intros p Hp. apply Hnone. rewrite <- Hcat. apply elem_of_concat. by exists b. }
    clear -Hb'. induction b as [|p b IH]; [done|]. cbn [flat_map].
    rewrite (Hb' p) by left. apply IH. intros q Hq. apply Hb'. by right. }
  rewrite Hempty.
  assert (glob (files ∅) = []) as ->; [|done].
  apply Permutation_nil. by rewrite (glob_lists_all _).
Qed.

(** X17.  A user id column whose name is not an identifier, or is a
    keyword - [site id], [2nd], [class] - is no field of the row tuples of
    [itertuples()]: [getattr(row, column)] raises [AttributeError] in every
    task, before the remote is asked.  A GSV discovery run started without
    shards on a table that has points submits every point, gets no record,
    and raises [ValueError] when it concatenates the shards, before any
    failed row is retried. *)
Theorem X17_id_column_not_a_field_fails_discovery (columns : list string) (df : frame)
    (c : string) :
  c ∈ id_columns -> isidentifier c = false \/ iskeyword c = true -> df <> [] ->
  (forall p, exists e, worker panoids id_columns p = Raise e)
  /\ run columns df ∅
     = (points glob columns df ∅, [], Fail (Exn (ValueError "No objects to concatenate")))
  /\ length (points glob columns df ∅) = length df.
Proof.
  intros Hc Hbad Hdf. split; [intros p; by apply (worker_not_field panoids c)|].
  unfold _get_pids_from_df. rewrite shard_dir_empty. cbn [andb].
  set (pts := points glob columns df ∅).
  assert (Hlen : length pts = length df).
  { subst pts. unfold points. rewrite shard_dir_empty.
    destruct (bool_decide _); [done|]. unfold assign_lat_lon_id. by rewrite length_imap. }
  rewrite bool_decide_eq_false_2.
  2:{ intros Hp. rewrite Hp in Hlen. destruct df; [done|discriminate]. }
  split; [|done]. apply discover_no_record. intros p _.
  unfold emitted, reduce_batch. simpl.
  by destruct (worker_not_field panoids c p Hc Hbad) as [e ->].
Qed.
End DiscoveryRunFacts.

Section DiscoveryRunWitness.
Import Py PyMore Frame BaseDownloader Series Shards GSVDiscovery MoreSamples.
Import GSVDownloader.get_pids_from_df.

Lemma sample_shards_nonempty : sample_shards <> ∅.
Proof. apply map_non_empty_singleton. Qed.

Lemma X12_discovery_failures_witness :
  let run := _get_pids_from_df sample_no_panoids sample_no_panoids [] (fun shards => shards) in
  (sample_shards <> ∅ -> "lat_lon_id" ∉ ["latitude"; "longitude"] ->
   run ["latitude"; "longitude"] sample_points sample_shards
   = ([], [], Fail (Exn (KeyError "lat_lon_id"))))
  /\ run ["latitude"; "longitude"] [] ∅ = ([], [], Fail (UnboundLocalError "completed_ids"))
  /\ (sample_points <> [] ->
      (forall lat lon, sample_no_panoids lat lon = Ok []
                       \/ exists e, sample_no_panoids lat lon = Raise e) ->
      run ["latitude"; "longitude"] sample_points ∅
      = (points (fun shards => shards) ["latitude"; "longitude"] sample_points ∅, [],
         Fail (Exn (ValueError "No objects to concatenate")))
        /\ length (points (fun shards => shards) ["latitude"; "longitude"] sample_points ∅)
           = length sample_points).
Proof.
  exact (X12_discovery_failures sample_no_panoids sample_no_panoids [] (fun shards => shards)
           (fun shards => Permutation_refl shards)
           ["latitude"; "longitude"] sample_points sample_shards).
Defined.

Lemma X13_discovery_resume_witness :
  let run := _get_pids_from_df sample_panoids sample_panoids [] (fun shards => shards) in
  let columns := ["latitude"; "longitude"; "lat_lon_id"] in
  let submitted := fst (fst (run columns sample_points sample_shards)) in
  submitted
    ≡ₚ List.filter
         (fun p : row =>
            negb (bool_decide (cell p "lat_lon_id"
                                 ∈ completed_ids (fun shards => shards) sample_shards)))
         sample_points
  /\ (forall p, p ∈ submitted
        <-> p ∈ sample_points
            /\ forall fr rec, fr ∈ files sample_shards -> rec ∈ fr ->
                  cell rec "lat_lon_id" <> cell p "lat_lon_id")
  /\ (submitted = [] ->
      snd (run columns sample_points sample_shards)
      = Done (CompletedIds (completed_ids (fun shards => shards) sample_shards)))
  /\ (forall v, v ∈ completed_ids (fun shards => shards) sample_shards
        <-> exists fr rec, fr ∈ files sample_shards /\ rec ∈ fr /\ cell rec "lat_lon_id" = v).
Proof.
  apply (X13_discovery_resumes_by_key sample_panoids sample_panoids [] (fun shards => shards)
           (fun shards => Permutation_refl shards)
           ["latitude"; "longitude"; "lat_lon_id"] sample_points sample_shards).
  - exact sample_shards_nonempty.
  - do 2 right. left.
Defined.

Lemma X17_id_column_witness :
  let pts := map (insert "site id" (PStr "s1")) sample_points in
  let columns := ["latitude"; "longitude"; "lat_lon_id"; "site id"] in
  _get_pids_from_df sample_panoids sample_panoids ["site id"] (fun shards => shards)
    columns pts ∅
  = (points (fun shards => shards) columns pts ∅, [],
     Fail (Exn (ValueError "No objects to concatenate"))).
Proof.
  destruct (X17_id_column_not_a_field_fails_discovery sample_panoids sample_panoids
              ["site id"] (fun shards => shards) (fun shards => Permutation_refl shards)
              ["latitude"; "longitude"; "lat_lon_id"; "site id"]
              (map (insert "site id" (PStr "s1")) sample_points) "site id")
    as (_ & Hrun & _).
  - left.
  - left. reflexivity.
  - discriminate.
  - exact Hrun.
Defined.
End DiscoveryRunWitness.

(** ** Date filters: bounds and missing dates *)

Section DateFilterMoreFacts.
Import Py PyMore Frame Dates BaseDownloader Series GSVFetch Samples.

Lemma filter_dated_sublist (dated : list (row * option Z)) (start_date end_date : option string)
    (out : frame) :
  filter_dated dated start_date end_date = Ok out ->
  out `sublist_of` map (delete "date") (map fst dated).
Proof.
  unfold filter_dated, mbind, result_bind, bind.
  destruct (parse_bound "start_date" start_date) as [start|]; [|discriminate].
  destruct (parse_bound "end_date" end_date) as [end_|]; [|discriminate].
  intros [= <-]. rewrite (map_map fst (delete "date") dated). apply fmap_sublist.
  destruct end_ as [e|]; [etrans; [apply List_filter_sublist|]|];
    (destruct start as [s|]; [apply List_filter_sublist|done]).
Qed.

(** X15.  The date filters beyond the closed interval.  Whenever a filter
    returns, its table is a sub-sequence of the pid table and no row of it
    has a [date] cell.  For Mapillary, on a table whose [captured_at]
    converts and with bounds [strptime] takes (or none), the rows between
    the given bounds are kept; with no bound every row is kept, a row
    without [captured_at] included, while any bound drops the rows without
    [captured_at].  For GSV, a row whose year or month is missing or not a
    number makes the filter raise a [ValueError], whatever the bounds, none
    included. *)
Theorem X15_date_filter_bounds_and_missing (pid_df : frame)
    (start_date end_date : option string) :
  (forall out,
     MLYDownloader._filter_pids_date pid_df start_date end_date = Ok out
     \/ GSVDownloader._filter_pids_date pid_df start_date end_date = Ok out ->
     out `sublist_of` map (delete "date") pid_df /\ forall r, r ∈ out -> r !! "date" = None)
  /\ (forall lo hi,
        (forall r, r ∈ pid_df -> exists t, to_datetime_ms (cell r "captured_at") = Ok t) ->
        parse_bound "start_date" start_date = Ok lo ->
        parse_bound "end_date" end_date = Ok hi ->
        MLYDownloader._filter_pids_date pid_df start_date end_date
        = Ok (map (delete "date")
                (List.filter (fun r => within lo hi (MLYDownloader.capture_instant r)) pid_df))
        /\ (start_date = None -> end_date = None ->
            MLYDownloader._filter_pids_date pid_df start_date end_date
            = Ok (map (delete "date") pid_df))
        /\ (forall r, cell r "captured_at" = PNone ->
              within lo hi (MLYDownloader.capture_instant r)
              = bool_decide (lo = None /\ hi = None)))
  /\ ((exists r, r ∈ pid_df
                 /\ forall y m, ~ (cell r "year" = PInt y /\ cell r "month" = PInt m)) ->
      raises_ValueError (GSVDownloader._filter_pids_date pid_df start_date end_date)).
Proof.
  split; [|split].
  - intros out Hout.
    assert (Hsub : out `sublist_of` map (delete "date") pid_df).
    { destruct Hout as [Hout|Hout]; revert Hout;
        unfold MLYDownloader._filter_pids_date, GSVDownloader._filter_pids_date;
        unfold mbind at 1, result_bind at 1, bind;
        (destruct (mapM _ pid_df) as [dated|] eqn:Hm; [|discriminate]);
        intros Hout%filter_dated_sublist; by rewrite (mapM_dated_fst _ _ _ Hm) in Hout. }
    split; [done|]. intros r Hr. apply (fun H => elem_of_sublist _ _ _ H Hsub) in Hr.
    apply list_elem_of_fmap in Hr as (r0 & -> & _). apply lookup_delete_eq.
  - intros lo hi Hconv Hlo Hhi.
    assert (Hrun : MLYDownloader._filter_pids_date pid_df start_date end_date
                   = Ok (map (delete "date")
                           (List.filter (fun r => within lo hi (MLYDownloader.capture_instant r))
                              pid_df))).
    { unfold MLYDownloader._filter_pids_date.
      rewrite (mapM_dated_Ok _ MLYDownloader.capture_instant).
      2:{ intros r Hr. destruct (Hconv r Hr) as [t Ht].
          by rewrite Ht, (to_datetime_ms_instant r t Ht). }
      unfold mbind, result_bind, bind. by apply filter_dated_spec. }
    split; [done|]. split.
    + intros -> ->. injection Hlo as <-. injection Hhi as <-. rewrite Hrun.
      do 2 f_equal. by apply filter_all.
    + intros r Hr. unfold within, MLYDownloader.capture_instant. rewrite Hr.
      destruct lo, hi; reflexivity.
  - intros (r & Hr & Hbad). unfold GSVDownloader._filter_pids_date.
    unfold mbind at 1, result_bind at 1, bind.
    destruct (mapM _ pid_df) as [dated|e] eqn:Hm.
    + exfalso. apply mapM_result_Ok_inv in Hm.
      apply list_elem_of_lookup in Hr as [i Hi].
      destruct (Forall2_lookup_l _ _ _ _ _ Hm Hi) as (rt & _ & Hrt).
      revert Hrt. unfold mbind, result_bind, bind, to_datetime_ym.
      destruct (cell r "year") as [y| |]; try discriminate.
      destruct (cell r "month") as [m| |]; try discriminate.
      by destruct (Hbad y m).
    + simpl. apply mapM_dated_Raise in Hm as (r' & _ & Hr').
      by apply to_datetime_ym_ValueError in Hr'.
Qed.

Lemma X15_date_filter_witness :
  MLYDownloader._filter_pids_date sample_mly_pids None None
  = Ok (map (delete "date") sample_mly_pids)
  /\ raises_ValueError (GSVDownloader._filter_pids_date sample_mly_pids None None).
Proof.
  destruct (X15_date_filter_bounds_and_missing sample_mly_pids None None) as (_ & H2 & H3).
  split.
  - destruct (H2 None None) as (_ & Hall & _); [|reflexivity|reflexivity|by apply Hall].
    intros r Hr. unfold sample_mly_pids in Hr.
    repeat (apply elem_of_cons in Hr as [->|Hr]; [eexists; reflexivity|]).
    by apply elem_of_nil in Hr.
  - apply H3. exists {["id" := PInt 3]}. split; [do 2 right; left|].
    intros y m [Hy _]. vm_compute in Hy. discriminate Hy.
Defined.
End DateFilterMoreFacts.

(** ** A run of the Mapillary discovery *)

Section MLYDiscoveryFacts.
Import Py PyMore Frame BaseDownloader Series Shards MLYDiscovery.
Import MLYDownloader MLYDownloader.get_pids_from_df.

Variable get_image_close_to get_image_close_to_retry : pyval -> pyval -> result (list feature).
Variable id_columns : list string.
Variable glob : list frame -> list frame.
Variable repr_geometry repr_properties : feature -> string.
Hypothesis glob_lists_all : forall shards, glob shards ≡ₚ shards.

Local Abbreviation mly_run :=
  (_get_pids_from_df get_image_close_to get_image_close_to_retry id_columns glob
     repr_geometry repr_properties).
Local Abbreviation attached :=
  (fun (oracle : pyval -> pyval -> result (list feature)) (r : row) =>
     fst (reduce_batch oracle id_columns [r] ([], []))).
Local Abbreviation mly_raw := (raw_row repr_geometry repr_properties).
Local Abbreviation mly_emitted1 := (emitted get_image_close_to id_columns).
Local Abbreviation mly_fails1 :=
  (fun r : row =>
     match worker get_image_close_to id_columns r with Ok _ => false | Raise _ => true end).

(** One batch: the features of the points that answer, the rows of the
    points that fail. *)
Lemma mly_reduce_batch_spec (oracle : pyval -> pyval -> result (list feature))
    (batch : list row) (results : list feature) (failed_rows : list row) :
  reduce_batch oracle id_columns batch (results, failed_rows)
  = (results ++ flat_map (attached oracle) batch,
     failed_rows
     ++ List.filter (fun r => match worker oracle id_columns r with Ok _ => false | Raise _ => true end)
          batch).
Proof.
  unfold reduce_batch. revert results failed_rows.
  induction batch as [|r batch IH]; intros results failed_rows; simpl.
  - by rewrite !app_nil_r.
  - destruct (worker oracle id_columns r) as [out|e]; simpl; rewrite IH.
    + by rewrite <- app_assoc.
    + by rewrite <- app_assoc.
Qed.

Lemma from_features_flat_map (oracle : pyval -> pyval -> result (list feature))
    (batch : list row) :
  from_features (flat_map (attached oracle) batch) = flat_map (emitted oracle id_columns) batch.
Proof.
  induction batch as [|r batch IH]; [done|]. cbn [flat_map].
  unfold from_features in *. rewrite map_app, IH. reflexivity.
Qed.

(** The batch loop: the shards written carry numbers above [start + i],
    one per batch with a feature; files with other numbers are left alone;
    the failed rows are collected in order. *)
Lemma mly_batch_loop_spec (start : Z) (batches : list (list row)) :
  forall (i : Z) (dir : shard_dir) (failed_rows : list row),
  exists dir',
    batch_loop get_image_close_to id_columns start i batches dir failed_rows
    = (dir', failed_rows ++ List.filter mly_fails1 (concat batches))
    /\ (forall n, is_Some (dir !! n) -> is_Some (dir' !! n))
    /\ (forall n fr, dir' !! n = Some fr ->
          dir !! n = Some fr
          \/ (fr <> [] /\ exists batch, batch ∈ batches /\ fr = flat_map mly_emitted1 batch))
    /\ (forall batch, batch ∈ batches -> flat_map mly_emitted1 batch <> [] ->
          exists n, is_Some (dir' !! n)).
Proof.
  induction batches as [|batch batches IH]; intros i dir failed_rows.
  - exists dir. simpl. rewrite app_nil_r. repeat split; try done.
    + intros n fr Hn. by left.
    + by intros batch ?%elem_of_nil.
  - cbn [batch_loop concat]. rewrite mly_reduce_batch_spec. cbn [app].
    rewrite List.filter_app, app_assoc.
    pose proof (from_features_flat_map get_image_close_to batch) as Hff.
    destruct (flat_map (attached get_image_close_to) batch) as [|f0 fs] eqn:Hfs.
    + destruct (IH (i + 1) dir (failed_rows ++ List.filter mly_fails1 batch))
        as (dir' & Hrun & Hkeep & Hfrom & Hnew).
      exists dir'. rewrite Hrun. split; [done|]. split; [done|]. split.
      * intros n fr Hn. destruct (Hfrom n fr Hn) as [?|(Hne & b & Hb & ->)]; [by left|].
        right. split; [done|]. exists b. split; [by right|done].
      * intros b [->|Hb]%elem_of_cons Hne; [by rewrite <- Hff in Hne|]. by apply (Hnew b).
    + destruct (IH (i + 1) (write_shard start i (from_features (f0 :: fs)) dir)
                  (failed_rows ++ List.filter mly_fails1 batch))
        as (dir' & Hrun & Hkeep & Hfrom & Hnew).
      exists dir'. rewrite Hrun. split; [done|]. unfold write_shard in *.
      split; [|split].
      * intros n Hn. apply Hkeep. destruct (decide (n = start + i + 1)) as [->|Hne].
        -- rewrite lookup_insert_eq. by eexists.
        -- by rewrite lookup_insert_ne.
      * intros n fr Hn. destruct (Hfrom n fr Hn) as [Hold|(Hne & b & Hb & ->)].
        -- destruct (decide (n = start + i + 1)) as [->|Hne].
           ++ rewrite lookup_insert_eq in Hold. injection Hold as <-.
              right. split; [done|]. exists batch. split; [left|done].
           ++ rewrite lookup_insert_ne in Hold by done. by left.
        -- right. split; [done|]. exists b. split; [by right|done].
      * intros b [->|Hb]%elem_of_cons Hne.
        -- exists (start + i + 1). apply Hkeep. rewrite lookup_insert_eq. by eexists.
        -- by apply (Hnew b).
Qed.






Lemma mly_worker_not_field (oracle : pyval -> pyval -> result (list feature)) (c : string)
    (r : row) :
  c ∈ id_columns -> isidentifier c = false \/ iskeyword c = true ->
  exists e, worker oracle id_columns r = Raise e.
Proof.
  intros Hc Hbad.
  destruct (mapM_result_Raise_elem (getattr r) id_columns c _ Hc (getattr_not_field r c Hbad))
    as [e He].
  unfold worker, id_dict_of. rewrite He. unfold mbind, result_bind, bind.
  destruct (getattr r "latitude"); [|by eexists].
  destruct (getattr r "longitude"); [|by eexists].
  destruct (getattr r "lat_lon_id"); by eexists.
Qed.

(** X18.  The same for Mapillary: with a user id column whose name is not
    an identifier, or is a keyword, every task of a discovery run fails in
    [getattr(row, column)].  Started without shards on a table that has
    points, the run submits every point, retries every point, and raises
    [UnboundLocalError] on [results_df]. *)
Theorem X18_mly_id_column_not_a_field_fails_discovery (columns : list string) (df : frame)
    (c : string) :
  c ∈ id_columns -> isidentifier c = false \/ iskeyword c = true -> df <> [] ->
  let pts := GSVDiscovery.points glob columns df ∅ in
  (forall p, exists e, worker get_image_close_to id_columns p = Raise e)
  /\ mly_run columns df ∅ = (pts, pts, Fail (UnboundLocalError "results_df"))
  /\ length pts = length df.
Proof.
  intros Hc Hbad Hdf pts.
  split; [intros p; by apply (mly_worker_not_field get_image_close_to c)|].
  unfold _get_pids_from_df. rewrite shard_dir_empty. cbn [andb]. fold pts.
  assert (Hlen : length pts = length df).
  { subst pts. unfold GSVDiscovery.points. rewrite shard_dir_empty.
    destruct (bool_decide _); [done|]. unfold GSVDiscovery.assign_lat_lon_id.
    by rewrite length_imap. }
  assert (Hpts : pts <> []).
  { intros Hp. rewrite Hp in Hlen. destruct df; [done|discriminate]. }
  rewrite bool_decide_eq_false_2 by done. split; [|done].
  assert (Hfails : List.filter mly_fails1 pts = pts).
  { apply filter_all. intros p _.
    by destruct (mly_worker_not_field get_image_close_to c p Hc Hbad) as [e ->]. }
  unfold discover.
  set (batches := map _ (py_range 0 _)).
  assert (Hcat : concat batches = pts) by (apply concat_slices; done).
  destruct (mly_batch_loop_spec (checkpoint_start_index ∅) batches 0 ∅ [])
    as (dir' & Hrun & _ & Hfrom & _).
  rewrite Hrun, Hcat, Hfails. cbn [app].
  assert (Hempty : dir' = ∅).
  { apply map_empty. intros n. destruct (dir' !! n) as [fr|] eqn:Hn; [|done]. exfalso.
    destruct (Hfrom n fr Hn) as [Hold|(Hne & b & Hb & ->)];
      [by rewrite lookup_empty in Hold|].
    apply Hne. clear -Hc Hbad. induction b as [|p b IH]; [done|]. cbn [flat_map].
    rewrite IH, app_nil_r. unfold emitted, reduce_batch. simpl.
    by destruct (mly_worker_not_field get_image_close_to c p Hc Hbad) as [e ->]. }
  rewrite Hempty.
  assert (glob (files (∅ : shard_dir)) = []) as ->.
  { apply Permutation_nil. by rewrite (glob_lists_all _). }
  by destruct pts.
Qed.
End MLYDiscoveryFacts.

Section MLYDiscoveryWitness.
Import Py PyMore Frame BaseDownloader Series Shards MLYDiscovery MoreSamples.
Import MLYDownloader MLYDownloader.get_pids_from_df.

Lemma X18_mly_id_column_witness :
  let pts := map (insert "site id" (PStr "s1")) sample_points in
  let columns := ["latitude"; "longitude"; "lat_lon_id"; "site id"] in
  _get_pids_from_df sample_close_to sample_close_to ["site id"] (fun shards => shards)
    (fun _ => "POINT") (fun _ => "{}") columns pts ∅
  = (GSVDiscovery.points (fun shards => shards) columns pts ∅,
     GSVDiscovery.points (fun shards => shards) columns pts ∅,
     Fail (UnboundLocalError "results_df")).
Proof.
  destruct (X18_mly_id_column_not_a_field_fails_discovery sample_close_to sample_close_to
              ["site id"] (fun shards => shards) (fun _ => "POINT") (fun _ => "{}")
              (fun shards => Permutation_refl shards)
              ["latitude"; "longitude"; "lat_lon_id"; "site id"]
              (map (insert "site id" (PStr "s1")) sample_points) "site id")
    as (_ & Hrun & _).
  - left.
  - left. reflexivity.
  - discriminate.
  - exact Hrun.
Defined.
End MLYDiscoveryWitness.
